(** * The session engine of the Neo4j Go driver: [neo4j/session_with_context.go]

    A shallow embedding of [sessionWithContext] and of its operations,
    with the collaborators the session consumes through interfaces (pool,
    router, connection, bookmark manager, clock) kept abstract: they act on
    an environment [Env] that the session never inspects.

    Go's in-place mutation of the receiver [s] is rendered by explicit state
    passing over a [World]: the session record, the environment, and the
    trace of the calls the session made to its collaborators. *)

From stdpp Require Import base numbers strings list gmap pretty.

Set Warnings "-register-all".
Local Open Scope string_scope.
Local Open Scope list_scope.
Local Open Scope Z_scope.

(** ** Errors *)

(** The error values the session builds or inspects by type switch.
    [ForeignError] stands for any error that is not one of the driver's own
    (for instance one returned by the work closure). *)
Inductive error : Type :=
| UsageError (Message : string)
| ConnectivityError (inner : error)
| TransactionExecutionLimit (Errors : list error) (Causes : list string)
| Neo4jError (Code : string) (Msg : string)
| ForeignError (msg : string)
| CombinedError (errs : list error).

(** A Go pair [(x, err)] of which exactly one component is meaningful. *)
Inductive result (A : Type) : Type :=
| Ok (a : A)
| Err (e : error).
Arguments Ok {A} a.
Arguments Err {A} e.

Definition Bookmarks := list string.

(** [idb.AccessMode] *)
Inductive AccessMode : Type := WriteMode | ReadMode.

Definition AccessMode_eqb (a b : AccessMode) : bool :=
  match a, b with
  | WriteMode, WriteMode | ReadMode, ReadMode => true
  | _, _ => false
  end.

(** [math.MinInt] on the 64-bit platforms the driver targets; [Timeout] is a
    [time.Duration], an int64 count of nanoseconds. *)
Definition MinInt : Z := - 2 ^ 63.

(** [FetchDefault] lets the driver decide the fetch size. *)
Definition FetchDefault : Z := 0.
Definition FetchAll : Z := -1.

(** [pool.DefaultLivenessCheckThreshold] is [math.MaxInt64]. *)
Definition DefaultLivenessCheckThreshold : Z := 2 ^ 63 - 1.

(** A borrowed connection.  [isDatabaseSelector] tells whether the dynamic
    type of the connection implements [idb.DatabaseSelector], which is what
    the type assertion in [getConnection] tests. *)
Record Connection : Type := {
  connId : nat;
  ServerName : string;
  ServerVersion : string;
  isDatabaseSelector : bool
}.

Definition TxHandle := nat.
Definition StreamHandle := nat.

Inductive LogLevel : Type := LError | LWarn | LDebug.

(** What a log call carries: the logged error ([log.Error]) or the format
    string with its rendered arguments ([Warnf], [Debugf]). *)
Inductive LogEntry : Type :=
| LogErr (e : error)
| LogMsg (format : string) (args : list string).

Section Model.

(** [Env]: the state of everything outside the session (servers, pool,
    routing table, bookmark manager, clock).  [Ctx]: [context.Context].
    [Value]: the non-nil values of Go's [any]. *)
Context {Env Ctx Value : Type}.

(** Go's [any]: nil or a value. *)
Definition any : Type := option Value.

(** A call into a collaborator: it may change the environment. *)
Definition Ext (A : Type) : Type := Env -> A * Env.

Record TransactionConfig : Type := {
  Timeout : Z;
  Metadata : gmap string any
}.

(** [idb.TxConfig] *)
Record TxConfig : Type := {
  txMode : AccessMode;
  txBookmarks : Bookmarks;
  txTimeout : Z;
  txMeta : gmap string any;
  txImpersonatedUser : string;
  txNotificationFilters : list string
}.

(** [idb.Command] *)
Record Command : Type := {
  Cypher : string;
  Params : gmap string any;
  cmdFetchSize : Z
}.

Record Config : Type := {
  MaxTransactionRetryTime : Z;
  ConnectionAcquisitionTimeout : Z;
  MaxConnectionPoolSize : Z;
  FetchSize : Z
}.

(** Connection pool as seen by the session. *)
Record sessionPool : Type := {
  Borrow : Ctx -> list string -> bool -> Z -> Ext (result Connection);
  Return : Ctx -> Connection -> Ext (option error);
  poolCleanUp : Ctx -> Ext (option error)
}.

(** Router as seen by the session.  [Readers] and [Writers] receive the
    bookmark provider as a callback. *)
Record sessionRouter : Type := {
  Readers : Ctx -> (Ctx -> Ext (result Bookmarks)) -> string -> Ext (result (list string));
  Writers : Ctx -> (Ctx -> Ext (result Bookmarks)) -> string -> Ext (result (list string));
  GetNameOfDefaultDatabase : Ctx -> Bookmarks -> string -> Ext (result string);
  InvalidateReader : Ctx -> string -> string -> Ext (option error);
  InvalidateWriter : Ctx -> string -> string -> Ext (option error);
  routerCleanUp : Ctx -> Ext (option error)
}.

(** The bookmark authority shared between sessions. *)
Record BookmarkManager : Type := {
  GetBookmarks : Ctx -> string -> Ext (result Bookmarks);
  GetAllBookmarks : Ctx -> Ext (result Bookmarks);
  UpdateBookmarks : Ctx -> string -> Bookmarks -> string -> Ext (option error)
}.

Record SessionConfig : Type := {
  scAccessMode : AccessMode;
  scBookmarks : Bookmarks;
  scDatabaseName : string;
  scFetchSize : Z;
  scImpersonatedUser : string;
  scBookmarkManager : option BookmarkManager;
  scNotificationFilters : any
}.

(** The methods of [idb.Connection] the session calls, and the buffering
    and consumption of a result stream. *)
Record Bolt : Type := {
  TxBegin : Connection -> Ctx -> TxConfig -> Ext (result TxHandle);
  TxCommit : Connection -> Ctx -> TxHandle -> Ext (option error);
  TxRollback : Connection -> Ctx -> TxHandle -> Ext (option error);
  connRun : Connection -> Ctx -> Command -> TxConfig -> Ext (result StreamHandle);
  Bookmark : Connection -> Env -> string * string;
  SelectDatabase : Connection -> string -> Env -> Env;
  Version : Connection -> Env -> nat * nat;
  streamBuffer : Connection -> Ctx -> StreamHandle -> Env -> Env;
  streamConsume : Connection -> Ctx -> StreamHandle -> Env -> Env
}.

(** Helpers and constants of the driver that [session_with_context.go]
    uses and does not define. *)
Record Driver : Type := {
  wrapError : error -> error;
  notificationFilterRawValuesOf : any -> result (list string);
  DefaultDatabase : string;
  WithTimeout : Ctx -> Z -> Ctx;
  IsRetriableCode : string -> bool;
  errorString : error -> string;
  durationString : Z -> string;
  deadlineString : Ctx -> string
}.

(** Modelled from the spec: the BookmarkTracker struct [sessionBookmarks],
    which is not part of the source at hand.  The spec gives it an immutable
    initial bookmark set, a mutable current set and an optional reference to
    the external bookmark authority. *)
Record sessionBookmarks : Type := {
  bookmarkManager : option BookmarkManager;
  initialBookmarks : Bookmarks;
  bookmarks_current : Bookmarks
}.

(** The explicit transaction wrapper.  [etx_ctx] and [etx_beginBookmarks]
    are the variables its [onClosed] closure captures in [BeginTransaction]
    (the connection is captured too and is [etx_conn]). *)
Record explicitTransaction : Type := {
  etx_conn : Connection;
  etx_fetchSize : Z;
  etx_txHandle : TxHandle;
  etx_err : option error;
  etx_ctx : Ctx;
  etx_beginBookmarks : Bookmarks
}.

(** The cursor [newResultWithContext] builds in [Run]; [res_ctx] and
    [res_runBookmarks] are what its after-consumption closure captures. *)
Record resultWithContext : Type := {
  res_conn : Connection;
  res_stream : StreamHandle;
  res_cypher : string;
  res_params : gmap string any;
  res_ctx : Ctx;
  res_runBookmarks : Bookmarks
}.

(** The autocommit transaction wrapper.  The session's field is its only
    reference, so a wrapper that has been closed is one the session no longer
    holds, and no [closed] flag is kept. *)
Record autocommitTransaction : Type := {
  atx_conn : option Connection;
  atx_res : resultWithContext
}.

Record managedTransaction : Type := {
  mtx_conn : Connection;
  mtx_fetchSize : Z;
  mtx_txHandle : TxHandle
}.

(** [ManagedTransactionWork]: the unit of work; it talks to the server
    through the transaction it is given. *)
Definition ManagedTransactionWork : Type := managedTransaction -> Ext (result any).

Record ServerInfo : Type := {
  address : string;
  agent : string;
  protocolVersion : nat * nat
}.

(** The session.  The logger fields ([log], [logId], [boltLogger]) are not
    kept: a log call is an event of the trace. *)
Record sessionWithContext : Type := {
  config : Config;
  defaultMode : AccessMode;
  bookmarks : sessionBookmarks;
  databaseName : string;
  impersonatedUser : string;
  resolveHomeDb : bool;
  pool : sessionPool;
  router : sessionRouter;
  explicitTx : option explicitTransaction;
  autocommitTx : option autocommitTransaction;
  sleep : Z -> Env -> Env;
  now : Env -> Z;
  throttleTime : Z;
  fetchSize : Z;
  notificationFilters : any
}.

(** The calls the session makes to its collaborators, with what they
    returned. *)
Inductive Event : Type :=
| EvLog (lvl : LogLevel) (entry : LogEntry)
| EvBorrow (servers : list string) (wait : bool) (threshold : Z) (r : result Connection)
| EvReturn (c : Connection) (r : option error)
| EvPoolCleanUp (r : option error)
| EvRouterCleanUp (r : option error)
| EvReaders (db : string) (r : result (list string))
| EvWriters (db : string) (r : result (list string))
| EvGetNameOfDefaultDatabase (bms : Bookmarks) (user : string) (r : result string)
| EvInvalidateReader (db server : string) (r : option error)
| EvInvalidateWriter (db server : string) (r : option error)
| EvSelectDatabase (c : Connection) (db : string)
| EvTxBegin (c : Connection) (cfg : TxConfig) (r : result TxHandle)
| EvTxCommit (c : Connection) (h : TxHandle) (r : option error)
| EvTxRollback (c : Connection) (h : TxHandle) (r : option error)
| EvRun (c : Connection) (cmd : Command) (cfg : TxConfig) (r : result StreamHandle)
| EvWork (c : Connection) (h : TxHandle) (r : result any)
| EvOnFailure (c : option Connection) (err : error) (isCommitting : bool)
| EvUpdateBookmarks (db : string) (previous : Bookmarks) (new : string) (r : option error)
| EvBuffer (c : Connection) (st : StreamHandle)
| EvConsume (c : Connection) (st : StreamHandle)
| EvSleep (d : Z).

Record World : Type := {
  sess : sessionWithContext;
  env : Env;
  trace : list Event
}.

(** ** The state monad of the session's methods *)

Definition M (A : Type) : Type := World -> A * World.

Definition ret {A} (a : A) : M A := fun w => (a, w).

Definition bind {A B} (m : M A) (k : A -> M B) : M B :=
  fun w => let '(a, w') := m w in k a w'.

Declare Scope session_scope.
Delimit Scope session_scope with session.
Local Notation "x <- m ;; k" := (bind m (fun x => k))
  (at level 100, m at next level, right associativity) : session_scope.
Local Notation "m ;;; k" := (bind m (fun _ => k))
  (at level 100, right associativity) : session_scope.
Local Open Scope session_scope.

Definition getS : M sessionWithContext := fun w => (sess w, w).

Definition setS (f : sessionWithContext -> sessionWithContext) : M unit :=
  fun w => (tt, {| sess := f (sess w); env := env w; trace := trace w |}).

Definition emit (e : Event) : M unit :=
  fun w => (tt, {| sess := sess w; env := env w; trace := trace w ++ [e] |}).

Definition call {A} (f : Ext A) : M A :=
  fun w => let '(a, e') := f (env w) in
           (a, {| sess := sess w; env := e'; trace := trace w |}).

(** A call into a collaborator, recorded in the trace with its outcome. *)
Definition callEv {A} (f : Ext A) (ev : A -> Event) : M A :=
  a <- call f ;; emit (ev a) ;;; ret a.

Definition logError (err : error) : M unit := emit (EvLog LError (LogErr err)).
Definition Warnf (format : string) (args : list string) : M unit :=
  emit (EvLog LWarn (LogMsg format args)).
Definition Debugf (format : string) (args : list string) : M unit :=
  emit (EvLog LDebug (LogMsg format args)).

(** ** Field updates of the session *)

Definition with_bookmarks (s : sessionWithContext) (b : sessionBookmarks) : sessionWithContext :=
  {| config := config s; defaultMode := defaultMode s; bookmarks := b;
     databaseName := databaseName s; impersonatedUser := impersonatedUser s;
     resolveHomeDb := resolveHomeDb s; pool := pool s; router := router s;
     explicitTx := explicitTx s; autocommitTx := autocommitTx s;
     sleep := sleep s; now := now s; throttleTime := throttleTime s;
     fetchSize := fetchSize s; notificationFilters := notificationFilters s |}.

Definition with_databaseName (s : sessionWithContext) (d : string) : sessionWithContext :=
  {| config := config s; defaultMode := defaultMode s; bookmarks := bookmarks s;
     databaseName := d; impersonatedUser := impersonatedUser s;
     resolveHomeDb := resolveHomeDb s; pool := pool s; router := router s;
     explicitTx := explicitTx s; autocommitTx := autocommitTx s;
     sleep := sleep s; now := now s; throttleTime := throttleTime s;
     fetchSize := fetchSize s; notificationFilters := notificationFilters s |}.

Definition with_resolveHomeDb (s : sessionWithContext) (b : bool) : sessionWithContext :=
  {| config := config s; defaultMode := defaultMode s; bookmarks := bookmarks s;
     databaseName := databaseName s; impersonatedUser := impersonatedUser s;
     resolveHomeDb := b; pool := pool s; router := router s;
     explicitTx := explicitTx s; autocommitTx := autocommitTx s;
     sleep := sleep s; now := now s; throttleTime := throttleTime s;
     fetchSize := fetchSize s; notificationFilters := notificationFilters s |}.

Definition with_explicitTx (s : sessionWithContext) (t : option explicitTransaction) : sessionWithContext :=
  {| config := config s; defaultMode := defaultMode s; bookmarks := bookmarks s;
     databaseName := databaseName s; impersonatedUser := impersonatedUser s;
     resolveHomeDb := resolveHomeDb s; pool := pool s; router := router s;
     explicitTx := t; autocommitTx := autocommitTx s;
     sleep := sleep s; now := now s; throttleTime := throttleTime s;
     fetchSize := fetchSize s; notificationFilters := notificationFilters s |}.

Definition with_autocommitTx (s : sessionWithContext) (t : option autocommitTransaction) : sessionWithContext :=
  {| config := config s; defaultMode := defaultMode s; bookmarks := bookmarks s;
     databaseName := databaseName s; impersonatedUser := impersonatedUser s;
     resolveHomeDb := resolveHomeDb s; pool := pool s; router := router s;
     explicitTx := explicitTx s; autocommitTx := t;
     sleep := sleep s; now := now s; throttleTime := throttleTime s;
     fetchSize := fetchSize s; notificationFilters := notificationFilters s |}.

Variable bolt : Bolt.
Variable drv : Driver.

(** ** The bookmark tracker *)

(** [collection.NewSet(a)] followed by [AddAll(b)] and [Values()]: the
    elements of the union, in an order the callers do not rely on. *)
Definition setValues (a b : Bookmarks) : Bookmarks :=
  elements ((list_to_set a : gset string) ∪ list_to_set b).

(** Modelled from the spec: [sessionBookmarks.currentBookmarks], the
    tracker's mutable current bookmark set. *)
Definition currentBookmarks (sb : sessionBookmarks) : Bookmarks :=
  bookmarks_current sb.

Definition with_current (sb : sessionBookmarks) (b : Bookmarks) : sessionBookmarks :=
  {| bookmarkManager := bookmarkManager sb;
     initialBookmarks := initialBookmarks sb;
     bookmarks_current := b |}.

(** Modelled from the spec: [newSessionBookmarks]; the current set starts as
    the initial set given at session creation. *)
Definition newSessionBookmarks (bm : option BookmarkManager) (initial : Bookmarks) : sessionBookmarks :=
  {| bookmarkManager := bm; initialBookmarks := initial; bookmarks_current := initial |}.

(** Modelled from the spec: [sessionBookmarks.replaceSessionBookmarks], the
    session-local half of [replaceBookmarks]: a returned token replaces the
    current set by its singleton, the authority is not involved, and an empty
    token (the server returned nothing) changes nothing. *)
Definition replaceSessionBookmarks (newBookmark : string) : M unit :=
  if String.eqb newBookmark "" then ret tt
  else setS (fun s => with_bookmarks s (with_current (bookmarks s) [newBookmark])).

(** Modelled from the spec: [sessionBookmarks.replaceBookmarks].  "If the
    server returned a token, atomically replace the session's current
    bookmark set with {newBookmark} and, if an external authority is
    configured, notify it of the transition from sentBookmarks to
    newBookmark for that database.  If the server returned nothing, this is
    a no-op."  The error it returns is the authority's. *)
Definition replaceBookmarks (ctx : Ctx) (db : string) (sentBookmarks : Bookmarks)
    (newBookmark : string) : M (option error) :=
  if String.eqb newBookmark "" then ret None
  else
    replaceSessionBookmarks newBookmark ;;;
    s <- getS ;;
    match bookmarkManager (bookmarks s) with
    | None => ret None
    | Some bm =>
        callEv (UpdateBookmarks bm ctx db sentBookmarks newBookmark)
               (EvUpdateBookmarks db sentBookmarks newBookmark)
    end.

(** Modelled from the spec: [sessionBookmarks.allBookmarks], "the union of
    (a) bookmarks obtained from the external bookmark authority, if
    configured, and (b) bookmarks accumulated locally in this session". *)
Definition allBookmarks (ctx : Ctx) : M (result Bookmarks) :=
  s <- getS ;;
  match bookmarkManager (bookmarks s) with
  | None => ret (Ok (currentBookmarks (bookmarks s)))
  | Some bm =>
      r <- call (GetAllBookmarks bm ctx) ;;
      match r with
      | Err err => ret (Err err)
      | Ok bs => ret (Ok (setValues bs (currentBookmarks (bookmarks s))))
      end
  end.

(** Modelled from the spec: [sessionBookmarks.bookmarksOfDatabase], the
    authority's bookmarks for one database, none without an authority. *)
Definition bookmarksOfDatabase (sb : sessionBookmarks) (ctx : Ctx) (db : string)
    : Ext (result Bookmarks) :=
  match bookmarkManager sb with
  | None => fun e => (Ok [], e)
  | Some bm => GetBookmarks bm ctx db
  end.

(** [routingBookmarks] as the callback handed to the router: it runs inside
    the router's call, on the tracker as it is at that time. *)
Definition routingBookmarksFn (sb : sessionBookmarks) (ctx : Ctx) : Ext (result Bookmarks) :=
  fun e =>
    let '(r, e') := bookmarksOfDatabase sb ctx "system" e in
    match r with
    | Err err => (Err err, e')
    | Ok systemBookmarks => (Ok (setValues systemBookmarks (currentBookmarks sb)), e')
    end.

Definition routingBookmarks (ctx : Ctx) : M (result Bookmarks) :=
  s <- getS ;; call (routingBookmarksFn (bookmarks s) ctx).

Definition transactionBookmarks (ctx : Ctx) : M (result Bookmarks) :=
  r <- allBookmarks ctx ;;
  match r with
  | Err err => ret (Err err)
  | Ok bms =>
      s <- getS ;;
      ret (Ok (setValues bms (currentBookmarks (bookmarks s))))
  end.

Definition retrieveBookmarks (ctx : Ctx) (conn : option Connection)
    (sentBookmarks : Bookmarks) : M (option error) :=
  match conn with
  | None => ret None
  | Some c =>
      s <- getS ;;
      bk <- call (fun e => (Bookmark bolt c e, e)) ;;
      let '(bookmark, bookmarkDatabase) := bk in
      let db := if String.eqb bookmarkDatabase "" then databaseName s else bookmarkDatabase in
      replaceBookmarks ctx db sentBookmarks bookmark
  end.

Definition retrieveSessionBookmarks (conn : option Connection) : M unit :=
  match conn with
  | None => ret tt
  | Some c =>
      bk <- call (fun e => (Bookmark bolt c e, e)) ;;
      replaceSessionBookmarks (fst bk)
  end.

(** ** Connection acquisition *)

Definition resolveHomeDatabase (ctx : Ctx) : M (option error) :=
  s <- getS ;;
  if negb (resolveHomeDb s) then ret None
  else
    rb <- routingBookmarks ctx ;;
    match rb with
    | Err err => ret (Some err)
    | Ok bms =>
        rd <- callEv (GetNameOfDefaultDatabase (router s) ctx bms (impersonatedUser s))
                     (EvGetNameOfDefaultDatabase bms (impersonatedUser s)) ;;
        match rd with
        | Err err => ret (Some err)
        | Ok defaultDb =>
            Debugf "Resolved home database, uses db '%s'" [defaultDb] ;;;
            setS (fun s => with_databaseName s defaultDb) ;;;
            setS (fun s => with_resolveHomeDb s false) ;;;
            ret None
        end
    end.

Definition getServers (ctx : Ctx) (mode : AccessMode) : M (result (list string)) :=
  s <- getS ;;
  let bookmarksFn := routingBookmarksFn (bookmarks s) in
  if AccessMode_eqb mode ReadMode
  then callEv (Readers (router s) ctx bookmarksFn (databaseName s)) (EvReaders (databaseName s))
  else callEv (Writers (router s) ctx bookmarksFn (databaseName s)) (EvWriters (databaseName s)).

Definition poolReturn (ctx : Ctx) (conn : Connection) : M (option error) :=
  s <- getS ;; callEv (Return (pool s) ctx conn) (EvReturn conn).

(** The first block of [getConnection]: with a connection acquisition
    timeout configured, the rest of the acquisition runs under a context
    bounded by it.  After [context.WithTimeout] the context always has a
    deadline, so the second debug line is written whenever the first is. *)
Definition withAcquisitionTimeout (ctx : Ctx) : M Ctx :=
  s <- getS ;;
  let timeout := ConnectionAcquisitionTimeout (config s) in
  if 0 <? timeout
  then
    let ctx' := WithTimeout drv ctx timeout in
    Debugf "connection acquisition timeout is: %s" [durationString drv timeout] ;;;
    Debugf "connection acquisition resolved deadline is: %s" [deadlineString drv ctx'] ;;;
    ret ctx'
  else ret ctx.

Definition getConnection (ctx : Ctx) (mode : AccessMode) (livenessCheckThreshold : Z)
    : M (result Connection) :=
  s <- getS ;;
  let timeout := ConnectionAcquisitionTimeout (config s) in
  ctx <- withAcquisitionTimeout ctx ;;
  r <- resolveHomeDatabase ctx ;;
  match r with
  | Some err => ret (Err (wrapError drv err))
  | None =>
      rs <- getServers ctx mode ;;
      match rs with
      | Err err => ret (Err (wrapError drv err))
      | Ok servers =>
          let wait := negb (timeout =? 0) in
          rc <- callEv (Borrow (pool s) ctx servers wait livenessCheckThreshold)
                       (EvBorrow servers wait livenessCheckThreshold) ;;
          match rc with
          | Err err => ret (Err (wrapError drv err))
          | Ok conn =>
              (* Select database on server *)
              s' <- getS ;;
              if negb (String.eqb (databaseName s') (DefaultDatabase drv))
              then
                if isDatabaseSelector conn
                then
                  call (fun e => (tt, SelectDatabase bolt conn (databaseName s') e)) ;;;
                  emit (EvSelectDatabase conn (databaseName s')) ;;;
                  ret (Ok conn)
                else
                  poolReturn ctx conn ;;;
                  ret (Err (UsageError "Database does not support multi-database"))
              else ret (Ok conn)
          end
      end
  end.

(** ** Transaction configuration *)

Definition defaultTransactionConfig : TransactionConfig :=
  {| Timeout := MinInt; Metadata := ∅ |}.

Definition validateTransactionConfig (config : TransactionConfig) : option error :=
  if negb (Timeout config =? MinInt) && (Timeout config <? 0)
  then Some (UsageError ("Negative transaction timeouts are not allowed. Given: "
                           +:+ pretty (Timeout config)))
  else None.

(** [for _, c := range configurers { c(&config) }] *)
Definition applyConfigurers (configurers : list (TransactionConfig -> TransactionConfig))
    (config : TransactionConfig) : TransactionConfig :=
  fold_left (fun cfg c => c cfg) configurers config.

(** ** Transaction wrappers *)

(** Modelled from the spec: [errorutil.CombineAllErrors], "combining all
    collected errors into one aggregate": no error when none was collected,
    otherwise the aggregate of the collected ones, in order. *)
Definition CombineAllErrors (errs : list (option error)) : option error :=
  match omap id errs with
  | [] => None
  | es => Some (CombinedError es)
  end.

Definition with_err (tx : explicitTransaction) (e : option error) : explicitTransaction :=
  {| etx_conn := etx_conn tx; etx_fetchSize := etx_fetchSize tx;
     etx_txHandle := etx_txHandle tx; etx_err := e;
     etx_ctx := etx_ctx tx; etx_beginBookmarks := etx_beginBookmarks tx |}.

(** The [onClosed] closure [BeginTransaction] installs: "On transaction
    closed (rolled back or committed)". *)
Definition explicit_onClosed (tx : explicitTransaction) : M explicitTransaction :=
  bookmarkErr <- retrieveBookmarks (etx_ctx tx) (Some (etx_conn tx)) (etx_beginBookmarks tx) ;;
  poolErr <- poolReturn (etx_ctx tx) (etx_conn tx) ;;
  let tx' := with_err tx (CombineAllErrors [etx_err tx; bookmarkErr; poolErr]) in
  setS (fun s => with_explicitTx s None) ;;;
  ret tx'.

(** Modelled from the spec: [explicitTransaction.Close].  The wrapper is
    destroyed explicitly by commit, rollback or close; closing an open
    transaction finalizes it on its connection, keeps the outcome as the
    transaction's error and fires the completion callback, once. *)
Definition explicitTransaction_Close (tx : explicitTransaction) (ctx : Ctx) : M (option error) :=
  r <- callEv (TxRollback bolt (etx_conn tx) ctx (etx_txHandle tx))
              (EvTxRollback (etx_conn tx) (etx_txHandle tx)) ;;
  tx' <- explicit_onClosed (with_err tx r) ;;
  ret (etx_err tx').

(** Modelled from the spec: [explicitTransaction.Commit], the other explicit
    end of the wrapper. *)
Definition explicitTransaction_Commit (tx : explicitTransaction) (ctx : Ctx) : M (option error) :=
  r <- callEv (TxCommit bolt (etx_conn tx) ctx (etx_txHandle tx))
              (EvTxCommit (etx_conn tx) (etx_txHandle tx)) ;;
  tx' <- explicit_onClosed (with_err tx r) ;;
  ret (etx_err tx').

(** The after-consumption closure [Run] gives to [newResultWithContext]. *)
Definition autocommit_afterConsume (res : resultWithContext) : M unit :=
  r <- retrieveBookmarks (res_ctx res) (Some (res_conn res)) (res_runBookmarks res) ;;
  match r with
  | Some err =>
      Warnf "could not retrieve bookmarks after result consumption: %s
the result of the initiating auto-commit transaction may not be visible to subsequent operations"
            [errorString drv err]
  | None => ret tt
  end.

(** The [onClosed] closure [Run] installs. *)
Definition autocommit_onClosed (tx : autocommitTransaction) : M unit :=
  poolReturn (res_ctx (atx_res tx)) (res_conn (atx_res tx)) ;;;
  setS (fun s => with_autocommitTx s None).

(** Modelled from the spec: [autocommitTransaction.done].  A pending
    autocommit transaction is "silently finalized (discarded, not rolled
    back)"; its completion "both returns the connection and merges any
    returned bookmark" and clears the session's reference to the wrapper. *)
Definition autocommitTransaction_done (tx : autocommitTransaction) (ctx : Ctx) : M unit :=
  let res := atx_res tx in
  call (fun e => (tt, streamBuffer bolt (res_conn res) ctx (res_stream res) e)) ;;;
  emit (EvBuffer (res_conn res) (res_stream res)) ;;;
  autocommit_afterConsume res ;;;
  autocommit_onClosed tx.

(** Modelled from the spec: [autocommitTransaction.discard], which [Close]
    uses; it differs from [done] in consuming the cursor instead of
    buffering it. *)
Definition autocommitTransaction_discard (tx : autocommitTransaction) (ctx : Ctx) : M unit :=
  let res := atx_res tx in
  call (fun e => (tt, streamConsume bolt (res_conn res) ctx (res_stream res) e)) ;;;
  emit (EvConsume (res_conn res) (res_stream res)) ;;;
  autocommit_afterConsume res ;;;
  autocommit_onClosed tx.

(** ** The retry engine's run state *)

(** Modelled from the spec: [retry.State].  The fields [runRetriable] sets
    and reads are the source's; [stStart] is the spec's start time. *)
Record State : Type := {
  stMaxTransactionRetryTime : Z;
  stNow : Env -> Z;
  stSleep : Z -> Env -> Env;
  stThrottle : Z;
  stMaxDeadConnections : Z;
  stRouter : sessionRouter;
  stDatabaseName : string;
  OnDeadConnection : string -> M (option error);
  stStart : Z;
  LastErr : option error;
  LastErrWasRetryable : bool;
  Errs : list error;
  Causes : list string
}.

Definition with_start (st : State) (t : Z) : State :=
  {| stMaxTransactionRetryTime := stMaxTransactionRetryTime st; stNow := stNow st;
     stSleep := stSleep st; stThrottle := stThrottle st;
     stMaxDeadConnections := stMaxDeadConnections st; stRouter := stRouter st;
     stDatabaseName := stDatabaseName st; OnDeadConnection := OnDeadConnection st;
     stStart := t; LastErr := LastErr st;
     LastErrWasRetryable := LastErrWasRetryable st; Errs := Errs st; Causes := Causes st |}.

Definition with_failure (st : State) (err : error) (retryable : bool) : State :=
  {| stMaxTransactionRetryTime := stMaxTransactionRetryTime st; stNow := stNow st;
     stSleep := stSleep st; stThrottle := stThrottle st;
     stMaxDeadConnections := stMaxDeadConnections st; stRouter := stRouter st;
     stDatabaseName := stDatabaseName st; OnDeadConnection := OnDeadConnection st;
     stStart := stStart st; LastErr := Some err;
     LastErrWasRetryable := retryable; Errs := Errs st ++ [err]; Causes := Causes st |}.

(** Modelled from the spec: the classification of a failure.
    "connectivity/transport errors against a specific server are retryable";
    "usage/client errors are never retryable"; for a server error with a
    code, "retryability [is] delegated to code-based classification in a
    collaborator". *)
Definition isRetryable (err : error) : bool :=
  match err with
  | ConnectivityError _ => true
  | Neo4jError code _ => IsRetriableCode drv code
  | _ => false
  end.

Definition isConnectivity (err : error) : bool :=
  match err with
  | ConnectivityError _ => true
  | _ => false
  end.

(** Modelled from the spec: [State.OnFailure].  The failure is recorded in
    the ordered history; a commit failure is recorded as retryable (and
    ambiguous), any other by its classification; a connectivity error
    against a specific server triggers that server's invalidation. *)
Definition OnFailure (st : State) (ctx : Ctx) (conn : option Connection) (err : error)
    (isCommitting : bool) : M State :=
  match conn with
  | Some c => if isConnectivity err then OnDeadConnection st (ServerName c) ;;; ret tt else ret tt
  | None => ret tt
  end ;;;
  ret (with_failure st err (isCommitting || isRetryable err)).

(** Modelled from the spec: [State.Continue].  "Loop while elapsed time is
    under budget"; "retry if classified retryable, else stop"; "between
    attempts, the backoff policy introduces a pacing delay".  Before the
    first attempt there is no failure and the budget starts. *)
Definition Continue (st : State) : M (bool * State) :=
  match LastErr st with
  | None =>
      t <- call (fun e => (stNow st e, e)) ;;
      ret (true, with_start st t)
  | Some _ =>
      if negb (LastErrWasRetryable st) then ret (false, st)
      else
        t <- call (fun e => (stNow st e, e)) ;;
        if t - stStart st <? stMaxTransactionRetryTime st
        then
          call (fun e => (tt, stSleep st (stThrottle st) e)) ;;;
          emit (EvSleep (stThrottle st)) ;;;
          ret (true, st)
        else ret (false, st)
  end.

(** Modelled from the spec: [newTransactionExecutionLimit], the "synthetic
    retry-limit-exceeded error carrying the full failure history". *)
Definition newTransactionExecutionLimit (errs : list error) (causes : list string) : error :=
  TransactionExecutionLimit errs causes.

(** [state.OnFailure(ctx, conn, err, isCommitting)] as the session calls it. *)
Definition stateOnFailure (st : State) (ctx : Ctx) (conn : option Connection) (err : error)
    (isCommitting : bool) : M State :=
  emit (EvOnFailure conn err isCommitting) ;;;
  OnFailure st ctx conn err isCommitting.

(** ** The session's operations *)

Definition LastBookmarks : M Bookmarks :=
  s <- getS ;;
  match autocommitTx s with
  | Some tx => retrieveSessionBookmarks (atx_conn tx)
  | None => ret tt
  end ;;;
  s' <- getS ;;
  ret (currentBookmarks (bookmarks s')).

Definition BeginTransaction (ctx : Ctx)
    (configurers : list (TransactionConfig -> TransactionConfig))
    : M (result explicitTransaction) :=
  s <- getS ;;
  (* Guard for more than one transaction per session *)
  match explicitTx s with
  | Some _ =>
      let err := UsageError "Session already has a pending transaction" in
      logError err ;;;
      ret (Err err)
  | None =>
      match autocommitTx s with
      | Some tx => autocommitTransaction_done tx ctx
      | None => ret tt
      end ;;;
      match notificationFilterRawValuesOf drv (notificationFilters s) with
      | Err err => ret (Err err)
      | Ok sessionNotificationFilters =>
          (* Apply configuration functions *)
          let txConfig := applyConfigurers configurers defaultTransactionConfig in
          match validateTransactionConfig txConfig with
          | Some err => ret (Err err)
          | None =>
              (* Get a connection from the pool *)
              rc <- getConnection ctx (defaultMode s) DefaultLivenessCheckThreshold ;;
              match rc with
              | Err err => ret (Err (wrapError drv err))
              | Ok conn =>
                  (* Begin transaction *)
                  rb <- transactionBookmarks ctx ;;
                  match rb with
                  | Err err => poolReturn ctx conn ;;; ret (Err (wrapError drv err))
                  | Ok beginBookmarks =>
                      let cfg := {| txMode := defaultMode s;
                                    txBookmarks := beginBookmarks;
                                    txTimeout := Timeout txConfig;
                                    txMeta := Metadata txConfig;
                                    txImpersonatedUser := impersonatedUser s;
                                    txNotificationFilters := sessionNotificationFilters |} in
                      rt <- callEv (TxBegin bolt conn ctx cfg) (EvTxBegin conn cfg) ;;
                      match rt with
                      | Err err => poolReturn ctx conn ;;; ret (Err (wrapError drv err))
                      | Ok txHandle =>
                          (* Create transaction wrapper *)
                          let tx := {| etx_conn := conn;
                                       etx_fetchSize := fetchSize s;
                                       etx_txHandle := txHandle;
                                       etx_err := None;
                                       etx_ctx := ctx;
                                       etx_beginBookmarks := beginBookmarks |} in
                          setS (fun s => with_explicitTx s (Some tx)) ;;;
                          ret (Ok tx)
                      end
                  end
              end
          end
      end
  end.

(** The [OnDeadConnection] closure [runRetriable] gives to the retry
    state. *)
Definition onDeadConnection (ctx : Ctx) (mode : AccessMode) (server : string) : M (option error) :=
  s <- getS ;;
  if AccessMode_eqb mode WriteMode
  then callEv (InvalidateWriter (router s) ctx (databaseName s) server)
              (EvInvalidateWriter (databaseName s) server)
  else callEv (InvalidateReader (router s) ctx (databaseName s) server)
              (EvInvalidateReader (databaseName s) server).

(** One attempt.  The deferred [s.pool.Return(ctx, conn)] runs on every way
    out once the connection is acquired.  The result is [(tryAgain, x)] and
    the retry state as the attempt leaves it. *)
Definition executeTransactionFunction (ctx : Ctx) (mode : AccessMode)
    (config : TransactionConfig) (state : State) (notificationFilters : list string)
    (work : ManagedTransactionWork) : M (bool * any * State) :=
  rc <- getConnection ctx mode DefaultLivenessCheckThreshold ;;
  match rc with
  | Err err =>
      st <- stateOnFailure state ctx None err false ;;
      ret (true, None, st)
  | Ok conn =>
      out <- (rb <- transactionBookmarks ctx ;;
              match rb with
              | Err err =>
                  st <- stateOnFailure state ctx (Some conn) err false ;;
                  ret (true, None, st)
              | Ok beginBookmarks =>
                  s <- getS ;;
                  let cfg := {| txMode := mode;
                                txBookmarks := beginBookmarks;
                                txTimeout := Timeout config;
                                txMeta := Metadata config;
                                txImpersonatedUser := impersonatedUser s;
                                txNotificationFilters := notificationFilters |} in
                  rt <- callEv (TxBegin bolt conn ctx cfg) (EvTxBegin conn cfg) ;;
                  match rt with
                  | Err err =>
                      st <- stateOnFailure state ctx (Some conn) err false ;;
                      ret (true, None, st)
                  | Ok txHandle =>
                      let tx := {| mtx_conn := conn; mtx_fetchSize := fetchSize s;
                                   mtx_txHandle := txHandle |} in
                      rw <- callEv (work tx) (EvWork conn txHandle) ;;
                      match rw with
                      | Err err =>
                          (* no explicit rollback: the pool resets the connection *)
                          st <- stateOnFailure state ctx (Some conn) err false ;;
                          ret (true, None, st)
                      | Ok x =>
                          rcm <- callEv (TxCommit bolt conn ctx txHandle) (EvTxCommit conn txHandle) ;;
                          match rcm with
                          | Some err =>
                              st <- stateOnFailure state ctx (Some conn) err true ;;
                              ret (true, None, st)
                          | None =>
                              (* transaction has been committed so just log the error *)
                              rbk <- retrieveBookmarks ctx (Some conn) beginBookmarks ;;
                              match rbk with
                              | Some err =>
                                  Warnf "could not retrieve bookmarks after successful commit: %s
the results of this transaction may not be visible to subsequent operations"
                                        [errorString drv err]
                              | None => ret tt
                              end ;;;
                              ret (false, x, state)
                          end
                      end
                  end
              end) ;;
      poolReturn ctx conn ;;;
      ret out
  end.

(** How the loop [for state.Continue() { ... }] ends. *)
Inductive LoopOutcome : Type :=
| LoopResult (x : any)
| LoopStopped (st : State).

(** The retry loop.  Nothing bounds the number of its iterations but the
    clock, so the model runs it on [fuel]; [None] is a loop still running
    when the fuel is spent, with the world as it is then. *)
Fixpoint retryLoop (fuel : nat) (ctx : Ctx) (mode : AccessMode) (config : TransactionConfig)
    (notificationFilters : list string) (work : ManagedTransactionWork) (state : State)
    : M (option LoopOutcome) :=
  match fuel with
  | O => ret None
  | S fuel' =>
      cs <- Continue state ;;
      if fst cs
      then
        r <- executeTransactionFunction ctx mode config (snd cs) notificationFilters work ;;
        if fst (fst r)
        then retryLoop fuel' ctx mode config notificationFilters work (snd r)
        else ret (Some (LoopResult (snd (fst r))))
      else ret (Some (LoopStopped (snd cs)))
  end.

(** The [retry.State] literal of [runRetriable]. *)
Definition retryState (s : sessionWithContext) (ctx : Ctx) (mode : AccessMode) : State :=
  {| stMaxTransactionRetryTime := MaxTransactionRetryTime (config s);
     stNow := now s;
     stSleep := sleep s;
     stThrottle := throttleTime s;
     stMaxDeadConnections := MaxConnectionPoolSize (config s);
     stRouter := router s;
     stDatabaseName := databaseName s;
     OnDeadConnection := onDeadConnection ctx mode;
     stStart := 0;
     LastErr := None;
     LastErrWasRetryable := false;
     Errs := [];
     Causes := [] |}.

Definition runRetriable (fuel : nat) (ctx : Ctx) (mode : AccessMode)
    (work : ManagedTransactionWork)
    (configurers : list (TransactionConfig -> TransactionConfig))
    : M (option (result any)) :=
  s <- getS ;;
  (* Guard for more than one transaction per session *)
  match explicitTx s with
  | Some _ => ret (Some (Err (UsageError "Session already has a pending transaction")))
  | None =>
      match autocommitTx s with
      | Some tx => autocommitTransaction_done tx ctx
      | None => ret tt
      end ;;;
      match notificationFilterRawValuesOf drv (notificationFilters s) with
      | Err err => ret (Some (Err err))
      | Ok sessionNotificationFilters =>
          let txConfig := applyConfigurers configurers defaultTransactionConfig in
          match validateTransactionConfig txConfig with
          | Some err => ret (Some (Err err))
          | None =>
              let state := retryState s ctx mode in
              out <- retryLoop fuel ctx mode txConfig sessionNotificationFilters work state ;;
              match out with
              | None => ret None
              | Some (LoopResult x) => ret (Some (Ok x))
              | Some (LoopStopped state) =>
                  (* When retries has occurred wrap the error *)
                  if LastErrWasRetryable state
                  then
                    let err := newTransactionExecutionLimit (Errs state) (Causes state) in
                    logError err ;;;
                    ret (Some (Err err))
                  else
                    (* Wrap and log the error if it belongs to the driver *)
                    match LastErr state with
                    | None => ret (Some (Ok None))
                    | Some lastErr =>
                        let err := wrapError drv lastErr in
                        match err with
                        | UsageError _ | ConnectivityError _ => logError err
                        | _ => ret tt
                        end ;;;
                        ret (Some (Err err))
                    end
              end
          end
      end
  end.

Definition ExecuteRead (fuel : nat) (ctx : Ctx) (work : ManagedTransactionWork)
    (configurers : list (TransactionConfig -> TransactionConfig)) : M (option (result any)) :=
  runRetriable fuel ctx ReadMode work configurers.

Definition ExecuteWrite (fuel : nat) (ctx : Ctx) (work : ManagedTransactionWork)
    (configurers : list (TransactionConfig -> TransactionConfig)) : M (option (result any)) :=
  runRetriable fuel ctx WriteMode work configurers.

Definition Run (ctx : Ctx) (cypher : string) (params : gmap string any)
    (configurers : list (TransactionConfig -> TransactionConfig))
    : M (result resultWithContext) :=
  s <- getS ;;
  match explicitTx s with
  | Some _ =>
      let err := UsageError "Trying to run auto-commit transaction while in explicit transaction" in
      logError err ;;;
      ret (Err err)
  | None =>
      match autocommitTx s with
      | Some tx => autocommitTransaction_done tx ctx
      | None => ret tt
      end ;;;
      match notificationFilterRawValuesOf drv (notificationFilters s) with
      | Err err => ret (Err err)
      | Ok sessionNotificationFilters =>
          let txConfig := applyConfigurers configurers defaultTransactionConfig in
          match validateTransactionConfig txConfig with
          | Some err => ret (Err err)
          | None =>
              rc <- getConnection ctx (defaultMode s) DefaultLivenessCheckThreshold ;;
              match rc with
              | Err err => ret (Err (wrapError drv err))
              | Ok conn =>
                  rb <- transactionBookmarks ctx ;;
                  match rb with
                  | Err err => poolReturn ctx conn ;;; ret (Err (wrapError drv err))
                  | Ok runBookmarks =>
                      let cmd := {| Cypher := cypher; Params := params;
                                    cmdFetchSize := fetchSize s |} in
                      let cfg := {| txMode := defaultMode s;
                                    txBookmarks := runBookmarks;
                                    txTimeout := Timeout txConfig;
                                    txMeta := Metadata txConfig;
                                    txImpersonatedUser := impersonatedUser s;
                                    txNotificationFilters := sessionNotificationFilters |} in
                      rr <- callEv (connRun bolt conn ctx cmd cfg) (EvRun conn cmd cfg) ;;
                      match rr with
                      | Err err => poolReturn ctx conn ;;; ret (Err (wrapError drv err))
                      | Ok stream =>
                          let res := {| res_conn := conn; res_stream := stream;
                                        res_cypher := cypher; res_params := params;
                                        res_ctx := ctx; res_runBookmarks := runBookmarks |} in
                          let tx := {| atx_conn := Some conn; atx_res := res |} in
                          setS (fun s => with_autocommitTx s (Some tx)) ;;;
                          ret (Ok res)
                      end
                  end
              end
          end
      end
  end.

(** [Close] starts the two cleanups in goroutines of their own and joins
    both.  The cleanups are calls into the collaborators, so the two ways
    the scheduler can order them are the two values of [poolFirst]. *)
Definition Close (poolFirst : bool) (ctx : Ctx) : M (option error) :=
  s <- getS ;;
  txErr <- match explicitTx s with
           | Some tx => explicitTransaction_Close tx ctx
           | None => ret None
           end ;;
  s1 <- getS ;;
  match autocommitTx s1 with
  | Some tx => autocommitTransaction_discard tx ctx
  | None => ret tt
  end ;;;
  s2 <- getS ;;
  errs <- (if poolFirst
           then
             poolErr <- callEv (poolCleanUp (pool s2) ctx) EvPoolCleanUp ;;
             routerErr <- callEv (routerCleanUp (router s2) ctx) EvRouterCleanUp ;;
             ret (poolErr, routerErr)
           else
             routerErr <- callEv (routerCleanUp (router s2) ctx) EvRouterCleanUp ;;
             poolErr <- callEv (poolCleanUp (pool s2) ctx) EvPoolCleanUp ;;
             ret (poolErr, routerErr)) ;;
  Debugf "Closed" [] ;;;
  ret (CombineAllErrors [txErr; fst errs; snd errs]).

Definition getServerInfo (ctx : Ctx) : M (result ServerInfo) :=
  r <- resolveHomeDatabase ctx ;;
  match r with
  | Some err => ret (Err (wrapError drv err))
  | None =>
      rs <- getServers ctx ReadMode ;;
      match rs with
      | Err err => ret (Err (wrapError drv err))
      | Ok servers =>
          s <- getS ;;
          let wait := negb (ConnectionAcquisitionTimeout (config s) =? 0) in
          rc <- callEv (Borrow (pool s) ctx servers wait 0) (EvBorrow servers wait 0) ;;
          match rc with
          | Err err => ret (Err (wrapError drv err))
          | Ok conn =>
              v <- call (fun e => (Version bolt conn e, e)) ;;
              poolReturn ctx conn ;;;
              ret (Ok {| address := ServerName conn; agent := ServerVersion conn;
                         protocolVersion := v |})
          end
      end
  end.

(** [newSessionWithContext]; [timeSleep] and [timeNow] are [time.Sleep] and
    [time.Now], and the throttle time is one second. *)
Definition newSessionWithContext (cfg : Config) (sessConfig : SessionConfig)
    (sessRouter : sessionRouter) (sessPool : sessionPool)
    (timeSleep : Z -> Env -> Env) (timeNow : Env -> Z) : sessionWithContext :=
  {| config := cfg;
     defaultMode := scAccessMode sessConfig;
     bookmarks := newSessionBookmarks (scBookmarkManager sessConfig) (scBookmarks sessConfig);
     databaseName := scDatabaseName sessConfig;
     impersonatedUser := scImpersonatedUser sessConfig;
     resolveHomeDb := String.eqb (scDatabaseName sessConfig) "";
     pool := sessPool;
     router := sessRouter;
     explicitTx := None;
     autocommitTx := None;
     sleep := timeSleep;
     now := timeNow;
     throttleTime := 1000000000;
     fetchSize := if negb (scFetchSize sessConfig =? FetchDefault)
                  then scFetchSize sessConfig else FetchSize cfg;
     notificationFilters := scNotificationFilters sessConfig |}.

(** The world right after the session is created: the constructor has
    written its debug line. *)
Definition newWorld (s : sessionWithContext) (e : Env) : World :=
  {| sess := s; env := e; trace := [EvLog LDebug (LogMsg "Created with context" [])] |}.

(** ** Sequences of operations *)

(** What a caller can do with a session and with the explicit transaction
    it got from it. *)
Inductive Op : Type :=
| OpLastBookmarks
| OpBeginTransaction (ctx : Ctx) (configurers : list (TransactionConfig -> TransactionConfig))
| OpExecuteRead (fuel : nat) (ctx : Ctx) (work : ManagedTransactionWork)
    (configurers : list (TransactionConfig -> TransactionConfig))
| OpExecuteWrite (fuel : nat) (ctx : Ctx) (work : ManagedTransactionWork)
    (configurers : list (TransactionConfig -> TransactionConfig))
| OpRun (ctx : Ctx) (cypher : string) (params : gmap string any)
    (configurers : list (TransactionConfig -> TransactionConfig))
| OpClose (poolFirst : bool) (ctx : Ctx)
| OpGetServerInfo (ctx : Ctx)
| OpTxCommit (ctx : Ctx)
| OpTxClose (ctx : Ctx).

Definition runOp (op : Op) : M unit :=
  match op with
  | OpLastBookmarks => LastBookmarks ;;; ret tt
  | OpBeginTransaction ctx cs => BeginTransaction ctx cs ;;; ret tt
  | OpExecuteRead fuel ctx work cs => ExecuteRead fuel ctx work cs ;;; ret tt
  | OpExecuteWrite fuel ctx work cs => ExecuteWrite fuel ctx work cs ;;; ret tt
  | OpRun ctx cypher params cs => Run ctx cypher params cs ;;; ret tt
  | OpClose poolFirst ctx => Close poolFirst ctx ;;; ret tt
  | OpGetServerInfo ctx => getServerInfo ctx ;;; ret tt
  | OpTxCommit ctx =>
      s <- getS ;;
      match explicitTx s with
      | Some tx => explicitTransaction_Commit tx ctx ;;; ret tt
      | None => ret tt
      end
  | OpTxClose ctx =>
      s <- getS ;;
      match explicitTx s with
      | Some tx => explicitTransaction_Close tx ctx ;;; ret tt
      | None => ret tt
      end
  end.

Fixpoint runOps (ops : list Op) (w : World) : World :=
  match ops with
  | [] => w
  | op :: ops' => runOps ops' (snd (runOp op w))
  end.

(** ** Assertions about runs *)

(** [hoare P m Q]: from a world where [P] holds, [m] returns a value and
    leaves a world related by [Q].  [inv P m]: [m] preserves [P]. *)
Definition hoare {A} (P : World -> Prop) (m : M A) (Q : A -> World -> Prop) : Prop :=
  forall w, P w -> Q (fst (m w)) (snd (m w)).

Definition inv {A} (P : World -> Prop) (m : M A) : Prop :=
  forall w, P w -> P (snd (m w)).

(** [returns Q m]: whatever the world, the value [m] returns satisfies [Q]. *)
Definition returns {A} (Q : A -> Prop) (m : M A) : Prop :=
  forall w, Q (fst (m w)).

(** The events every helper of the session may produce.  The others are
    each produced at one place and are accounted for there. *)
Definition isBasic (ev : Event) : bool :=
  match ev with
  | EvBorrow _ _ _ _ => false
  | EvGetNameOfDefaultDatabase _ _ _ => false
  | EvOnFailure _ _ _ => false
  | EvTxRollback _ _ _ => false
  | EvLog LError _ => false
  | _ => true
  end.

Definition isBorrow (ev : Event) : bool :=
  match ev with EvBorrow _ _ _ _ => true | _ => false end.

Definition isLookup (ev : Event) : bool :=
  match ev with EvGetNameOfDefaultDatabase _ _ _ => true | _ => false end.

Definition isLookupOk (ev : Event) : bool :=
  match ev with EvGetNameOfDefaultDatabase _ _ (Ok _) => true | _ => false end.

Definition isOnFailure (ev : Event) : bool :=
  match ev with EvOnFailure _ _ _ => true | _ => false end.

Definition isRollback (ev : Event) : bool :=
  match ev with EvTxRollback _ _ _ => true | _ => false end.

Definition isLogError (ev : Event) : bool :=
  match ev with EvLog LError _ => true | _ => false end.

(** The failures recorded in a trace, in order. *)
Definition failuresOf (t : list Event) : list error :=
  omap (fun ev => match ev with EvOnFailure _ err _ => Some err | _ => None end) t.

(** The errors logged at session level in a trace, in order. *)
Definition loggedErrors (t : list Event) : list error :=
  omap (fun ev => match ev with EvLog LError (LogErr err) => Some err | _ => None end) t.

Definition mkWorld (s : sessionWithContext) (e : Env) (t : list Event) : World :=
  {| sess := s; env := e; trace := t |}.

(** A property of the world that no helper of the session can break:
    it does not depend on the environment nor on the tracker's bookmarks, it
    survives the clearing of a transaction field and the basic events. *)
Record Tolerant (P : World -> Prop) : Prop := {
  tol_env : forall s e e' t, P (mkWorld s e t) -> P (mkWorld s e' t);
  tol_basic : forall s e t ev, isBasic ev = true ->
      P (mkWorld s e t) -> P (mkWorld s e (t ++ [ev]));
  tol_bookmarks : forall s e t b, P (mkWorld s e t) -> P (mkWorld (with_bookmarks s b) e t);
  tol_clearExplicit : forall s e t, P (mkWorld s e t) -> P (mkWorld (with_explicitTx s None) e t);
  tol_clearAutocommit : forall s e t, P (mkWorld s e t) -> P (mkWorld (with_autocommitTx s None) e t)
}.

Definition EventOK (sel : Event -> bool) (P : World -> Prop) : Prop :=
  forall s e t ev, sel ev = true -> P (mkWorld s e t) -> P (mkWorld s e (t ++ [ev])).

Definition ResolveOK (P : World -> Prop) : Prop :=
  forall ctx, inv P (resolveHomeDatabase ctx).

(** Properties that survive the installation of a transaction wrapper, and
    the pinning of the home database. *)
Definition SetExplicitOK (P : World -> Prop) : Prop :=
  forall s e t tx, P (mkWorld s e t) -> P (mkWorld (with_explicitTx s (Some tx)) e t).

Definition SetAutocommitOK (P : World -> Prop) : Prop :=
  forall s e t tx, P (mkWorld s e t) -> P (mkWorld (with_autocommitTx s (Some tx)) e t).

Definition DbOK (P : World -> Prop) : Prop :=
  forall s e t, P (mkWorld s e t) ->
    (forall db, P (mkWorld (with_databaseName s db) e t)) /\
    (forall b, P (mkWorld (with_resolveHomeDb s b) e t)).

(** ** The properties of the session the claims are about *)

(** The invariant: never an explicit and an autocommit transaction at the
    same time. *)
Definition atMostOneTx (w : World) : Prop :=
  explicitTx (sess w) = None \/ autocommitTx (sess w) = None.

Definition noTx (w : World) : Prop :=
  explicitTx (sess w) = None /\ autocommitTx (sess w) = None.

(** The home database is resolved and is [db], and the lookups of the
    default database name made so far are [l]. *)
Definition pinned (db : string) (l : list Event) (w : World) : Prop :=
  resolveHomeDb (sess w) = false /\ databaseName (sess w) = db /\
  List.filter isLookup (trace w) = l.

(** At most one lookup of the default database name has succeeded, and
    none while the session still has to resolve its home database. *)
Definition resolvedOnce (w : World) : Prop :=
  (length (List.filter isLookupOk (trace w)) <= 1)%nat /\
  (resolveHomeDb (sess w) = true -> List.filter isLookupOk (trace w) = []).

(** The events of the trace selected by [sel] are [l]. *)
Definition selected (sel : Event -> bool) (l : list Event) (w : World) : Prop :=
  List.filter sel (trace w) = l.

(** The failures recorded in the trace are [l]. *)
Definition recorded (l : list error) (w : World) : Prop :=
  failuresOf (trace w) = l.

(** What the retry loop maintains about its state: the history of the
    state continues the failures [X] recorded before the loop, and the last
    error is the last of the history. *)
Definition history (X : list error) (st : State) (w : World) : Prop :=
  failuresOf (trace w) = X ++ Errs st /\ LastErr st = last (Errs st).

(** The trace extends [t0]. *)
Definition extends (t0 : list Event) (w : World) : Prop :=
  exists d, trace w = t0 ++ d.

(** The retry states [runRetriable] builds and the loop maintains. *)
Definition sessionState (ctx : Ctx) (mode : AccessMode) (st : State) : Prop :=
  OnDeadConnection st = onDeadConnection ctx mode.

(** The kinds of error [runRetriable] logs at session level. *)
Definition sessionLogged (e : error) : bool :=
  match e with
  | UsageError _ | ConnectivityError _ | TransactionExecutionLimit _ _ => true
  | _ => false
  end.

(** The errors of the driver's own that [runRetriable] logs when the last
    failure was not retryable. *)
Definition driverError (e : error) : bool :=
  match e with
  | UsageError _ | ConnectivityError _ => true
  | _ => false
  end.

Definition addEvent (w : World) (ev : Event) : World :=
  mkWorld (sess w) (env w) (trace w ++ [ev]).

End Model.

(** * A concrete environment to run the model on *)

Module Toy.

(** The environment: a clock and the answers the collaborators will give. *)
Record ToyEnv : Type := {
  clock : Z;
  lookupFailures : nat;
  borrowError : option error;
  beginError : option error;
  workError : option error;
  commitError : option error;
  rollbackError : option error;
  poolCleanUpError : option error;
  routerCleanUpError : option error;
  updateError : option error;
  connBookmark : string;
  selector : bool
}.

Definition with_clock (e : ToyEnv) (t : Z) : ToyEnv :=
  {| clock := t; lookupFailures := lookupFailures e; borrowError := borrowError e;
     beginError := beginError e; workError := workError e; commitError := commitError e;
     rollbackError := rollbackError e; poolCleanUpError := poolCleanUpError e;
     routerCleanUpError := routerCleanUpError e; updateError := updateError e;
     connBookmark := connBookmark e; selector := selector e |}.

Definition with_lookupFailures (e : ToyEnv) (n : nat) : ToyEnv :=
  {| clock := clock e; lookupFailures := n; borrowError := borrowError e;
     beginError := beginError e; workError := workError e; commitError := commitError e;
     rollbackError := rollbackError e; poolCleanUpError := poolCleanUpError e;
     routerCleanUpError := routerCleanUpError e; updateError := updateError e;
     connBookmark := connBookmark e; selector := selector e |}.

Definition Ctx : Type := unit.
Definition Value : Type := Z.

Definition conn (sel : bool) : Connection :=
  {| connId := 1; ServerName := "server1:7687"; ServerVersion := "Neo4j/5.7.0";
     isDatabaseSelector := sel |}.

Definition answer {A} (err : option error) (a : A) : result A :=
  match err with
  | Some e => Err e
  | None => Ok a
  end.

Definition pool : @sessionPool ToyEnv Ctx := {|
  Borrow := fun _ _ _ _ e => (answer (borrowError e) (conn (selector e)), e);
  Return := fun _ _ e => (None, e);
  poolCleanUp := fun _ e => (poolCleanUpError e, e)
|}.

Definition router : @sessionRouter ToyEnv Ctx := {|
  Readers := fun _ _ _ e => (Ok ["server1:7687"], e);
  Writers := fun _ _ _ e => (Ok ["server1:7687"], e);
  GetNameOfDefaultDatabase := fun _ _ _ e =>
    match lookupFailures e with
    | S n => (Err (ForeignError "routing table unavailable"), with_lookupFailures e n)
    | O => (Ok "neo4j", e)
    end;
  InvalidateReader := fun _ _ _ e => (None, e);
  InvalidateWriter := fun _ _ _ e => (None, e);
  routerCleanUp := fun _ e => (routerCleanUpError e, e)
|}.

Definition manager : @BookmarkManager ToyEnv Ctx := {|
  GetBookmarks := fun _ _ e => (Ok [], e);
  GetAllBookmarks := fun _ e => (Ok [], e);
  UpdateBookmarks := fun _ _ _ _ e => (updateError e, e)
|}.

Definition bolt : @Bolt ToyEnv Ctx Value := {|
  TxBegin := fun _ _ _ e => (answer (beginError e) 7%nat, e);
  TxCommit := fun _ _ _ e => (commitError e, e);
  TxRollback := fun _ _ _ e => (rollbackError e, e);
  connRun := fun _ _ _ _ e => (Ok 3%nat, e);
  Bookmark := fun _ e => (connBookmark e, "");
  SelectDatabase := fun _ _ e => e;
  Version := fun _ _ => (5%nat, 2%nat);
  streamBuffer := fun _ _ _ e => e;
  streamConsume := fun _ _ _ e => e
|}.

Definition drv : @Driver Ctx Value := {|
  wrapError := fun e => e;
  notificationFilterRawValuesOf := fun _ => Ok [];
  DefaultDatabase := "";
  WithTimeout := fun c _ => c;
  IsRetriableCode := fun _ => false;
  errorString := fun _ => "error";
  durationString := pretty;
  deadlineString := fun _ => "deadline"
|}.

Definition work : @ManagedTransactionWork ToyEnv Value :=
  fun _ e => (answer (workError e) (Some 42), e).

Definition cfg : Config := {|
  MaxTransactionRetryTime := 2500000000;
  ConnectionAcquisitionTimeout := 0;
  MaxConnectionPoolSize := 100;
  FetchSize := 1000
|}.

Definition sessConfig (db : string) (bm : option (@BookmarkManager ToyEnv Ctx))
    : @SessionConfig ToyEnv Ctx Value := {|
  scAccessMode := WriteMode;
  scBookmarks := ["b0"];
  scDatabaseName := db;
  scFetchSize := FetchDefault;
  scImpersonatedUser := "";
  scBookmarkManager := bm;
  scNotificationFilters := None
|}.

Definition session (db : string) (bm : option (@BookmarkManager ToyEnv Ctx))
    : @sessionWithContext ToyEnv Ctx Value :=
  newSessionWithContext cfg (sessConfig db bm) router pool
    (fun d e => with_clock e (clock e + d)) clock.

(** An environment in which every collaborator succeeds. *)
Definition calm : ToyEnv := {|
  clock := 0; lookupFailures := 0; borrowError := None; beginError := None;
  workError := None; commitError := None; rollbackError := None;
  poolCleanUpError := None; routerCleanUpError := None; updateError := None;
  connBookmark := "b1"; selector := true
|}.

Definition world (db : string) (bm : option (@BookmarkManager ToyEnv Ctx)) (e : ToyEnv)
    : @World ToyEnv Ctx Value :=
  newWorld (session db bm) e.

Definition setTimeout (t : Z) : @TransactionConfig Value -> @TransactionConfig Value :=
  fun c => {| Timeout := t; Metadata := Metadata c |}.

(** The first lookup of the default database name fails. *)
Definition flaky : ToyEnv := with_lookupFailures calm 1.

(** The connections do not expose the database selection capability. *)
Definition plain : ToyEnv := {|
  clock := 0; lookupFailures := 0; borrowError := None; beginError := None;
  workError := None; commitError := None; rollbackError := None;
  poolCleanUpError := None; routerCleanUpError := None; updateError := None;
  connBookmark := "b1"; selector := false
|}.

(** Every commit fails. *)
Definition stuck : ToyEnv := {|
  clock := 0; lookupFailures := 0; borrowError := None; beginError := None;
  workError := None; commitError := Some (ForeignError "commit failed");
  rollbackError := None;
  poolCleanUpError := None; routerCleanUpError := None; updateError := None;
  connBookmark := "b1"; selector := true
|}.

(** The bookmark authority refuses the updates. *)
Definition deaf : ToyEnv := {|
  clock := 0; lookupFailures := 0; borrowError := None; beginError := None;
  workError := None; commitError := None; rollbackError := None;
  poolCleanUpError := None; routerCleanUpError := None;
  updateError := Some (ForeignError "bookmark manager unavailable");
  connBookmark := "b1"; selector := true
|}.

(** The rollback and the pool cleanup fail. *)
Definition failing : ToyEnv := {|
  clock := 0; lookupFailures := 0; borrowError := None; beginError := None;
  workError := None; commitError := None;
  rollbackError := Some (ForeignError "rollback failed");
  poolCleanUpError := Some (ForeignError "pool cleanup failed");
  routerCleanUpError := None; updateError := None;
  connBookmark := "b1"; selector := true
|}.

(** A session with an explicit transaction open, and one with an autocommit
    transaction pending. *)
Definition explicitWorld (e : ToyEnv) : @World ToyEnv Ctx Value :=
  snd (BeginTransaction bolt drv tt [] (world "neo4j" None e)).

Definition autocommitWorld (e : ToyEnv) : @World ToyEnv Ctx Value :=
  snd (Run bolt drv tt "RETURN 1" ∅ [] (world "neo4j" None e)).

(** A unit of work that loses its connection the first time it runs and is
    refused as a misuse afterwards, a long time later. *)
Definition fickleWork : @ManagedTransactionWork ToyEnv Value :=
  fun _ e =>
    if clock e =? 0
    then (Err (ConnectivityError (ForeignError "connection reset")), e)
    else (Err (UsageError "bad query"), with_clock e (clock e + 10000000000)).

End Toy.


(** * What the operations call, and the connections they hold *)

(** The kinds of calls the session makes to its collaborators. *)
Inductive Kind : Type :=
| KLogError | KLogWarn | KLogDebug
| KBorrow | KReturn | KPoolCleanUp | KRouterCleanUp
| KReaders | KWriters | KLookup | KInvalidateReader | KInvalidateWriter
| KSelectDatabase | KTxBegin | KTxCommit | KTxRollback | KRun | KWork
| KOnFailure | KUpdateBookmarks | KBuffer | KConsume | KSleep.

Definition Kind_eqb (a b : Kind) : bool :=
  match a, b with
  | KLogError, KLogError | KLogWarn, KLogWarn | KLogDebug, KLogDebug
  | KBorrow, KBorrow | KReturn, KReturn | KPoolCleanUp, KPoolCleanUp
  | KRouterCleanUp, KRouterCleanUp | KReaders, KReaders | KWriters, KWriters
  | KLookup, KLookup | KInvalidateReader, KInvalidateReader
  | KInvalidateWriter, KInvalidateWriter | KSelectDatabase, KSelectDatabase
  | KTxBegin, KTxBegin | KTxCommit, KTxCommit | KTxRollback, KTxRollback
  | KRun, KRun | KWork, KWork | KOnFailure, KOnFailure
  | KUpdateBookmarks, KUpdateBookmarks | KBuffer, KBuffer | KConsume, KConsume
  | KSleep, KSleep => true
  | _, _ => false
  end.

Definition oneOf (l : list Kind) (k : Kind) : bool := existsb (Kind_eqb k) l.

(** [router.Readers] when the mode is [ReadMode], [router.Writers]
    otherwise ([getServers]); [InvalidateWriter] when the mode is
    [WriteMode], [InvalidateReader] otherwise (the [OnDeadConnection]
    closure of [runRetriable]). *)
Definition routeKind (mode : AccessMode) : Kind :=
  if AccessMode_eqb mode ReadMode then KReaders else KWriters.

Definition invalidateKind (mode : AccessMode) : Kind :=
  if AccessMode_eqb mode WriteMode then KInvalidateWriter else KInvalidateReader.

(** The calls a managed transaction in [mode] may make: the router is asked
    for the servers of that mode only, and only a server of that mode is
    invalidated; there is no rollback, no autocommit run, no consumption of a
    cursor and no cleanup. *)
Definition retriableKinds (mode : AccessMode) (k : Kind) : bool :=
  match k with
  | KLogError | KLogWarn | KLogDebug | KBorrow | KReturn | KLookup
  | KSelectDatabase | KTxBegin | KTxCommit | KWork | KOnFailure
  | KUpdateBookmarks | KBuffer | KSleep => true
  | KReaders | KWriters => Kind_eqb k (routeKind mode)
  | KInvalidateReader | KInvalidateWriter => Kind_eqb k (invalidateKind mode)
  | KPoolCleanUp | KRouterCleanUp | KTxRollback | KRun | KConsume => false
  end.

(** The calls of an explicit ([op] is [KTxBegin]) or autocommit ([op] is
    [KRun]) transaction started in [mode]: those of the finalization of a
    pending autocommit transaction, those of the acquisition of a connection
    to a server of that mode, and the begin or the run itself. *)
Definition sessionTxKinds (op : Kind) (mode : AccessMode) (k : Kind) : bool :=
  match k with
  | KLogError | KLogWarn | KLogDebug | KBorrow | KReturn | KLookup
  | KSelectDatabase | KUpdateBookmarks | KBuffer => true
  | KTxBegin | KRun => Kind_eqb k op
  | KReaders | KWriters => Kind_eqb k (routeKind mode)
  | _ => false
  end.

(** The calls [getServerInfo] may make. *)
Definition serverInfoKinds : Kind -> bool :=
  oneOf [KLogDebug; KLookup; KReaders; KBorrow; KReturn].

(** The calls that neither borrow nor return a connection. *)
Definition notPool (k : Kind) : bool :=
  match k with
  | KBorrow | KReturn => false
  | _ => true
  end.

Section Accounting.

Context {Env Ctx Value : Type}.

Definition kindOf (ev : @Event Value) : Kind :=
  match ev with
  | EvLog LError _ => KLogError
  | EvLog LWarn _ => KLogWarn
  | EvLog LDebug _ => KLogDebug
  | EvBorrow _ _ _ _ => KBorrow
  | EvReturn _ _ => KReturn
  | EvPoolCleanUp _ => KPoolCleanUp
  | EvRouterCleanUp _ => KRouterCleanUp
  | EvReaders _ _ => KReaders
  | EvWriters _ _ => KWriters
  | EvGetNameOfDefaultDatabase _ _ _ => KLookup
  | EvInvalidateReader _ _ _ => KInvalidateReader
  | EvInvalidateWriter _ _ _ => KInvalidateWriter
  | EvSelectDatabase _ _ => KSelectDatabase
  | EvTxBegin _ _ _ => KTxBegin
  | EvTxCommit _ _ _ => KTxCommit
  | EvTxRollback _ _ _ => KTxRollback
  | EvRun _ _ _ _ => KRun
  | EvWork _ _ _ => KWork
  | EvOnFailure _ _ _ => KOnFailure
  | EvUpdateBookmarks _ _ _ _ => KUpdateBookmarks
  | EvBuffer _ _ => KBuffer
  | EvConsume _ _ => KConsume
  | EvSleep _ => KSleep
  end.

(** All the events of [d] are of the kinds [ok] accepts. *)
Definition allOf (ok : Kind -> bool) (d : list (@Event Value)) : Prop :=
  Forall (fun ev => ok (kindOf ev) = true) d.

(** [effect R ok m]: whatever the world, [m] only appends to the trace, the
    calls it records are of the kinds [ok] accepts, and the session it
    leaves is related by [R] to the one it found. *)
Definition effect {A} (R : relation (@sessionWithContext Env Ctx Value))
    (ok : Kind -> bool) (m : @M Env Ctx Value A) : Prop :=
  forall w,
    R (sess w) (sess (snd (m w))) /\
    exists d, trace (snd (m w)) = trace w ++ d /\ allOf ok d.

(** What follows the commit in a successful attempt: the merge of the
    returned bookmark (which may notify the bookmark manager and, when it
    fails, is logged as a warning) and the return of the connection. *)
Definition afterCommitKinds : Kind -> bool := oneOf [KUpdateBookmarks; KLogWarn; KReturn].

(** The trace records that the work returned [x] and that the commit which
    followed on the same transaction succeeded, with nothing after it but
    what follows a commit. *)
Definition committed (x : @any Value) (w : @World Env Ctx Value) : Prop :=
  exists t c h d,
    trace w = t ++ [EvWork c h (Ok x); EvTxCommit c h None] ++ d /\
    allOf afterCommitKinds d.

(** The fields of the session that no operation assigns. *)
Definition configuration (s : @sessionWithContext Env Ctx Value) :=
  (config s, defaultMode s, impersonatedUser s, pool s, router s,
   sleep s, now s, throttleTime s, fetchSize s, notificationFilters s).

(** The two transaction fields are left as they were. *)
Definition keepsTx (s s' : @sessionWithContext Env Ctx Value) : Prop :=
  explicitTx s' = explicitTx s /\ autocommitTx s' = autocommitTx s.

Definition anySession (s s' : @sessionWithContext Env Ctx Value) : Prop := True.

(** Nothing but the home database (its name and the flag that it is still
    to be resolved) has changed. *)
Definition onlyResolves (s s' : @sessionWithContext Env Ctx Value) : Prop :=
  explicitTx s' = explicitTx s /\ autocommitTx s' = autocommitTx s /\
  bookmarks s' = bookmarks s /\ configuration s' = configuration s.

(** The connections the pool handed out, and those it got back. *)
Definition isBorrowOk (ev : @Event Value) : bool :=
  match ev with EvBorrow _ _ _ (Ok _) => true | _ => false end.

Definition isReturn (ev : @Event Value) : bool :=
  match ev with EvReturn _ _ => true | _ => false end.

Definition borrowed (t : list (@Event Value)) : Z :=
  Z.of_nat (length (List.filter isBorrowOk t)).

Definition returned (t : list (@Event Value)) : Z :=
  Z.of_nat (length (List.filter isReturn t)).

(** The connections the session's open transactions hold: one each. *)
Definition holds {A} (o : option A) : Z :=
  match o with Some _ => 1 | None => 0 end.

Definition held (s : @sessionWithContext Env Ctx Value) : Z :=
  holds (explicitTx s) + holds (autocommitTx s).

(** What a call that may hand out a connection adds to them. *)
Definition got {A} (r : result A) : Z :=
  match r with Ok _ => 1 | Err _ => 0 end.

(** Every connection borrowed and not returned is held by an open
    transaction of the session, but for [k] of them that the running
    operation holds. *)
Definition balanced (k : Z) (w : @World Env Ctx Value) : Prop :=
  borrowed (trace w) = returned (trace w) + held (sess w) + k.

(** [balanced k] with the transaction fields known. *)
Definition balancedAt (k : Z) (x : option (@explicitTransaction Ctx))
    (y : option (@autocommitTransaction Ctx Value)) (w : @World Env Ctx Value) : Prop :=
  balanced k w /\ explicitTx (sess w) = x /\ autocommitTx (sess w) = y.

End Accounting.


(** * The testkit backend: [testkit-backend/backend.go]

    The backend reads requests from a socket, one frame at a time, and
    drives the sessions with them. *)

Module Backend.

(** ['\n'] *)
Definition newline : string := String (Ascii.ascii_of_nat 10) EmptyString.

Definition requestBegin : string := "#request begin" +:+ newline.
Definition requestEnd : string := "#request end" +:+ newline.

(** [b.rd], the [bufio.Reader] on the socket, as the lines still to be read:
    [ReadString('\n')] returns the next line with its delimiter, and an error
    when the input ends before a delimiter, in which case [process] gives
    up whatever was read. *)
Definition Reader : Type := list string.

(** How [process] ends: with a read error (it returns [false]); with the
    call [b.handleRequest(b.toRequest(request))], the reader being then at
    [rd] (it returns [true] after it); or with a panic. *)
Inductive Outcome : Type :=
| ReadError
| Request (request : string) (rd : Reader)
| Panic (msg : string).

(** The loop of [process], with its two local variables. *)
Fixpoint processLoop (rd : Reader) (request : string) (inRequest : bool) : Outcome :=
  match rd with
  | [] => ReadError
  | line :: rd' =>
      if String.eqb line requestBegin then
        if inRequest then Panic "Already in request"
        else processLoop rd' request true
      else if String.eqb line requestEnd then
        if negb inRequest then Panic "End while not in request"
        else Request request rd'
      else
        if negb inRequest then Panic "Line while not in request"
        else processLoop rd' (request +:+ line) inRequest
  end.

Definition process (rd : Reader) : Outcome := processLoop rd "" false.

(** A line of the body of a request: any line but the two markers. *)
Definition isBodyLine (line : string) : bool :=
  negb (String.eqb line requestBegin) && negb (String.eqb line requestEnd).

(** The lines of a body put together. *)
Definition joined (body : list string) : string := foldr String.append "" body.

(** Go's [int] and [int64] on the 64-bit platforms: the arithmetic wraps
    around. *)
Definition wrap64 (z : Z) : Z := (z + 2 ^ 63) mod 2 ^ 64 - 2 ^ 63.

(** The part of the backend's state that [nextId] and [setError] use. *)
Record backend : Type := {
  id : Z;
  recordedErrors : gmap string error
}.

(** [b.id++; return fmt.Sprintf("%d", b.id)] *)
Definition nextId (b : backend) : string * backend :=
  let b' := {| id := wrap64 (id b + 1); recordedErrors := recordedErrors b |} in
  (pretty (id b'), b').

Definition setError (err : error) (b : backend) : string * backend :=
  let '(i, b') := nextId b in
  (i, {| id := id b'; recordedErrors := <[i := err]> (recordedErrors b') |}).

(** The calls that hand out ids, and a sequence of them: what each call
    returned (with the error it recorded, if it did) and the backend after
    the last. *)
Inductive IdCall : Type :=
| CallNextId
| CallSetError (err : error).

Fixpoint runIdCalls (calls : list IdCall) (b : backend)
    : list (string * option error) * backend :=
  match calls with
  | [] => ([], b)
  | CallNextId :: calls' =>
      let '(i, b') := nextId b in
      let '(out, b'') := runIdCalls calls' b' in
      ((i, None) :: out, b'')
  | CallSetError err :: calls' =>
      let '(i, b') := setError err b in
      let '(out, b'') := runIdCalls calls' b' in
      ((i, Some err) :: out, b'')
  end.

(** [strings.Contains(s, substr)] *)
Definition Contains (s substr : string) : bool :=
  match String.index 0 substr s with
  | Some _ => true
  | None => false
  end.

Section Skips.

(** [asRegex(pattern).MatchString(testName)], of the [regexp] package. *)
Variable regexMatch : string -> string -> bool.

Definition matches (pattern testName : string) : bool :=
  if String.eqb pattern testName then true
  else if negb (Contains pattern "*") then false
  else regexMatch pattern testName.

(** [mustSkip], on the entries of [testSkips()] in the order the iteration
    over the map visits them, an order that Go leaves unspecified. *)
Fixpoint mustSkip (skippedTests : list (string * string)) (testName : string)
    : string * bool :=
  match skippedTests with
  | [] => ("", false)
  | (testPattern, exclusionReason) :: rest =>
      if matches testPattern testName then (exclusionReason, true)
      else mustSkip rest testName
  end.

End Skips.

Section TransactionConfigApply.

Context {Value : Type}.

(** The values of a decoded request, and the two conversions the backend
    applies to them and does not define here: [asInt64] of a [json.Number]
    and [toParams] of a map, [None] standing for their panic (the type
    assertion on the value included). *)
Variable Json : Type.
Variable asInt64 : Json -> option Z.
Variable toParams : Json -> option (gmap string (@any Value)).

(** [time.Millisecond], in nanoseconds. *)
Definition Millisecond : Z := 1000000.

(** [toTransactionConfigApply]; [data !! key] is [None] when [data[key]] is
    nil.  The result is [None] when the function panics. *)
Definition toTransactionConfigApply (data : gmap string Json)
    : option (@TransactionConfig Value -> @TransactionConfig Value) :=
  (* Optional transaction meta data *)
  match (match data !! "txMeta" with
         | Some j => match toParams j with
                     | Some m => Some (Some m)
                     | None => None
                     end
         | None => Some None
         end) with
  | None => None
  | Some txMetadata =>
      (* Optional timeout in milliseconds *)
      match (match data !! "timeout" with
             | Some j => match asInt64 j with
                         | Some n => Some (wrap64 (Millisecond * n))
                         | None => None
                         end
             | None => Some MinInt
             end) with
      | None => None
      | Some txTimeout =>
          Some (fun conf =>
                  {| Timeout := if negb (txTimeout =? MinInt) then txTimeout
                                else Timeout conf;
                     Metadata := match txMetadata with
                                 | Some m => m
                                 | None => Metadata conf
                                 end |})
      end
  end.

End TransactionConfigApply.

End Backend.

(** * Properties *)

Section Properties.

Context {Env Ctx Value : Type}.
Variable bolt : @Bolt Env Ctx Value.
Variable drv : @Driver Ctx Value.

Local Abbreviation World := (@World Env Ctx Value).
Local Abbreviation M := (@M Env Ctx Value).
Local Abbreviation State := (@State Env Ctx Value).
Local Abbreviation Event := (@Event Value).
Local Abbreviation explicitTransaction := (@explicitTransaction Ctx).
Local Abbreviation autocommitTransaction := (@autocommitTransaction Ctx Value).
Local Abbreviation selected := (@selected Env Ctx Value).
Local Abbreviation pinned := (@pinned Env Ctx Value).
Local Abbreviation resolvedOnce := (@resolvedOnce Env Ctx Value).
Local Abbreviation atMostOneTx := (@atMostOneTx Env Ctx Value).
Local Abbreviation extends := (@extends Env Ctx Value).
Local Abbreviation recorded := (@recorded Env Ctx Value).
Local Abbreviation history := (@history Env Ctx Value).
Local Abbreviation noTx := (@noTx Env Ctx Value).

(** ** Rules of the run assertions *)

Lemma run_bind {A B} (m : M A) (k : A -> M B) (w : World) :
  bind m k w = k (fst (m w)) (snd (m w)).
Proof. unfold bind. destruct (m w); reflexivity. Qed.

Lemma bind_eq {A B} (m : M A) (k : A -> M B) (w w' : World) (a : A) :
  m w = (a, w') -> bind m k w = k a w'.
Proof. intros H. rewrite run_bind, H. reflexivity. Qed.

Lemma bind_assoc {A B C} (m : M A) (k1 : A -> M B) (k2 : B -> M C) (w : World) :
  bind (bind m k1) k2 w = bind m (fun a => bind (k1 a) k2) w.
Proof. rewrite !run_bind. reflexivity. Qed.

Lemma bind_ret_l {A B} (a : A) (k : A -> M B) (w : World) : bind (ret a) k w = k a w.
Proof. reflexivity. Qed.

Lemma bind_getS {B} (k : sessionWithContext -> M B) (w : World) :
  bind getS k w = k (sess w) w.
Proof. reflexivity. Qed.

Lemma run_call {A} (f : Ext A) (w : World) :
  call f w = (fst (f (env w)), mkWorld (sess w) (snd (f (env w))) (trace w)).
Proof. unfold call. destruct (f (env w)); reflexivity. Qed.

Lemma run_callEv {A} (f : Ext A) (ev : A -> Event) (w : World) :
  callEv f ev w =
  (fst (f (env w)),
   mkWorld (sess w) (snd (f (env w))) (trace w ++ [ev (fst (f (env w)))])).
Proof.
  unfold callEv. rewrite !run_bind, run_call. reflexivity.
Qed.

Lemma inv_ret {A} (P : World -> Prop) (a : A) : inv P (ret a).
Proof. intros w HP; exact HP. Qed.

Lemma inv_bind {A B} (P : World -> Prop) (m : M A) (k : A -> M B) :
  inv P m -> (forall a, inv P (k a)) -> inv P (bind m k).
Proof.
  intros Hm Hk w HP. rewrite run_bind. apply Hk, Hm, HP.
Qed.

Lemma inv_getS (P : World -> Prop) : inv P getS.
Proof. intros w HP; exact HP. Qed.

Lemma inv_call {A} (P : World -> Prop) (f : Ext A) :
  Tolerant P -> inv P (call f).
Proof.
  intros HT [s e t] HP. unfold call; simpl.
  destruct (f e) as [a e']; simpl. exact (tol_env P HT s e e' t HP).
Qed.

Lemma inv_emit_basic (P : World -> Prop) (ev : Event) :
  Tolerant P -> isBasic ev = true -> inv P (emit ev).
Proof.
  intros HT Hev [s e t] HP. exact (tol_basic P HT s e t ev Hev HP).
Qed.

Lemma inv_emit_sel (sel : Event -> bool) (P : World -> Prop) (ev : Event) :
  EventOK sel P -> sel ev = true -> inv P (emit ev).
Proof.
  intros HT Hev [s e t] HP. exact (HT s e t ev Hev HP).
Qed.

Lemma inv_callEv_basic {A} (P : World -> Prop) (f : Ext A) (ev : A -> Event) :
  Tolerant P -> (forall a, isBasic (ev a) = true) -> inv P (callEv f ev).
Proof.
  intros HT Hev. unfold callEv.
  apply inv_bind; [ apply inv_call, HT | intros a ].
  apply inv_bind; [ apply inv_emit_basic; auto | intros _; apply inv_ret ].
Qed.

Lemma inv_callEv_sel {A} (sel : Event -> bool) (P : World -> Prop) (f : Ext A)
    (ev : A -> Event) :
  Tolerant P -> EventOK sel P -> (forall a, sel (ev a) = true) -> inv P (callEv f ev).
Proof.
  intros HT HS Hev. unfold callEv.
  apply inv_bind; [ apply inv_call, HT | intros a ].
  apply inv_bind; [ apply (inv_emit_sel sel); auto | intros _; apply inv_ret ].
Qed.

Lemma inv_setS_bookmarks (P : World -> Prop) (g : sessionBookmarks -> sessionBookmarks) :
  Tolerant P -> inv P (setS (fun s => with_bookmarks s (g (bookmarks s)))).
Proof.
  intros HT [s e t] HP. exact (tol_bookmarks P HT s e t _ HP).
Qed.

Lemma inv_clearExplicit (P : World -> Prop) :
  Tolerant P -> inv P (setS (fun s => with_explicitTx s None)).
Proof.
  intros HT [s e t] HP. exact (tol_clearExplicit P HT s e t HP).
Qed.

Lemma inv_clearAutocommit (P : World -> Prop) :
  Tolerant P -> inv P (setS (fun s => with_autocommitTx s None)).
Proof.
  intros HT [s e t] HP. exact (tol_clearAutocommit P HT s e t HP).
Qed.

Lemma inv_iff {A} (P Q : World -> Prop) (m : M A) :
  (forall w, P w <-> Q w) -> inv P m -> inv Q m.
Proof. intros H Hm w HQ. apply H, Hm, H, HQ. Qed.

Create HintDb inv discriminated.

#[local] Hint Resolve inv_ret inv_getS inv_call inv_emit_basic inv_callEv_basic
  inv_setS_bookmarks inv_clearExplicit inv_clearAutocommit : inv.
#[local] Hint Extern 1 (isBasic _ = true) => reflexivity : inv.
#[local] Hint Extern 1 (forall _, isBasic _ = true) => intros; reflexivity : inv.

Ltac inv_step :=
  lazymatch goal with
  | |- inv _ (bind _ _) => apply inv_bind; [ | intros ? ]
  | |- inv _ (match ?x with _ => _ end) => destruct x
  | |- inv _ _ => solve [ eauto with inv ]
  end.

Ltac inv_auto := repeat inv_step.

(** ** What the helpers preserve *)

Section Helpers.

Variable P : World -> Prop.
Hypothesis HT : Tolerant P.

Lemma inv_Debugf format args : inv P (Debugf format args).
Proof. unfold Debugf. inv_auto. Qed.

Lemma inv_Warnf format args : inv P (Warnf format args).
Proof. unfold Warnf. inv_auto. Qed.

Lemma inv_replaceSessionBookmarks b : inv P (replaceSessionBookmarks b).
Proof.
  unfold replaceSessionBookmarks. inv_auto.
  apply (inv_setS_bookmarks P (fun sb => with_current sb [b]) HT).
Qed.

Hint Resolve inv_Debugf inv_Warnf inv_replaceSessionBookmarks : inv.

Lemma inv_replaceBookmarks ctx db sent b : inv P (replaceBookmarks ctx db sent b).
Proof. unfold replaceBookmarks. inv_auto. Qed.

Lemma inv_allBookmarks ctx : inv P (allBookmarks ctx).
Proof. unfold allBookmarks. inv_auto. Qed.

Lemma inv_routingBookmarks ctx : inv P (routingBookmarks ctx).
Proof. unfold routingBookmarks. inv_auto. Qed.

Hint Resolve inv_replaceBookmarks inv_allBookmarks inv_routingBookmarks : inv.

Lemma inv_transactionBookmarks ctx : inv P (transactionBookmarks ctx).
Proof. unfold transactionBookmarks. inv_auto. Qed.

Lemma inv_retrieveBookmarks ctx conn sent : inv P (retrieveBookmarks bolt ctx conn sent).
Proof. unfold retrieveBookmarks. inv_auto. Qed.

Lemma inv_retrieveSessionBookmarks conn : inv P (retrieveSessionBookmarks bolt conn).
Proof. unfold retrieveSessionBookmarks. inv_auto. Qed.

Lemma inv_poolReturn ctx conn : inv P (poolReturn ctx conn).
Proof. unfold poolReturn. inv_auto. Qed.

Lemma inv_getServers ctx mode : inv P (getServers ctx mode).
Proof. unfold getServers. inv_auto. Qed.

Hint Resolve inv_transactionBookmarks inv_retrieveBookmarks inv_retrieveSessionBookmarks
  inv_poolReturn inv_getServers : inv.

Lemma inv_explicit_onClosed tx : inv P (explicit_onClosed bolt tx).
Proof. unfold explicit_onClosed. inv_auto. Qed.

Lemma inv_autocommit_afterConsume res : inv P (autocommit_afterConsume bolt drv res).
Proof. unfold autocommit_afterConsume. inv_auto. Qed.

Lemma inv_autocommit_onClosed tx : inv P (autocommit_onClosed tx).
Proof. unfold autocommit_onClosed. inv_auto. Qed.

Hint Resolve inv_explicit_onClosed inv_autocommit_afterConsume inv_autocommit_onClosed : inv.

Lemma inv_done tx ctx : inv P (autocommitTransaction_done bolt drv tx ctx).
Proof. unfold autocommitTransaction_done. inv_auto. Qed.

Lemma inv_discard tx ctx : inv P (autocommitTransaction_discard bolt drv tx ctx).
Proof. unfold autocommitTransaction_discard. inv_auto. Qed.

Lemma inv_Commit tx ctx : inv P (explicitTransaction_Commit bolt tx ctx).
Proof. unfold explicitTransaction_Commit. inv_auto. Qed.

Lemma inv_onDeadConnection ctx mode server : inv P (onDeadConnection ctx mode server).
Proof. unfold onDeadConnection. inv_auto. Qed.

Lemma inv_LastBookmarks : inv P (LastBookmarks bolt).
Proof. unfold LastBookmarks. inv_auto. Qed.

End Helpers.


(** ** What the operations preserve *)

Lemma returns_bind {A B} (Q : B -> Prop) (m : M A) (k : A -> M B) :
  (forall a, returns Q (k a)) -> returns Q (bind m k).
Proof. intros Hk w. rewrite run_bind. apply Hk. Qed.

Lemma returns_ret {A} (Q : A -> Prop) (a : A) : Q a -> returns Q (ret a : M A).
Proof. intros Ha w. exact Ha. Qed.

Lemma inv_bind_ret {A B} (P : World -> Prop) (Q : A -> Prop) (m : M A) (k : A -> M B) :
  inv P m -> returns Q m -> (forall a, Q a -> inv P (k a)) -> inv P (bind m k).
Proof.
  intros Hm HQ Hk w HP. rewrite run_bind. apply Hk; [ apply HQ | apply Hm, HP ].
Qed.

Lemma returns_bind_ret {A B} (Q1 : A -> Prop) (Q : B -> Prop) (m : M A) (k : A -> M B) :
  returns Q1 m -> (forall a, Q1 a -> returns Q (k a)) -> returns Q (bind m k).
Proof. intros Hm Hk w. rewrite run_bind. apply Hk, Hm. Qed.

Ltac returns_step :=
  lazymatch goal with
  | |- returns _ (bind _ _) => apply returns_bind; intros ?
  | |- returns _ (ret _) => apply returns_ret
  | |- returns _ (match ?x with _ => _ end) => destruct x
  end.

(** The retry state keeps its dead-connection callback. *)
Lemma returns_stateOnFailure ctx0 mode0 (st : State) ctx conn err flag :
  sessionState ctx0 mode0 st ->
  returns (sessionState ctx0 mode0) (stateOnFailure drv st ctx conn err flag).
Proof.
  intros Hst. unfold stateOnFailure, OnFailure. repeat returns_step; exact Hst.
Qed.

Lemma returns_executeTransactionFunction ctx0 mode0 ctx mode config st filters work :
  sessionState ctx0 mode0 st ->
  returns (fun r => sessionState ctx0 mode0 (snd r))
    (executeTransactionFunction bolt drv ctx mode config st filters work).
Proof.
  intros Hst. unfold executeTransactionFunction.
  assert (Hfail : forall c conn err flag (x : bool * option Value),
             returns (fun r : bool * option Value * State => sessionState ctx0 mode0 (snd r))
               (bind (stateOnFailure drv st c conn err flag) (fun st' => ret (x, st')))).
  { intros. apply (returns_bind_ret (sessionState ctx0 mode0));
      [ apply returns_stateOnFailure; exact Hst | ].
    intros st' Hst'; apply returns_ret; exact Hst'. }
  apply returns_bind; intros [conn|err]; [ | apply Hfail ].
  apply (returns_bind_ret (fun r => sessionState ctx0 mode0 (snd r))).
  - repeat first [ apply Hfail | returns_step ]. exact Hst.
  - intros out Hout. repeat returns_step. exact Hout.
Qed.

Lemma returns_Continue ctx0 mode0 (st : State) :
  sessionState ctx0 mode0 st ->
  returns (fun cs => sessionState ctx0 mode0 (snd cs)) (Continue st).
Proof.
  intros Hst. unfold Continue. repeat returns_step; exact Hst.
Qed.

Section Operations.

Variable P : World -> Prop.
Hypothesis HT : Tolerant P.
Hypothesis HR : ResolveOK P.
Hypothesis HB : EventOK isBorrow P.
Hypothesis HF : EventOK isOnFailure P.
Hypothesis HRb : EventOK isRollback P.
Hypothesis HL : EventOK isLogError P.
Hypothesis HSE : SetExplicitOK P.
Hypothesis HSA : SetAutocommitOK P.

Hint Resolve inv_Debugf inv_Warnf inv_replaceSessionBookmarks inv_replaceBookmarks
  inv_allBookmarks inv_routingBookmarks inv_transactionBookmarks inv_retrieveBookmarks
  inv_retrieveSessionBookmarks inv_poolReturn inv_getServers inv_explicit_onClosed
  inv_autocommit_afterConsume inv_autocommit_onClosed inv_done inv_discard inv_Commit
  inv_onDeadConnection inv_LastBookmarks : inv.

Hint Extern 2 (inv _ (callEv _ (EvBorrow _ _ _))) =>
  apply (inv_callEv_sel isBorrow); [ assumption | assumption | intros; reflexivity ] : inv.
Hint Extern 2 (inv _ (callEv _ (EvTxRollback _ _))) =>
  apply (inv_callEv_sel isRollback); [ assumption | assumption | intros; reflexivity ] : inv.
Hint Extern 2 (inv _ (emit (EvOnFailure _ _ _))) =>
  apply (inv_emit_sel isOnFailure); [ assumption | reflexivity ] : inv.
Hint Extern 2 (inv _ (logError _)) =>
  apply (inv_emit_sel isLogError); [ assumption | reflexivity ] : inv.

Lemma inv_getConnection ctx mode thr : inv P (getConnection bolt drv ctx mode thr).
Proof. unfold getConnection, withAcquisitionTimeout. inv_auto. Qed.

Lemma inv_getServerInfo ctx : inv P (getServerInfo bolt drv ctx).
Proof. unfold getServerInfo. inv_auto. Qed.

Lemma inv_explicitTransaction_Close tx ctx : inv P (explicitTransaction_Close bolt tx ctx).
Proof. unfold explicitTransaction_Close. inv_auto. Qed.

Lemma inv_OnFailure ctx0 mode0 (st : State) ctx conn err flag :
  sessionState ctx0 mode0 st -> inv P (OnFailure drv st ctx conn err flag).
Proof.
  intros Hst. unfold OnFailure. rewrite Hst. inv_auto.
Qed.

Lemma inv_stateOnFailure ctx0 mode0 (st : State) ctx conn err flag :
  sessionState ctx0 mode0 st -> inv P (stateOnFailure drv st ctx conn err flag).
Proof.
  intros Hst. unfold stateOnFailure, OnFailure. rewrite Hst. inv_auto.
Qed.

Hint Resolve inv_getConnection inv_getServerInfo inv_explicitTransaction_Close
  inv_stateOnFailure : inv.

Lemma inv_executeTransactionFunction ctx0 mode0 ctx mode config st filters work :
  sessionState ctx0 mode0 st ->
  inv P (executeTransactionFunction bolt drv ctx mode config st filters work).
Proof.
  intros Hst. unfold executeTransactionFunction. inv_auto.
Qed.

Lemma inv_Continue (st : State) : inv P (Continue st).
Proof. unfold Continue. inv_auto. Qed.

Lemma inv_retryLoop ctx0 mode0 fuel ctx mode config filters work : forall st,
  sessionState ctx0 mode0 st ->
  inv P (retryLoop bolt drv fuel ctx mode config filters work st).
Proof.
  induction fuel as [|fuel IH]; intros st Hst; simpl.
  - apply inv_ret.
  - apply (inv_bind_ret P (fun cs => sessionState ctx0 mode0 (snd cs))).
    + apply inv_Continue.
    + apply returns_Continue, Hst.
    + intros [b st1] Hst1; simpl in *. destruct b; [ | apply inv_ret ].
      apply (inv_bind_ret P (fun r => sessionState ctx0 mode0 (snd r))).
      * apply (inv_executeTransactionFunction ctx0 mode0), Hst1.
      * apply returns_executeTransactionFunction, Hst1.
      * intros [[b2 x] st2] Hst2; simpl in *. destruct b2; [ apply IH, Hst2 | apply inv_ret ].
Qed.

Lemma inv_runRetriable fuel ctx mode work configurers :
  inv P (runRetriable bolt drv fuel ctx mode work configurers).
Proof.
  unfold runRetriable.
  apply inv_bind; [ apply inv_getS | intros s ].
  destruct (explicitTx s); [ apply inv_ret | ].
  apply inv_bind; [ inv_auto | intros _ ].
  destruct (notificationFilterRawValuesOf drv _); [ | apply inv_ret ].
  destruct (validateTransactionConfig _); [ apply inv_ret | ].
  apply inv_bind; [ apply (inv_retryLoop ctx mode); reflexivity | intros out ].
  inv_auto.
Qed.

Lemma inv_BeginTransaction ctx configurers : inv P (BeginTransaction bolt drv ctx configurers).
Proof.
  unfold BeginTransaction. inv_auto.
  intros [s e t] HP. apply (HSE s e t _ HP).
Qed.

Lemma inv_Run ctx cypher params configurers : inv P (Run bolt drv ctx cypher params configurers).
Proof.
  unfold Run. inv_auto.
  intros [s e t] HP. apply (HSA s e t _ HP).
Qed.

Lemma inv_Close poolFirst ctx : inv P (Close bolt drv poolFirst ctx).
Proof. unfold Close. inv_auto. Qed.

Hint Resolve inv_runRetriable inv_BeginTransaction inv_Run inv_Close : inv.

Lemma inv_runOp op : inv P (runOp bolt drv op).
Proof.
  destruct op; simpl; unfold ExecuteRead, ExecuteWrite; inv_auto.
Qed.

Lemma inv_runOps ops : forall w, P w -> P (runOps bolt drv ops w).
Proof.
  induction ops as [|op ops IH]; intros w HP; simpl; [ exact HP | ].
  apply IH, inv_runOp, HP.
Qed.

End Operations.


(** ** Instances: the properties the operations preserve *)

Lemma ResolveOK_of (P : World -> Prop) :
  Tolerant P -> EventOK isLookup P -> DbOK P -> ResolveOK P.
Proof.
  intros HT HL HD ctx. unfold resolveHomeDatabase.
  pose proof (inv_routingBookmarks P HT) as Hrb.
  pose proof (inv_Debugf P HT) as Hdb.
  inv_auto.
  - apply (inv_callEv_sel isLookup); auto.
  - intros [s e t] HP. apply (HD s e t HP).
  - intros [s e t] HP. apply (HD s e t HP).
Qed.

Lemma filter_snoc_false (sel : Event -> bool) (t : list Event) (ev : Event) :
  sel ev = false -> List.filter sel (t ++ [ev]) = List.filter sel t.
Proof.
  intros H. rewrite List.filter_app. simpl. rewrite H. apply app_nil_r.
Qed.

Lemma basic_not (sel : Event -> bool) :
  (forall ev, sel ev = true -> isBasic ev = false) ->
  forall ev, isBasic ev = true -> sel ev = false.
Proof.
  intros H ev Hb. destruct (sel ev) eqn:E; [ | reflexivity ].
  rewrite (H ev E) in Hb. discriminate.
Qed.

Ltac special_event :=
  let ev := fresh "ev" in
  intros ev; destruct ev as [[]| | | | | | | | | | | | | | | | | | | |];
  simpl; congruence.

Lemma special_isBorrow : forall ev : Event, isBorrow ev = true -> isBasic ev = false.
Proof. special_event. Qed.
Lemma special_isLookup : forall ev : Event, isLookup ev = true -> isBasic ev = false.
Proof. special_event. Qed.
Lemma special_isLookupOk : forall ev : Event, isLookupOk ev = true -> isBasic ev = false.
Proof. intros ev; destruct ev as [[]| | | | | | | | | | | | | | | | | | | |]; simpl; try congruence. Qed.
Lemma special_isOnFailure : forall ev : Event, isOnFailure ev = true -> isBasic ev = false.
Proof. special_event. Qed.
Lemma special_isRollback : forall ev : Event, isRollback ev = true -> isBasic ev = false.
Proof. special_event. Qed.
Lemma special_isLogError : forall ev : Event, isLogError ev = true -> isBasic ev = false.
Proof. special_event. Qed.

(** [selected sel l] survives whatever [sel] does not select. *)
Lemma selected_Tolerant sel l :
  (forall ev, sel ev = true -> isBasic ev = false) -> Tolerant (selected sel l).
Proof.
  intros H. constructor; unfold selected; simpl; intros; auto.
  rewrite filter_snoc_false; auto using basic_not.
Qed.

Lemma selected_EventOK sel sel' l :
  (forall ev, sel' ev = true -> sel ev = false) -> EventOK sel' (selected sel l).
Proof.
  intros H s e t ev Hev. unfold selected; simpl. intros Hl.
  rewrite filter_snoc_false; auto.
Qed.

Lemma selected_DbOK sel l : DbOK (selected sel l).
Proof. intros s e t H; split; intros; exact H. Qed.

Lemma selected_SetExplicitOK sel l : SetExplicitOK (selected sel l).
Proof. intros s e t tx H; exact H. Qed.

Lemma selected_SetAutocommitOK sel l : SetAutocommitOK (selected sel l).
Proof. intros s e t tx H; exact H. Qed.

(** A property of the session's transaction fields alone. *)
Lemma fields_Tolerant (F : option explicitTransaction -> option autocommitTransaction -> Prop) :
  (forall x y, F x y -> F None y) -> (forall x y, F x y -> F x None) ->
  Tolerant (fun w : World => F (explicitTx (sess w)) (autocommitTx (sess w))).
Proof.
  intros H1 H2. constructor; simpl; intros; eauto.
Qed.

Lemma fields_EventOK sel
    (F : option explicitTransaction -> option autocommitTransaction -> Prop) :
  EventOK sel (fun w : World => F (explicitTx (sess w)) (autocommitTx (sess w))).
Proof. intros s e t ev _ H; exact H. Qed.

Lemma fields_DbOK
    (F : option explicitTransaction -> option autocommitTransaction -> Prop) :
  DbOK (fun w : World => F (explicitTx (sess w)) (autocommitTx (sess w))).
Proof. intros s e t H; split; intros; exact H. Qed.

Lemma fields_ResolveOK
    (F : option explicitTransaction -> option autocommitTransaction -> Prop) :
  (forall x y, F x y -> F None y) -> (forall x y, F x y -> F x None) ->
  ResolveOK (fun w : World => F (explicitTx (sess w)) (autocommitTx (sess w))).
Proof.
  intros H1 H2. apply ResolveOK_of.
  - apply fields_Tolerant; assumption.
  - apply fields_EventOK.
  - apply fields_DbOK.
Qed.

(** Once the home database is resolved, [resolveHomeDatabase] does
    nothing. *)
Lemma resolveHomeDatabase_noop ctx (w : World) :
  resolveHomeDb (sess w) = false -> resolveHomeDatabase ctx w = (None, w).
Proof.
  intros H. unfold resolveHomeDatabase. rewrite run_bind. simpl. rewrite H. reflexivity.
Qed.

Lemma run_routingBookmarks ctx (w : World) :
  routingBookmarks ctx w =
  (fst (routingBookmarksFn (bookmarks (sess w)) ctx (env w)),
   mkWorld (sess w) (snd (routingBookmarksFn (bookmarks (sess w)) ctx (env w))) (trace w)).
Proof.
  unfold routingBookmarks. rewrite run_bind, run_call. reflexivity.
Qed.

Lemma pinned_Tolerant db l : Tolerant (pinned db l).
Proof.
  constructor; unfold pinned; simpl; intros; auto.
  rewrite filter_snoc_false; auto using basic_not, special_isLookup.
Qed.

Lemma pinned_EventOK sel db l :
  (forall ev, sel ev = true -> isLookup ev = false) -> EventOK sel (pinned db l).
Proof.
  intros H s e t ev Hev. unfold pinned; simpl. intros (H1 & H2 & H3).
  rewrite filter_snoc_false; auto.
Qed.

Lemma pinned_ResolveOK db l : ResolveOK (pinned db l).
Proof.
  intros ctx w HP. rewrite resolveHomeDatabase_noop; [ exact HP | apply HP ].
Qed.

Lemma pinned_runOps db l ops (w : World) :
  pinned db l w -> pinned db l (runOps bolt drv ops w).
Proof.
  apply inv_runOps.
  - apply pinned_Tolerant.
  - apply pinned_ResolveOK.
  - apply pinned_EventOK; intros []; simpl; congruence.
  - apply pinned_EventOK; intros []; simpl; congruence.
  - apply pinned_EventOK; intros []; simpl; congruence.
  - apply pinned_EventOK; intros []; simpl; congruence.
  - intros s e t tx H; exact H.
  - intros s e t tx H; exact H.
Qed.

Lemma resolvedOnce_Tolerant : Tolerant resolvedOnce.
Proof.
  constructor; unfold resolvedOnce; simpl; intros; auto.
  rewrite filter_snoc_false; auto using basic_not, special_isLookupOk.
Qed.

Lemma resolvedOnce_EventOK sel :
  (forall ev, sel ev = true -> isLookupOk ev = false) -> EventOK sel resolvedOnce.
Proof.
  intros H s e t ev Hev. unfold resolvedOnce; simpl. intros H1.
  rewrite filter_snoc_false; auto.
Qed.

Lemma resolvedOnce_ResolveOK : ResolveOK resolvedOnce.
Proof.
  intros ctx w HP. unfold resolveHomeDatabase. rewrite run_bind. simpl.
  destruct (resolveHomeDb (sess w)) eqn:Hr; simpl; [ | exact HP ].
  rewrite run_bind.
  pose proof (inv_routingBookmarks _ resolvedOnce_Tolerant ctx w HP) as H1.
  assert (Hr1 : resolveHomeDb (sess (snd (routingBookmarks ctx w))) = true).
  { unfold routingBookmarks. rewrite run_bind. simpl. unfold call; simpl.
    destruct (routingBookmarksFn _ _ _); simpl. exact Hr. }
  destruct (fst (routingBookmarks ctx w)) as [bms|err]; [ | exact H1 ].
  set (w1 := snd (routingBookmarks ctx w)) in *.
  rewrite run_bind, run_callEv.
  destruct w1 as [s1 e1 t1]; simpl in *.
  destruct (GetNameOfDefaultDatabase _ _ _ _ e1) as [[db|err] e2]; simpl.
  - destruct H1 as [_ H1]. specialize (H1 Hr1). simpl in H1.
    unfold resolvedOnce; simpl. rewrite !List.filter_app; simpl.
    rewrite H1; simpl. split; [ lia | congruence ].
  - unfold resolvedOnce in *; simpl in *.
    rewrite filter_snoc_false by reflexivity. exact H1.
Qed.

Lemma resolvedOnce_runOps ops (w : World) :
  resolvedOnce w -> resolvedOnce (runOps bolt drv ops w).
Proof.
  apply inv_runOps.
  - apply resolvedOnce_Tolerant.
  - apply resolvedOnce_ResolveOK.
  - apply resolvedOnce_EventOK; intros []; simpl; congruence.
  - apply resolvedOnce_EventOK; intros []; simpl; congruence.
  - apply resolvedOnce_EventOK; intros []; simpl; congruence.
  - apply resolvedOnce_EventOK; intros []; simpl; congruence.
  - intros s e t tx H; exact H.
  - intros s e t tx H; exact H.
Qed.


(** ** At most one transaction *)

Lemma done_clears tx ctx (w : World) :
  autocommitTx (sess (snd (autocommitTransaction_done bolt drv tx ctx w))) = None.
Proof.
  unfold autocommitTransaction_done, autocommit_onClosed. rewrite !run_bind. reflexivity.
Qed.

(** What depends neither on the tracker's bookmarks nor on the transaction
    fields is left as it is by the finalization of an autocommit
    transaction. *)
Lemma done_frame {X} (f : sessionWithContext -> X) tx ctx (w : World) :
  (forall s b, f (with_bookmarks s b) = f s) ->
  (forall s, f (with_explicitTx s None) = f s) ->
  (forall s, f (with_autocommitTx s None) = f s) ->
  f (sess (snd (autocommitTransaction_done bolt drv tx ctx w))) = f (sess w).
Proof.
  intros Hb He Ha.
  apply (inv_done (fun w' : World => f (sess w') = f (sess w))); [ | reflexivity ].
  constructor; simpl; intros; try assumption.
  - rewrite Hb; assumption.
  - rewrite He; assumption.
  - rewrite Ha; assumption.
Qed.

Lemma done_keeps_no_explicit tx ctx (w : World) :
  explicitTx (sess w) = None ->
  explicitTx (sess (snd (autocommitTransaction_done bolt drv tx ctx w))) = None.
Proof.
  apply (inv_done (fun w' : World => explicitTx (sess w') = None)).
  constructor; simpl; intros; auto.
Qed.

Ltac after_done tx ctx w He Ha :=
  pose proof (done_keeps_no_explicit tx ctx w He) as He1;
  pose proof (done_clears tx ctx w) as Ha1;
  pose proof (done_frame
                (fun s => (notificationFilters s, defaultMode s, impersonatedUser s,
                           fetchSize s, config s, now s, sleep s, throttleTime s,
                           router s, databaseName s))
                tx ctx w (fun _ _ => eq_refl) (fun _ => eq_refl) (fun _ => eq_refl)) as Hf;
  simpl in Hf; injection Hf; intros Hf1 Hf2 Hf3 Hf4 Hf5 Hf6 Hf7 Hf8 Hf9 Hf10;
  rewrite !(run_bind getS); simpl;
  rewrite He, Ha, He1, Ha1;
  rewrite (run_bind (autocommitTransaction_done bolt drv tx ctx));
  rewrite (run_bind (ret tt)); simpl;
  rewrite ?Hf1, ?Hf2, ?Hf3, ?Hf4, ?Hf5, ?Hf6, ?Hf7, ?Hf8, ?Hf9, ?Hf10;
  reflexivity.

(** With an autocommit transaction pending and no explicit one, each of the
    three operations is the finalization of the pending transaction followed
    by the operation itself on a session that holds none. *)
Lemma BeginTransaction_after_done tx ctx cs (w : World) :
  explicitTx (sess w) = None -> autocommitTx (sess w) = Some tx ->
  BeginTransaction bolt drv ctx cs w =
  BeginTransaction bolt drv ctx cs (snd (autocommitTransaction_done bolt drv tx ctx w)).
Proof.
  intros He Ha. unfold BeginTransaction. after_done tx ctx w He Ha.
Qed.

Lemma runRetriable_after_done tx fuel ctx mode work cs (w : World) :
  explicitTx (sess w) = None -> autocommitTx (sess w) = Some tx ->
  runRetriable bolt drv fuel ctx mode work cs w =
  runRetriable bolt drv fuel ctx mode work cs
    (snd (autocommitTransaction_done bolt drv tx ctx w)).
Proof.
  intros He Ha. unfold runRetriable, retryState. after_done tx ctx w He Ha.
Qed.

Lemma Run_after_done tx ctx cypher params cs (w : World) :
  explicitTx (sess w) = None -> autocommitTx (sess w) = Some tx ->
  Run bolt drv ctx cypher params cs w =
  Run bolt drv ctx cypher params cs (snd (autocommitTransaction_done bolt drv tx ctx w)).
Proof.
  intros He Ha. unfold Run. after_done tx ctx w He Ha.
Qed.

(** The guards. *)
Lemma BeginTransaction_guard tx ctx cs (w : World) :
  explicitTx (sess w) = Some tx ->
  BeginTransaction bolt drv ctx cs w =
  (Err (UsageError "Session already has a pending transaction"),
   addEvent w (EvLog LError (LogErr (UsageError "Session already has a pending transaction")))).
Proof.
  intros He. unfold BeginTransaction. rewrite run_bind; simpl. rewrite He.
  reflexivity.
Qed.

Lemma runRetriable_guard tx fuel ctx mode work cs (w : World) :
  explicitTx (sess w) = Some tx ->
  runRetriable bolt drv fuel ctx mode work cs w =
  (Some (Err (UsageError "Session already has a pending transaction")), w).
Proof.
  intros He. unfold runRetriable. rewrite run_bind; simpl. rewrite He.
  reflexivity.
Qed.

Lemma Run_guard tx ctx cypher params cs (w : World) :
  explicitTx (sess w) = Some tx ->
  Run bolt drv ctx cypher params cs w =
  (Err (UsageError "Trying to run auto-commit transaction while in explicit transaction"),
   addEvent w (EvLog LError (LogErr
     (UsageError "Trying to run auto-commit transaction while in explicit transaction")))).
Proof.
  intros He. unfold Run. rewrite run_bind; simpl. rewrite He.
  reflexivity.
Qed.

Lemma atMostOneTx_Tolerant : Tolerant atMostOneTx.
Proof.
  apply (fields_Tolerant (fun x y => x = None \/ y = None)); intros; tauto.
Qed.

Lemma atMostOneTx_ResolveOK : ResolveOK atMostOneTx.
Proof.
  apply (fields_ResolveOK (fun x y => x = None \/ y = None)); intros; tauto.
Qed.

Lemma atMostOneTx_EventOK sel : EventOK sel atMostOneTx.
Proof. apply (fields_EventOK sel (fun x y => x = None \/ y = None)). Qed.

Lemma BeginTransaction_atMostOneTx ctx cs : inv atMostOneTx (BeginTransaction bolt drv ctx cs).
Proof.
  assert (Hnone : forall w : World, autocommitTx (sess w) = None ->
            autocommitTx (sess (snd (BeginTransaction bolt drv ctx cs w))) = None).
  { apply (inv_BeginTransaction (fun w : World => autocommitTx (sess w) = None)).
    - apply (fields_Tolerant (fun _ y => y = None)); auto.
    - apply (fields_ResolveOK (fun _ y => y = None)); auto.
    - apply (fields_EventOK _ (fun _ y => y = None)).
    - apply (fields_EventOK _ (fun _ y => y = None)).
    - intros s e t tx H; exact H. }
  intros w Hw. destruct (explicitTx (sess w)) as [tx|] eqn:He.
  - rewrite (BeginTransaction_guard tx _ _ _ He). exact Hw.
  - destruct (autocommitTx (sess w)) as [tx|] eqn:Ha.
    + rewrite (BeginTransaction_after_done tx _ _ _ He Ha).
      right. apply Hnone, done_clears.
    + right. apply Hnone, Ha.
Qed.

Lemma Run_atMostOneTx ctx cypher params cs :
  inv atMostOneTx (Run bolt drv ctx cypher params cs).
Proof.
  intros w Hw. destruct (explicitTx (sess w)) as [tx|] eqn:He.
  - rewrite (Run_guard tx _ _ _ _ _ He). exact Hw.
  - left. clear Hw. revert w He.
    apply (inv_Run (fun w : World => explicitTx (sess w) = None)).
    + apply (fields_Tolerant (fun x _ => x = None)); auto.
    + apply (fields_ResolveOK (fun x _ => x = None)); auto.
    + apply (fields_EventOK _ (fun x _ => x = None)).
    + apply (fields_EventOK _ (fun x _ => x = None)).
    + intros s e t tx H; exact H.
Qed.

Lemma runOp_atMostOneTx op : inv atMostOneTx (runOp bolt drv op).
Proof.
  pose proof atMostOneTx_Tolerant as HT.
  pose proof atMostOneTx_ResolveOK as HR.
  pose proof atMostOneTx_EventOK as HE.
  destruct op; simpl; unfold ExecuteRead, ExecuteWrite;
    (apply inv_bind; [ | intros s ]).
  - apply inv_LastBookmarks, HT.
  - apply inv_ret.
  - apply BeginTransaction_atMostOneTx.
  - apply inv_ret.
  - apply inv_runRetriable; auto.
  - apply inv_ret.
  - apply inv_runRetriable; auto.
  - apply inv_ret.
  - apply Run_atMostOneTx.
  - apply inv_ret.
  - apply inv_Close; auto.
  - apply inv_ret.
  - apply inv_getServerInfo; auto.
  - apply inv_ret.
  - apply inv_getS.
  - destruct (explicitTx s); [ | apply inv_ret ].
    apply inv_bind; [ apply inv_Commit, HT | intros; apply inv_ret ].
  - apply inv_getS.
  - destruct (explicitTx s); [ | apply inv_ret ].
    apply inv_bind; [ apply inv_explicitTransaction_Close; auto | intros; apply inv_ret ].
Qed.


(** ** The claims *)

(** C1: a session never holds an explicit transaction and an autocommit
    transaction at the same time.  [BeginTransaction], [ExecuteRead] and
    [ExecuteWrite] (that is [runRetriable] in either mode) and [Run] fail
    with a usage error when an explicit transaction is open; with an
    autocommit transaction pending they first finalize it, which leaves the
    session without any transaction, and go on from there; so after every
    sequence of operations at most one of the two fields is set. *)
Theorem session_holds_at_most_one_transaction :
  (forall (w : World) tx,
      explicitTx (sess w) = Some tx ->
      (forall ctx cs, exists m,
          fst (BeginTransaction bolt drv ctx cs w) = Err (UsageError m)) /\
      (forall fuel ctx mode work cs, exists m,
          fst (runRetriable bolt drv fuel ctx mode work cs w) = Some (Err (UsageError m))) /\
      (forall ctx cypher params cs, exists m,
          fst (Run bolt drv ctx cypher params cs w) = Err (UsageError m))) /\
  (forall (w : World) tx ctx,
      explicitTx (sess w) = None -> autocommitTx (sess w) = Some tx ->
      let w1 := snd (autocommitTransaction_done bolt drv tx ctx w) in
      noTx w1 /\
      (forall cs, BeginTransaction bolt drv ctx cs w = BeginTransaction bolt drv ctx cs w1) /\
      (forall fuel mode work cs,
          runRetriable bolt drv fuel ctx mode work cs w =
          runRetriable bolt drv fuel ctx mode work cs w1) /\
      (forall cypher params cs,
          Run bolt drv ctx cypher params cs w = Run bolt drv ctx cypher params cs w1)) /\
  (forall ops (w : World), atMostOneTx w -> atMostOneTx (runOps bolt drv ops w)) /\
  (forall ops cfg sc r p sl nw (e : Env),
      atMostOneTx (runOps bolt drv ops (newWorld (newSessionWithContext cfg sc r p sl nw) e))).
Proof.
  assert (Hops : forall ops (w : World), atMostOneTx w -> atMostOneTx (runOps bolt drv ops w)).
  { induction ops as [|op ops IH]; intros w Hw; simpl; [ exact Hw | ].
    apply IH, runOp_atMostOneTx, Hw. }
  repeat split.
  - intros ctx cs. rewrite (BeginTransaction_guard tx _ _ _ H). eexists; reflexivity.
  - intros fuel ctx mode work cs. rewrite (runRetriable_guard tx _ _ _ _ _ _ H).
    eexists; reflexivity.
  - intros ctx cypher params cs. rewrite (Run_guard tx _ _ _ _ _ H). eexists; reflexivity.
  - apply done_keeps_no_explicit, H.
  - apply done_clears.
  - intros cs. apply BeginTransaction_after_done; assumption.
  - intros fuel mode work cs. apply runRetriable_after_done; assumption.
  - intros cypher params cs. apply Run_after_done; assumption.
  - exact Hops.
  - intros. apply Hops. left; reflexivity.
Qed.

(** C4: [BeginTransaction] with an explicit transaction open returns a usage
    error and changes nothing: the session (its open transaction and its
    bookmarks included) and the environment (pool, connections, server) are
    as they were, and the only call made is the one that logs the error. *)
Theorem BeginTransaction_with_open_transaction_changes_nothing :
  forall (w : World) tx ctx cs,
    explicitTx (sess w) = Some tx ->
    let r := BeginTransaction bolt drv ctx cs w in
    fst r = Err (UsageError "Session already has a pending transaction") /\
    sess (snd r) = sess w /\
    env (snd r) = env w /\
    trace (snd r) =
      trace w ++ [EvLog LError (LogErr (UsageError "Session already has a pending transaction"))].
Proof.
  intros w tx ctx cs He r. subst r.
  rewrite (BeginTransaction_guard tx _ _ _ He). simpl. auto.
Qed.


(** C10, as amended: a timeout that is negative and is not the unset
    sentinel [math.MinInt] is rejected by [validateTransactionConfig] with a
    usage error that names it, and the sentinel and the non-negative
    timeouts pass.  When no explicit transaction is open and the session's
    notification filters are accepted, [BeginTransaction], [ExecuteRead],
    [ExecuteWrite] and [Run] return that error, and no connection has been
    borrowed when they do. *)
Theorem negative_timeout_is_rejected :
  (forall c : @TransactionConfig Value,
      Timeout c < 0 -> Timeout c <> MinInt ->
      validateTransactionConfig c =
      Some (UsageError ("Negative transaction timeouts are not allowed. Given: "
                          +:+ pretty (Timeout c)))) /\
  (forall c : @TransactionConfig Value,
      Timeout c = MinInt \/ 0 <= Timeout c -> validateTransactionConfig c = None) /\
  (forall (w : World) cs filters,
      explicitTx (sess w) = None ->
      notificationFilterRawValuesOf drv (notificationFilters (sess w)) = Ok filters ->
      let c := applyConfigurers cs defaultTransactionConfig in
      Timeout c < 0 -> Timeout c <> MinInt ->
      let err := UsageError ("Negative transaction timeouts are not allowed. Given: "
                               +:+ pretty (Timeout c)) in
      (forall ctx,
          let r := BeginTransaction bolt drv ctx cs w in
          fst r = Err err /\
          List.filter isBorrow (trace (snd r)) = List.filter isBorrow (trace w)) /\
      (forall fuel ctx mode work,
          let r := runRetriable bolt drv fuel ctx mode work cs w in
          fst r = Some (Err err) /\
          List.filter isBorrow (trace (snd r)) = List.filter isBorrow (trace w)) /\
      (forall ctx cypher params,
          let r := Run bolt drv ctx cypher params cs w in
          fst r = Err err /\
          List.filter isBorrow (trace (snd r)) = List.filter isBorrow (trace w))).
Proof.
  assert (Hneg : forall c : @TransactionConfig Value,
             Timeout c < 0 -> Timeout c <> MinInt ->
             validateTransactionConfig c =
             Some (UsageError ("Negative transaction timeouts are not allowed. Given: "
                                 +:+ pretty (Timeout c)))).
  { intros c Hlt Hne. unfold validateTransactionConfig.
    destruct (Z.eqb_spec (Timeout c) MinInt); [ contradiction | ].
    destruct (Z.ltb_spec (Timeout c) 0); [ reflexivity | lia ]. }
  split; [ exact Hneg | split ].
  - intros c [Heq | Hge]; unfold validateTransactionConfig.
    + rewrite Heq. reflexivity.
    + destruct (Z.ltb_spec (Timeout c) 0); [ lia | ].
      rewrite andb_false_r. reflexivity.
  - intros w cs filters He Hnf c Hlt Hne err.
    specialize (Hneg c Hlt Hne). fold err in Hneg.
    assert (Hdone : forall tx ctx,
               List.filter isBorrow
                 (trace (snd (autocommitTransaction_done bolt drv tx ctx w))) =
               List.filter isBorrow (trace w)).
    { intros tx ctx.
      apply (inv_done (selected isBorrow (List.filter isBorrow (trace w))));
        [ | reflexivity ].
      apply selected_Tolerant, special_isBorrow. }
    assert (Hfil : forall tx ctx,
               notificationFilters (sess (snd (autocommitTransaction_done bolt drv tx ctx w))) =
               notificationFilters (sess w)).
    { intros tx ctx. apply done_frame; reflexivity. }
    assert (HB : forall ctx (w0 : World),
               explicitTx (sess w0) = None -> autocommitTx (sess w0) = None ->
               notificationFilters (sess w0) = notificationFilters (sess w) ->
               BeginTransaction bolt drv ctx cs w0 = (Err err, w0)).
    { intros ctx w0 H1 H2 H3. unfold BeginTransaction.
      rewrite run_bind; simpl. rewrite H1, H2. rewrite run_bind; simpl.
      rewrite H3, Hnf. fold c. rewrite Hneg. reflexivity. }
    assert (HR : forall fuel ctx mode work (w0 : World),
               explicitTx (sess w0) = None -> autocommitTx (sess w0) = None ->
               notificationFilters (sess w0) = notificationFilters (sess w) ->
               runRetriable bolt drv fuel ctx mode work cs w0 = (Some (Err err), w0)).
    { intros fuel ctx mode work w0 H1 H2 H3. unfold runRetriable.
      rewrite run_bind; simpl. rewrite H1, H2. rewrite run_bind; simpl.
      rewrite H3, Hnf. fold c. rewrite Hneg. reflexivity. }
    assert (HU : forall ctx cypher params (w0 : World),
               explicitTx (sess w0) = None -> autocommitTx (sess w0) = None ->
               notificationFilters (sess w0) = notificationFilters (sess w) ->
               Run bolt drv ctx cypher params cs w0 = (Err err, w0)).
    { intros ctx cypher params w0 H1 H2 H3. unfold Run.
      rewrite run_bind; simpl. rewrite H1, H2. rewrite run_bind; simpl.
      rewrite H3, Hnf. fold c. rewrite Hneg. reflexivity. }
    split; [ | split ].
    + intros ctx r. subst r. destruct (autocommitTx (sess w)) as [tx|] eqn:Ha.
      * rewrite (BeginTransaction_after_done tx _ _ _ He Ha).
        rewrite HB; [ simpl; split; [ reflexivity | apply Hdone ]
                   | apply done_keeps_no_explicit, He | apply done_clears | apply Hfil ].
      * rewrite HB; [ simpl; split; reflexivity | assumption | assumption | reflexivity ].
    + intros fuel ctx mode work r. subst r.
      destruct (autocommitTx (sess w)) as [tx|] eqn:Ha.
      * rewrite (runRetriable_after_done tx _ _ _ _ _ _ He Ha).
        rewrite HR; [ simpl; split; [ reflexivity | apply Hdone ]
                   | apply done_keeps_no_explicit, He | apply done_clears | apply Hfil ].
      * rewrite HR; [ simpl; split; reflexivity | assumption | assumption | reflexivity ].
    + intros ctx cypher params r. subst r.
      destruct (autocommitTx (sess w)) as [tx|] eqn:Ha.
      * rewrite (Run_after_done tx _ _ _ _ _ He Ha).
        rewrite HU; [ simpl; split; [ reflexivity | apply Hdone ]
                   | apply done_keeps_no_explicit, He | apply done_clears | apply Hfil ].
      * rewrite HU; [ simpl; split; reflexivity | assumption | assumption | reflexivity ].
Qed.


(** C8: when the session's database name is not the default and the
    connection borrowed for it does not expose the database selection
    capability, [getConnection] returns the connection to the pool and fails
    with a usage error; it makes no other call after the borrow. *)
Theorem getConnection_without_database_selector :
  forall ctx mode thr (w w0 w1 w2 : World) ctx' servers conn e3,
    withAcquisitionTimeout drv ctx w = (ctx', w0) ->
    resolveHomeDatabase ctx' w0 = (None, w1) ->
    getServers ctx' mode w1 = (Ok servers, w2) ->
    let wait := negb (ConnectionAcquisitionTimeout (config (sess w)) =? 0) in
    Borrow (pool (sess w)) ctx' servers wait thr (env w2) = (Ok conn, e3) ->
    databaseName (sess w2) <> DefaultDatabase drv ->
    isDatabaseSelector conn = false ->
    let returned := Return (pool (sess w2)) ctx' conn e3 in
    getConnection bolt drv ctx mode thr w =
      (Err (UsageError "Database does not support multi-database"),
       mkWorld (sess w2) (snd returned)
         (trace w2 ++ [EvBorrow servers wait thr (Ok conn)] ++ [EvReturn conn (fst returned)])).
Proof.
  intros ctx mode thr w w0 w1 w2 ctx' servers conn e3 H0 H1 H2 wait HB Hdb Hsel returned.
  unfold getConnection. rewrite run_bind; simpl.
  rewrite (bind_eq _ _ _ _ _ H0), (bind_eq _ _ _ _ _ H1), (bind_eq _ _ _ _ _ H2).
  rewrite run_bind, run_callEv. fold wait. rewrite HB; simpl.
  rewrite run_bind; simpl.
  destruct (String.eqb_spec (databaseName (sess w2)) (DefaultDatabase drv)) as [Heq|_];
    [ contradiction | simpl ].
  rewrite Hsel. unfold poolReturn. rewrite !run_bind, run_callEv; simpl.
  unfold mkWorld. rewrite <- app_assoc. reflexivity.
Qed.


(** What [state.OnFailure] records (in the model of the retry state). *)
Lemma stateOnFailure_records (st : State) ctx conn err flag (w : World) :
  let rf := stateOnFailure drv st ctx conn err flag w in
  fst rf = with_failure st err (flag || isRetryable drv err).
Proof.
  unfold stateOnFailure, OnFailure. simpl. rewrite !run_bind. reflexivity.
Qed.

Ltac run_path :=
  repeat first
    [ rewrite bind_assoc
    | rewrite bind_ret_l
    | rewrite bind_getS
    | match goal with
      | H : ?m ?w = (_, _) |- context [bind ?m _ ?w] =>
          rewrite (bind_eq _ _ _ _ _ H)
      end
    | progress cbv beta iota ].


(** C9: once the commit has succeeded, a failure to merge the returned
    bookmark into the tracker is only logged.  The attempt returns the work
    closure's result and does not ask to be tried again, the retry state
    records no failure, the loop ends with that result, and [runRetriable]
    returns it with no error. *)
Theorem bookmark_failure_after_commit_is_only_logged :
  forall ctx mode config (st : State) filters work (w w1 w2 w3 w4 w5 w6 : World)
         conn bms h x rbk,
    getConnection bolt drv ctx mode DefaultLivenessCheckThreshold w = (Ok conn, w1) ->
    transactionBookmarks ctx w1 = (Ok bms, w2) ->
    let cfg := {| txMode := mode; txBookmarks := bms;
                  txTimeout := Timeout config; txMeta := Metadata config;
                  txImpersonatedUser := impersonatedUser (sess w2);
                  txNotificationFilters := filters |} in
    callEv (TxBegin bolt conn ctx cfg) (EvTxBegin conn cfg) w2 = (Ok h, w3) ->
    let tx := {| mtx_conn := conn; mtx_fetchSize := fetchSize (sess w2);
                 mtx_txHandle := h |} in
    callEv (work tx) (EvWork conn h) w3 = (Ok x, w4) ->
    callEv (TxCommit bolt conn ctx h) (EvTxCommit conn h) w4 = (None, w5) ->
    retrieveBookmarks bolt ctx (Some conn) bms w5 = (rbk, w6) ->
    let logged :=
      match rbk with
      | Some err =>
          [EvLog LWarn
             (LogMsg "could not retrieve bookmarks after successful commit: %s
the results of this transaction may not be visible to subsequent operations"
                     [errorString drv err])]
      | None => []
      end in
    let returned := Return (pool (sess w6)) ctx conn (env w6) in
    let w' := mkWorld (sess w6) (snd returned)
                (trace w6 ++ logged ++ [EvReturn conn (fst returned)]) in
    executeTransactionFunction bolt drv ctx mode config st filters work w =
      ((false, x, st), w') /\
    (forall fuel st0 w0,
        Continue st0 w0 = ((true, st), w) ->
        retryLoop bolt drv (S fuel) ctx mode config filters work st0 w0 =
          (Some (LoopResult x), w')) /\
    (forall fuel cs (ws : World),
        explicitTx (sess ws) = None -> autocommitTx (sess ws) = None ->
        notificationFilterRawValuesOf drv (notificationFilters (sess ws)) = Ok filters ->
        applyConfigurers cs defaultTransactionConfig = config ->
        validateTransactionConfig config = None ->
        retryLoop bolt drv fuel ctx mode config filters work (retryState (sess ws) ctx mode) ws =
          (Some (LoopResult x), w') ->
        runRetriable bolt drv fuel ctx mode work cs ws = (Some (Ok x), w')).
Proof.
  intros ctx mode config st filters work w w1 w2 w3 w4 w5 w6 conn bms h x rbk
         H1 H2 cfg H3 tx H4 H5 H6 logged returned w'.
  assert (Hattempt :
            executeTransactionFunction bolt drv ctx mode config st filters work w =
            ((false, x, st), w')).
  { unfold executeTransactionFunction. run_path. unfold poolReturn.
    destruct rbk as [err|]; simpl;
      rewrite !run_bind, !run_callEv; simpl; subst w' logged returned;
      destruct w6 as [s6 e6 t6]; simpl; unfold mkWorld;
      rewrite <- ?app_assoc; reflexivity. }
  split; [ exact Hattempt | split ].
  - intros fuel st0 w0 HC. simpl. rewrite (bind_eq _ _ _ _ _ HC). simpl.
    rewrite (bind_eq _ _ _ _ _ Hattempt). reflexivity.
  - intros fuel cs ws He Ha Hnf Hcfg Hval Hloop. unfold runRetriable.
    rewrite run_bind; simpl. rewrite He, Ha. rewrite run_bind; simpl.
    rewrite Hnf, Hcfg, Hval. rewrite (bind_eq _ _ _ _ _ Hloop). reflexivity.
Qed.


Lemma explicit_Close_clears tx ctx (w : World) :
  explicitTx (sess (snd (explicitTransaction_Close bolt tx ctx w))) = None.
Proof.
  unfold explicitTransaction_Close, explicit_onClosed. rewrite !run_bind. reflexivity.
Qed.

Lemma discard_clears tx ctx (w : World) :
  autocommitTx (sess (snd (autocommitTransaction_discard bolt drv tx ctx w))) = None.
Proof.
  unfold autocommitTransaction_discard, autocommit_onClosed. rewrite !run_bind. reflexivity.
Qed.

Lemma discard_keeps_no_explicit tx ctx (w : World) :
  explicitTx (sess w) = None ->
  explicitTx (sess (snd (autocommitTransaction_discard bolt drv tx ctx w))) = None.
Proof.
  apply (inv_discard (fun w' : World => explicitTx (sess w') = None)).
  constructor; simpl; intros; auto.
Qed.

Lemma CombineAllErrors_contains (errs : list (option error)) (e : error) :
  In (Some e) errs ->
  exists es, CombineAllErrors errs = Some (CombinedError es) /\ In e es.
Proof.
  intros Hin. unfold CombineAllErrors.
  assert (He : In e (omap id errs)).
  { apply list_elem_of_In, list_elem_of_omap. exists (Some e). split; [ | reflexivity ].
    apply list_elem_of_In, Hin. }
  destruct (omap id errs) as [|e0 es]; [ destruct He | ].
  exists (e0 :: es). split; [ reflexivity | exact He ].
Qed.

(** C3: [Close] closes the explicit transaction if there is one, keeping its
    error, then discards the autocommit transaction if there is one, then
    runs the pool cleanup and the routing cleanup, in whichever order the
    scheduler picks, and returns the aggregate of the three errors.  Both
    cleanups run whatever the other steps returned, and every error
    collected is part of the aggregate. *)
Theorem Close_cleans_up_and_aggregates :
  forall poolFirst ctx (w : World),
    let r1 := match explicitTx (sess w) with
              | Some tx => explicitTransaction_Close bolt tx ctx w
              | None => (None, w)
              end in
    let txErr := fst r1 in
    let w2 := match autocommitTx (sess (snd r1)) with
              | Some tx => snd (autocommitTransaction_discard bolt drv tx ctx (snd r1))
              | None => snd r1
              end in
    let r := Close bolt drv poolFirst ctx w in
    exists poolErr routerErr,
      fst r = CombineAllErrors [txErr; poolErr; routerErr] /\
      trace (snd r) =
        trace w2
        ++ (if poolFirst
            then [EvPoolCleanUp poolErr; EvRouterCleanUp routerErr]
            else [EvRouterCleanUp routerErr; EvPoolCleanUp poolErr])
        ++ [EvLog LDebug (LogMsg "Closed" [])] /\
      (if poolFirst
       then
         let p := poolCleanUp (pool (sess w2)) ctx (env w2) in
         let q := routerCleanUp (router (sess w2)) ctx (snd p) in
         poolErr = fst p /\ routerErr = fst q /\ env (snd r) = snd q
       else
         let q := routerCleanUp (router (sess w2)) ctx (env w2) in
         let p := poolCleanUp (pool (sess w2)) ctx (snd q) in
         poolErr = fst p /\ routerErr = fst q /\ env (snd r) = snd p) /\
      explicitTx (sess (snd r)) = None /\
      autocommitTx (sess (snd r)) = None /\
      (forall e, In (Some e) [txErr; poolErr; routerErr] ->
                 exists es, fst r = Some (CombinedError es) /\ In e es) /\
      (txErr = None -> poolErr = None -> routerErr = None -> fst r = None).
Proof.
  intros poolFirst ctx w r1 txErr w2 r.
  assert (He2 : explicitTx (sess w2) = None /\ autocommitTx (sess w2) = None).
  { assert (He1 : explicitTx (sess (snd r1)) = None).
    { subst r1. destruct (explicitTx (sess w)) as [tx|] eqn:He; simpl;
        [ apply explicit_Close_clears | exact He ]. }
    subst w2. destruct (autocommitTx (sess (snd r1))) as [tx|] eqn:Ha.
    - split; [ apply discard_keeps_no_explicit, He1 | apply discard_clears ].
    - split; assumption. }
  assert (Hr : r =
    (let errs :=
       if poolFirst
       then
         let p := poolCleanUp (pool (sess w2)) ctx (env w2) in
         let q := routerCleanUp (router (sess w2)) ctx (snd p) in
         (fst p, fst q, snd q)
       else
         let q := routerCleanUp (router (sess w2)) ctx (env w2) in
         let p := poolCleanUp (pool (sess w2)) ctx (snd q) in
         (fst p, fst q, snd p) in
     (CombineAllErrors [txErr; fst (fst errs); snd (fst errs)],
      mkWorld (sess w2) (snd errs)
        (trace w2
         ++ (if poolFirst
             then [EvPoolCleanUp (fst (fst errs)); EvRouterCleanUp (snd (fst errs))]
             else [EvRouterCleanUp (snd (fst errs)); EvPoolCleanUp (fst (fst errs))])
         ++ [EvLog LDebug (LogMsg "Closed" [])])))).
  { assert (E1 : (match explicitTx (sess w) with
                  | Some tx => explicitTransaction_Close bolt tx ctx
                  | None => ret None
                  end) w = r1)
      by (subst r1; destruct (explicitTx (sess w)); reflexivity).
    assert (E2 : snd ((match autocommitTx (sess (snd r1)) with
                       | Some tx => autocommitTransaction_discard bolt drv tx ctx
                       | None => ret tt
                       end) (snd r1)) = w2)
      by (subst w2; destruct (autocommitTx (sess (snd r1))); reflexivity).
    subst r. unfold Close. rewrite bind_getS.
    rewrite run_bind, E1. rewrite bind_getS.
    rewrite run_bind, E2. rewrite bind_getS.
    destruct poolFirst; simpl;
      rewrite !run_bind, !run_callEv; simpl; unfold mkWorld;
      rewrite <- ?app_assoc; reflexivity. }
  rewrite Hr. clear Hr.
  destruct poolFirst; simpl;
    eexists; eexists; (split; [ reflexivity | ]);
    (split; [ reflexivity | ]);
    (split; [ repeat split | ]);
    (split; [ apply He2 | ]);
    (split; [ apply He2 | ]);
    (split; [ intros e He; exact (CombineAllErrors_contains [_; _; _] e He)
            | intros H1 H2 H3; rewrite H1, H2, H3; reflexivity ]).
Qed.


Lemma run_replaceSessionBookmarks b (w : World) :
  replaceSessionBookmarks b w =
  (tt, if String.eqb b ""
       then w
       else mkWorld (with_bookmarks (sess w) (with_current (bookmarks (sess w)) [b]))
              (env w) (trace w)).
Proof.
  unfold replaceSessionBookmarks. destruct (String.eqb b ""); reflexivity.
Qed.

(** What [Run] leaves in the session when it succeeds. *)
Lemma Run_installs ctx cypher params cs (w : World) res :
  fst (Run bolt drv ctx cypher params cs w) = Ok res ->
  autocommitTx (sess (snd (Run bolt drv ctx cypher params cs w))) =
  Some {| atx_conn := Some (res_conn res); atx_res := res |}.
Proof.
  unfold Run. rewrite bind_getS.
  destruct (explicitTx (sess w)); [ rewrite run_bind; discriminate | ].
  rewrite run_bind.
  destruct (notificationFilterRawValuesOf drv _); [ | discriminate ].
  destruct (validateTransactionConfig _); [ discriminate | ].
  rewrite run_bind.
  destruct (fst (getConnection _ _ _ _ _ _)) as [conn|]; [ | discriminate ].
  rewrite run_bind.
  destruct (fst (transactionBookmarks _ _)) as [bms|]; [ | rewrite run_bind; discriminate ].
  rewrite run_bind.
  destruct (fst (callEv _ _ _)) as [stream|]; [ | rewrite run_bind; discriminate ].
  rewrite run_bind. simpl. intros H. injection H as <-. reflexivity.
Qed.



(** ** The history of the retry loop *)

Lemma hoare_bind {A B} (P : World -> Prop) (Q1 : A -> World -> Prop)
    (Q : B -> World -> Prop) (m : M A) (k : A -> M B) :
  hoare P m Q1 -> (forall a, hoare (Q1 a) (k a) Q) -> hoare P (bind m k) Q.
Proof.
  intros Hm Hk w HP. rewrite run_bind. apply Hk, Hm, HP.
Qed.

Lemma hoare_bind_inv {A B} (P : World -> Prop) (Q : B -> World -> Prop)
    (m : M A) (k : A -> M B) :
  inv P m -> (forall a, hoare P (k a) Q) -> hoare P (bind m k) Q.
Proof.
  intros Hm Hk w HP. rewrite run_bind. apply Hk, Hm, HP.
Qed.

Lemma failuresOf_snoc_other (t : list Event) (ev : Event) :
  isOnFailure ev = false -> failuresOf (t ++ [ev]) = failuresOf t.
Proof.
  intros H. unfold failuresOf. rewrite omap_app. simpl.
  destruct ev; try discriminate; simpl; apply app_nil_r.
Qed.

Lemma recorded_Tolerant l : Tolerant (recorded l).
Proof.
  constructor; unfold recorded; simpl; intros; auto.
  rewrite failuresOf_snoc_other; auto using basic_not, special_isOnFailure.
Qed.

Lemma recorded_EventOK sel l :
  (forall ev, sel ev = true -> isOnFailure ev = false) -> EventOK sel (recorded l).
Proof.
  intros H s e t ev Hev. unfold recorded; simpl. intros Hl.
  rewrite failuresOf_snoc_other; auto.
Qed.

Lemma recorded_ResolveOK l : ResolveOK (recorded l).
Proof.
  apply ResolveOK_of.
  - apply recorded_Tolerant.
  - apply recorded_EventOK. intros []; simpl; congruence.
  - intros s e t H; split; intros; exact H.
Qed.

Lemma inv_getConnection_recorded l ctx mode thr :
  inv (recorded l) (getConnection bolt drv ctx mode thr).
Proof.
  apply inv_getConnection.
  - apply recorded_Tolerant.
  - apply recorded_ResolveOK.
  - apply recorded_EventOK. intros []; simpl; congruence.
Qed.


Lemma hoare_failed ctx0 mode0 (st : State) ctx conn err flag
    (x : bool * option Value) (l : list error) :
  sessionState ctx0 mode0 st ->
  hoare (recorded l)
    (bind (stateOnFailure drv st ctx conn err flag) (fun st' => ret (x, st')))
    (fun r w' => recorded (l ++ [err]) w' /\
                 snd r = with_failure st err (flag || isRetryable drv err)).
Proof.
  intros Hst w HP. rewrite run_bind. simpl.
  split; [ | apply stateOnFailure_records ].
  unfold stateOnFailure. rewrite run_bind.
  apply (inv_OnFailure (recorded (l ++ [err])) (recorded_Tolerant _) ctx0 mode0 st); auto.
  unfold recorded, emit, failuresOf in *; simpl. rewrite omap_app, HP. reflexivity.
Qed.

(** One attempt continues the history. *)
Lemma attempt_history ctx0 mode0 ctx mode config (st : State) filters work X (w : World) :
  sessionState ctx0 mode0 st -> history X st w ->
  let r := executeTransactionFunction bolt drv ctx mode config st filters work w in
  history X (snd (fst r)) (snd r).
Proof.
  intros Hst [Hrec Hlast] r. subst r.
  set (Q := fun (r : bool * option Value * State) (w' : World) =>
              history X (snd r) w').
  assert (Hfail : forall c conn err flag (x : bool * option Value),
             hoare (recorded (X ++ Errs st))
               (bind (stateOnFailure drv st c conn err flag) (fun st' => ret (x, st'))) Q).
  { intros c conn err flag x w0 H0.
    destruct (hoare_failed ctx0 mode0 st c conn err flag x _ Hst w0 H0) as [H1 H2].
    unfold Q, history. rewrite H2. simpl. split.
    - unfold recorded in H1. rewrite H1, app_assoc. reflexivity.
    - symmetry. apply last_snoc. }
  pose proof (recorded_Tolerant (X ++ Errs st)) as HT.
  change (Q (fst (executeTransactionFunction bolt drv ctx mode config st filters work w))
            (snd (executeTransactionFunction bolt drv ctx mode config st filters work w))).
  revert w Hrec. change (hoare (recorded (X ++ Errs st))
                           (executeTransactionFunction bolt drv ctx mode config st filters work) Q).
  unfold executeTransactionFunction.
  apply hoare_bind_inv; [ apply inv_getConnection_recorded | intros [conn|err] ];
    [ | apply Hfail ].
  apply (hoare_bind _ Q).
  - apply hoare_bind_inv; [ apply inv_transactionBookmarks, HT | intros [bms|err] ];
      [ | apply Hfail ].
    apply hoare_bind_inv; [ apply inv_getS | intros s ].
    apply hoare_bind_inv; [ apply inv_callEv_basic; auto | intros [h|err] ];
      [ | apply Hfail ].
    apply hoare_bind_inv; [ apply inv_callEv_basic; auto | intros [x|err] ];
      [ | apply Hfail ].
    apply hoare_bind_inv; [ apply inv_callEv_basic; auto | intros [err|] ];
      [ apply Hfail | ].
    apply hoare_bind_inv; [ apply inv_retrieveBookmarks, HT | intros rbk ].
    apply hoare_bind_inv;
      [ destruct rbk; [ apply inv_Warnf, HT | apply inv_ret ] | intros _ ].
    intros w0 H0. split; [ exact H0 | exact Hlast ].
  - intros out w0 [H0 H1]. rewrite !run_bind. simpl. split; [ | exact H1 ].
    apply (inv_poolReturn _ (recorded_Tolerant _)), H0.
Qed.

Lemma run_Continue (st : State) (w : World) :
  Continue st w =
  match LastErr st with
  | None => ((true, with_start st (stNow st (env w))), w)
  | Some _ =>
      if negb (LastErrWasRetryable st) then ((false, st), w)
      else if stNow st (env w) - stStart st <? stMaxTransactionRetryTime st
           then ((true, st),
                 mkWorld (sess w) (stSleep st (stThrottle st) (env w))
                   (trace w ++ [EvSleep (stThrottle st)]))
           else ((false, st), w)
  end.
Proof.
  unfold Continue. destruct w as [s e t]. destruct (LastErr st); [ | reflexivity ].
  destruct (negb (LastErrWasRetryable st)); [ reflexivity | ].
  rewrite run_bind, run_call. simpl.
  destruct (_ <? _); reflexivity.
Qed.

(** When the loop stops, the history of its state is the list of the
    failures recorded since it started, the last error is the last of them,
    and a last error that was retryable means that the budget is spent. *)
Lemma retryLoop_history ctx0 mode0 ctx mode config filters work X fuel :
  forall (st : State) (w : World),
    sessionState ctx0 mode0 st -> history X st w ->
    forall st' wl,
      retryLoop bolt drv fuel ctx mode config filters work st w = (Some (LoopStopped st'), wl) ->
      history X st' wl /\ LastErr st' <> None /\
      (LastErrWasRetryable st' = true ->
       stMaxTransactionRetryTime st' <= stNow st' (env wl) - stStart st').
Proof.
  induction fuel as [|fuel IH]; intros st w Hst Hh st' wl Hloop; [ discriminate | ].
  assert (Hgo : forall (st1 : State) (w1 : World),
             sessionState ctx0 mode0 st1 -> history X st1 w1 ->
             bind (executeTransactionFunction bolt drv ctx mode config st1 filters work)
               (fun r => if fst (fst r)
                         then retryLoop bolt drv fuel ctx mode config filters work (snd r)
                         else ret (Some (LoopResult (snd (fst r))))) w1 =
             (Some (LoopStopped st'), wl) ->
             history X st' wl /\ LastErr st' <> None /\
             (LastErrWasRetryable st' = true ->
              stMaxTransactionRetryTime st' <= stNow st' (env wl) - stStart st')).
  { intros st1 w1 Hst1 Hh1. rewrite run_bind.
    pose proof (attempt_history ctx0 mode0 ctx mode config st1 filters work X w1 Hst1 Hh1) as Ha.
    pose proof (returns_executeTransactionFunction ctx0 mode0 ctx mode config st1 filters work
                  Hst1 w1) as Hr.
    simpl in Ha, Hr.
    destruct (fst (executeTransactionFunction bolt drv ctx mode config st1 filters work w1))
      as [[b x] st2]; simpl in *.
    destruct b; intros Hl.
    - exact (IH _ _ Hr Ha _ _ Hl).
    - discriminate. }
  simpl in Hloop. rewrite run_bind, run_Continue in Hloop.
  destruct (LastErr st) as [e|] eqn:HL.
  - destruct (LastErrWasRetryable st) eqn:HR; simpl in Hloop.
    + destruct (stNow st (env w) - stStart st <? stMaxTransactionRetryTime st) eqn:Hb;
        simpl in Hloop.
      * refine (Hgo st _ Hst _ Hloop).
        destruct Hh as [H1 H2]. split; [ | exact H2 ].
        simpl. rewrite failuresOf_snoc_other; auto.
      * injection Hloop as <- <-. split; [ exact Hh | split ]; [ congruence | ].
        intros _. apply Z.ltb_ge in Hb. exact Hb.
    + injection Hloop as <- <-. split; [ exact Hh | split ]; congruence.
  - simpl in Hloop. exact (Hgo (with_start st (stNow st (env w))) w Hst Hh Hloop).
Qed.


Lemma extends_Tolerant t0 : Tolerant (extends t0).
Proof.
  constructor; unfold extends; simpl; intros; auto.
  destruct H0 as [d Hd]. exists (d ++ [ev]). rewrite Hd, app_assoc. reflexivity.
Qed.

Lemma extends_EventOK sel t0 : EventOK sel (extends t0).
Proof.
  intros s e t ev _ [d Hd]. simpl in Hd. exists (d ++ [ev]); simpl.
  rewrite Hd, app_assoc. reflexivity.
Qed.

Lemma extends_ResolveOK t0 : ResolveOK (extends t0).
Proof.
  apply ResolveOK_of.
  - apply extends_Tolerant.
  - apply extends_EventOK.
  - intros s e t H; split; intros; exact H.
Qed.

Lemma selected_ResolveOK sel l :
  (forall ev, sel ev = true -> isBasic ev = false) ->
  (forall ev, isLookup ev = true -> sel ev = false) ->
  ResolveOK (selected sel l).
Proof.
  intros H1 H2. apply ResolveOK_of.
  - apply selected_Tolerant, H1.
  - apply selected_EventOK, H2.
  - apply selected_DbOK.
Qed.

Lemma failuresOf_app (t1 t2 : list Event) :
  failuresOf (t1 ++ t2) = failuresOf t1 ++ failuresOf t2.
Proof. unfold failuresOf. apply omap_app. Qed.

Lemma loggedErrors_none (d : list Event) :
  List.filter isLogError d = [] -> loggedErrors d = [].
Proof.
  induction d as [|ev d IH]; [ reflexivity | ].
  simpl. destruct (isLogError ev) eqn:E; [ discriminate | ].
  intros H. unfold loggedErrors in *. simpl.
  destruct ev as [[] []| | | | | | | | | | | | | | | | | | | |];
    try discriminate; simpl; auto.
Qed.

Lemma loggedErrors_snoc (d : list Event) (err : error) :
  List.filter isLogError d = [] ->
  loggedErrors (d ++ [EvLog LError (LogErr err)]) = [err].
Proof.
  intros H. unfold loggedErrors. rewrite omap_app.
  fold (loggedErrors d). rewrite (loggedErrors_none d H). reflexivity.
Qed.

(** The flag of the retry state is about its last failure only: when it is
    not set, that failure was not classified as retryable. *)
Lemma returns_stateOnFailure_flag (st : State) ctx conn err flag :
  returns (fun st' : State =>
             LastErrWasRetryable st' = false ->
             forall e, LastErr st' = Some e -> isRetryable drv e = false)
    (stateOnFailure drv st ctx conn err flag).
Proof.
  unfold stateOnFailure, OnFailure. repeat returns_step.
  simpl. intros H e He. injection He; intros <-.
  apply orb_false_iff in H. apply H.
Qed.

Lemma returns_executeTransactionFunction_flag ctx mode config (st : State) filters work :
  (LastErrWasRetryable st = false ->
   forall e, LastErr st = Some e -> isRetryable drv e = false) ->
  returns (fun r =>
             LastErrWasRetryable (snd r) = false ->
             forall e, LastErr (snd r) = Some e -> isRetryable drv e = false)
    (executeTransactionFunction bolt drv ctx mode config st filters work).
Proof.
  intros Hst. unfold executeTransactionFunction.
  set (Q := fun st' : State =>
              LastErrWasRetryable st' = false ->
              forall e, LastErr st' = Some e -> isRetryable drv e = false).
  assert (Hfail : forall c conn err flag (x : bool * option Value),
             returns (fun r : bool * option Value * State => Q (snd r))
               (bind (stateOnFailure drv st c conn err flag) (fun st' => ret (x, st')))).
  { intros. apply (returns_bind_ret Q); [ apply returns_stateOnFailure_flag | ].
    intros st' Hst'; apply returns_ret; exact Hst'. }
  apply returns_bind; intros [conn|err]; [ | apply Hfail ].
  apply (returns_bind_ret (fun r : bool * option Value * State => Q (snd r))).
  - repeat first [ apply Hfail | returns_step ]. exact Hst.
  - intros out Hout. repeat returns_step. exact Hout.
Qed.

Lemma retryLoop_flag fuel ctx mode config filters work : forall (st : State),
  (LastErrWasRetryable st = false ->
   forall e, LastErr st = Some e -> isRetryable drv e = false) ->
  returns (fun out =>
             match out with
             | Some (LoopStopped st') =>
                 LastErrWasRetryable st' = false ->
                 forall e, LastErr st' = Some e -> isRetryable drv e = false
             | _ => True
             end)
    (retryLoop bolt drv fuel ctx mode config filters work st).
Proof.
  induction fuel as [|fuel IH]; intros st Hst w; simpl; [ exact I | ].
  rewrite run_bind, run_Continue.
  assert (Hgo : forall (st1 : State) (w1 : World),
             (LastErrWasRetryable st1 = false ->
              forall e, LastErr st1 = Some e -> isRetryable drv e = false) ->
             match
               fst (bind (executeTransactionFunction bolt drv ctx mode config st1 filters work)
                      (fun r => if fst (fst r)
                                then retryLoop bolt drv fuel ctx mode config filters work (snd r)
                                else ret (Some (LoopResult (snd (fst r))))) w1)
             with
             | Some (LoopStopped st') =>
                 LastErrWasRetryable st' = false ->
                 forall e, LastErr st' = Some e -> isRetryable drv e = false
             | _ => True
             end).
  { intros st1 w1 Hst1. rewrite run_bind.
    pose proof (returns_executeTransactionFunction_flag ctx mode config st1 filters work
                  Hst1 w1) as Hr.
    simpl in Hr. revert Hr.
    destruct (fst (executeTransactionFunction bolt drv ctx mode config st1 filters work w1))
      as [[b x] st2]; simpl. intros Hr.
    destruct b; [ exact (IH _ Hr _) | exact I ]. }
  destruct (LastErr st) as [e|] eqn:HL.
  - destruct (LastErrWasRetryable st) eqn:HR; simpl.
    + destruct (stNow st (env w) - stStart st <? stMaxTransactionRetryTime st); simpl.
      * apply Hgo. rewrite HR. discriminate.
      * rewrite HR. discriminate.
    + rewrite HR, HL. exact Hst.
  - simpl. apply Hgo. simpl. rewrite HL. discriminate.
Qed.

(** C2, as amended: how [runRetriable] ends when its loop stops without a
    result.  The history of the retry state is then the list of the failures
    of all the attempts, in order, and the last error is the last of them.
    What decides is the last failure alone: if it was retryable the budget
    is spent, and the error returned is the retry limit error made of the
    whole history, which is logged; otherwise it was not classified as
    retryable and it is returned once wrapped, whatever failures came before
    it, and it is logged only if it is a usage or a connectivity error.  The
    loop itself logs no error, so the errors [runRetriable] logs are usage,
    connectivity and retry limit errors only. *)
Theorem retry_loop_stops_with_error :
  forall fuel ctx mode work cs (w : World) filters,
    explicitTx (sess w) = None ->
    notificationFilterRawValuesOf drv (notificationFilters (sess w)) = Ok filters ->
    let config := applyConfigurers cs defaultTransactionConfig in
    validateTransactionConfig config = None ->
    let w1 := match autocommitTx (sess w) with
              | Some tx => snd (autocommitTransaction_done bolt drv tx ctx w)
              | None => w
              end in
    forall (st : State) (wl : World),
      retryLoop bolt drv fuel ctx mode config filters work (retryState (sess w) ctx mode) w1 =
        (Some (LoopStopped st), wl) ->
      exists d lastErr,
        trace wl = trace w1 ++ d /\
        Errs st = failuresOf d /\
        last (failuresOf d) = Some lastErr /\
        LastErr st = Some lastErr /\
        List.filter isLogError d = [] /\
        (LastErrWasRetryable st = true ->
         stMaxTransactionRetryTime st <= stNow st (env wl) - stStart st) /\
        runRetriable bolt drv fuel ctx mode work cs w =
          (if LastErrWasRetryable st
           then
             let err := TransactionExecutionLimit (failuresOf d) (Causes st) in
             (Some (Err err), addEvent wl (EvLog LError (LogErr err)))
           else
             let err := wrapError drv lastErr in
             (Some (Err err),
              if driverError err then addEvent wl (EvLog LError (LogErr err)) else wl)) /\
        (exists d',
            trace (snd (runRetriable bolt drv fuel ctx mode work cs w)) = trace w1 ++ d' /\
            Forall (fun e => sessionLogged e = true) (loggedErrors d')) /\
        (LastErrWasRetryable st = false -> isRetryable drv lastErr = false).
Proof.
  intros fuel ctx mode work cs w filters He Hnf config Hval w1 st wl Hloop.
  assert (Hst0 : sessionState ctx mode (retryState (sess w) ctx mode)) by reflexivity.
  (* the trace grows *)
  assert (Hext : extends (trace w1) wl).
  { pose proof (inv_retryLoop (extends (trace w1)) (extends_Tolerant _) (extends_ResolveOK _)
                  (extends_EventOK _ _) (extends_EventOK _ _)
                  ctx mode fuel ctx mode config filters work _ Hst0 w1) as H.
    rewrite Hloop in H. apply H. exists []. symmetry. apply app_nil_r. }
  destruct Hext as [d Hd].
  (* the loop logs no error *)
  assert (Hlog : List.filter isLogError (trace wl) = List.filter isLogError (trace w1)).
  { pose proof (inv_retryLoop (selected isLogError (List.filter isLogError (trace w1)))
                  (selected_Tolerant isLogError _ special_isLogError)
                  (selected_ResolveOK isLogError _ special_isLogError
                     ltac:(intros []; simpl; congruence))
                  (selected_EventOK isLogError isBorrow _ ltac:(intros []; simpl; congruence))
                  (selected_EventOK isLogError isOnFailure _
                     ltac:(intros []; simpl; congruence))
                  ctx mode fuel ctx mode config filters work _ Hst0 w1) as H.
    rewrite Hloop in H. apply H. reflexivity. }
  (* the history *)
  destruct (retryLoop_history ctx mode ctx mode config filters work (failuresOf (trace w1))
              fuel _ w1 Hst0) with (st' := st) (wl := wl) as ([Hh1 Hh2] & Hne & Hbudget).
  { split; simpl; [ symmetry; apply app_nil_r | reflexivity ]. }
  { exact Hloop. }
  rewrite Hd, failuresOf_app in Hh1. apply app_inv_head in Hh1.
  rewrite Hd, List.filter_app in Hlog.
  rewrite <- (app_nil_r (List.filter isLogError (trace w1))) in Hlog at 2.
  apply app_inv_head in Hlog.
  destruct (LastErr st) as [lastErr|] eqn:HL; [ | congruence ].
  exists d, lastErr.
  split; [ exact Hd | ]. split; [ symmetry; exact Hh1 | ].
  split; [ rewrite Hh1; symmetry; exact Hh2 | ].
  split; [ reflexivity | ]. split; [ exact Hlog | ]. split; [ exact Hbudget | ].
  assert (E1 : snd ((match autocommitTx (sess w) with
                     | Some tx => autocommitTransaction_done bolt drv tx ctx
                     | None => ret tt
                     end) w) = w1)
    by (subst w1; destruct (autocommitTx (sess w)); reflexivity).
  assert (Hrun :
            runRetriable bolt drv fuel ctx mode work cs w =
            (if LastErrWasRetryable st
             then
               let err := TransactionExecutionLimit (failuresOf d) (Causes st) in
               (Some (Err err), addEvent wl (EvLog LError (LogErr err)))
             else
               let err := wrapError drv lastErr in
               (Some (Err err),
                if driverError err then addEvent wl (EvLog LError (LogErr err)) else wl))).
  { unfold runRetriable. rewrite bind_getS, He. rewrite run_bind, E1.
    rewrite Hnf. fold config. rewrite Hval.
    rewrite (bind_eq _ _ _ _ _ Hloop). simpl.
    destruct (LastErrWasRetryable st).
    - rewrite Hh1. reflexivity.
    - rewrite HL. simpl.
      destruct (wrapError drv lastErr); reflexivity. }
  split; [ exact Hrun | ].
  split.
  2:{ intros Hflag.
      pose proof (retryLoop_flag fuel ctx mode config filters work
                    (retryState (sess w) ctx mode) ltac:(simpl; discriminate) w1) as Hfl.
      rewrite Hloop in Hfl. simpl in Hfl. exact (Hfl Hflag lastErr HL). }
  rewrite Hrun.
  destruct (LastErrWasRetryable st); simpl.
  - eexists (d ++ [_]). split; [ rewrite Hd, app_assoc; reflexivity | ].
    rewrite (loggedErrors_snoc d _ Hlog). repeat constructor.
  - destruct (driverError (wrapError drv lastErr)) eqn:Hdrv; simpl.
    + eexists (d ++ [_]). split; [ rewrite Hd, app_assoc; reflexivity | ].
      rewrite (loggedErrors_snoc d _ Hlog). repeat constructor.
      destruct (wrapError drv lastErr); simpl in *; congruence.
    + exists d. split; [ exact Hd | ].
      rewrite (loggedErrors_none d Hlog). constructor.
Qed.


(** ** The calls of a computation and what it does to the session *)

Local Abbreviation effect := (@effect Env Ctx Value).
Local Abbreviation keepsTx := (@keepsTx Env Ctx Value).
Local Abbreviation anySession := (@anySession Env Ctx Value).
Local Abbreviation onlyResolves := (@onlyResolves Env Ctx Value).
Local Abbreviation committed := (@committed Env Ctx Value).
Local Abbreviation balanced := (@balanced Env Ctx Value).
Local Abbreviation balancedAt := (@balancedAt Env Ctx Value).

#[local] Instance keepsTx_PreOrder : PreOrder keepsTx.
Proof.
  split.
  - intros s; split; reflexivity.
  - intros s1 s2 s3 [H1 H2] [H3 H4]; split; congruence.
Qed.

#[local] Instance onlyResolves_PreOrder : PreOrder onlyResolves.
Proof.
  split.
  - intros s; repeat split.
  - intros s1 s2 s3 (H1 & H2 & H3 & H4) (H5 & H6 & H7 & H8).
    unfold onlyResolves. repeat split; congruence.
Qed.

#[local] Instance anySession_PreOrder : PreOrder anySession.
Proof. split; [ intros s | intros s1 s2 s3 _ _ ]; exact I. Qed.

Section Effects.

Variable R : relation (@sessionWithContext Env Ctx Value).
Context `{!PreOrder R}.
Variable ok : Kind -> bool.

Lemma effect_ret {A} (a : A) : effect R ok (ret a).
Proof.
  intros w; split; [ reflexivity | exists []; split; [ symmetry; apply app_nil_r | constructor ] ].
Qed.

Lemma effect_getS : effect R ok getS.
Proof.
  intros w; split; [ reflexivity | exists []; split; [ symmetry; apply app_nil_r | constructor ] ].
Qed.

Lemma effect_call {A} (f : Ext A) : effect R ok (call f).
Proof.
  intros w. rewrite run_call; simpl.
  split; [ reflexivity | exists []; split; [ symmetry; apply app_nil_r | constructor ] ].
Qed.

Lemma effect_emit (ev : Event) : ok (kindOf ev) = true -> effect R ok (emit ev).
Proof.
  intros Hev w; simpl. split; [ reflexivity | ].
  exists [ev]; split; [ reflexivity | repeat constructor; exact Hev ].
Qed.

Lemma effect_setS (f : sessionWithContext -> sessionWithContext) :
  (forall s, R s (f s)) -> effect R ok (setS f).
Proof.
  intros Hf w; simpl. split; [ apply Hf | ].
  exists []; split; [ symmetry; apply app_nil_r | constructor ].
Qed.

Lemma effect_bind {A B} (m : M A) (k : A -> M B) :
  effect R ok m -> (forall a, effect R ok (k a)) -> effect R ok (bind m k).
Proof.
  intros Hm Hk w. rewrite run_bind.
  destruct (Hm w) as (H1 & d1 & H2 & H3).
  destruct (Hk (fst (m w)) (snd (m w))) as (H4 & d2 & H5 & H6).
  split; [ etransitivity; eassumption | ].
  exists (d1 ++ d2). split.
  - rewrite H5, H2. symmetry; apply app_assoc.
  - apply Forall_app; split; assumption.
Qed.

Lemma effect_callEv {A} (f : Ext A) (ev : A -> Event) :
  (forall a, ok (kindOf (ev a)) = true) -> effect R ok (callEv f ev).
Proof.
  intros Hev. unfold callEv.
  apply effect_bind; [ apply effect_call | intros a ].
  apply effect_bind; [ apply effect_emit, Hev | intros _; apply effect_ret ].
Qed.

End Effects.

Lemma effect_mono {A} (R R' : relation (@sessionWithContext Env Ctx Value))
    (ok ok' : Kind -> bool) (m : M A) :
  (forall s s', R s s' -> R' s s') -> (forall k, ok k = true -> ok' k = true) ->
  effect R ok m -> effect R' ok' m.
Proof.
  intros HR Hok Hm w. destruct (Hm w) as (H1 & d & H2 & H3).
  split; [ apply HR, H1 | ].
  exists d; split; [ exact H2 | ].
  unfold allOf in *. eapply Forall_impl; [ exact H3 | ]. intros ev; apply Hok.
Qed.

Ltac eff_unfold :=
  cbv beta zeta iota delta
    [AccessMode_eqb Debugf Warnf logError replaceSessionBookmarks replaceBookmarks allBookmarks
     routingBookmarks transactionBookmarks retrieveBookmarks retrieveSessionBookmarks
     resolveHomeDatabase getServers poolReturn withAcquisitionTimeout getConnection
     explicit_onClosed explicitTransaction_Close explicitTransaction_Commit
     autocommit_afterConsume autocommit_onClosed autocommitTransaction_done
     autocommitTransaction_discard onDeadConnection stateOnFailure OnFailure Continue
     LastBookmarks getServerInfo].

Ltac eff_step :=
  lazymatch goal with
  | |- effect _ _ (bind _ _) => apply effect_bind; [ exact _ | | intros ? ]
  | |- effect _ _ (ret _) => apply effect_ret; exact _
  | |- effect _ _ getS => apply effect_getS; exact _
  | |- effect _ _ (call _) => apply effect_call; exact _
  | |- effect _ _ (callEv _ _) => apply effect_callEv; [ exact _ | intros; reflexivity ]
  | |- effect _ _ (emit _) => apply effect_emit; [ exact _ | reflexivity ]
  | |- effect _ _ (setS _) =>
      apply effect_setS; intros; first [ exact I | repeat split ]
  | |- effect _ _ (match ?x with _ => _ end) => destruct x
  end.

Ltac eff_auto := eff_unfold; repeat eff_step.

(** The helpers that neither borrow nor return a connection and leave the
    transaction fields alone. *)
Lemma quiet_transactionBookmarks ctx : effect keepsTx notPool (transactionBookmarks ctx).
Proof. eff_auto. Qed.

Lemma quiet_retrieveBookmarks ctx conn sent :
  effect keepsTx notPool (retrieveBookmarks bolt ctx conn sent).
Proof. eff_auto. Qed.

Lemma quiet_resolveHomeDatabase ctx : effect keepsTx notPool (resolveHomeDatabase ctx).
Proof. eff_auto. Qed.

Lemma quiet_getServers ctx mode : effect keepsTx notPool (getServers ctx mode).
Proof. eff_auto. Qed.

Lemma quiet_withAcquisitionTimeout ctx : effect keepsTx notPool (withAcquisitionTimeout drv ctx).
Proof. eff_auto. Qed.

Lemma quiet_autocommit_afterConsume res :
  effect keepsTx notPool (autocommit_afterConsume bolt drv res).
Proof. eff_auto. Qed.

Lemma quiet_stateOnFailure ctx0 mode0 (st : State) ctx conn err flag :
  sessionState ctx0 mode0 st ->
  effect keepsTx notPool (stateOnFailure drv st ctx conn err flag).
Proof. intros Hst. unfold stateOnFailure, OnFailure. rewrite Hst. eff_auto. Qed.

Lemma quiet_Continue (st : State) : effect keepsTx notPool (Continue st).
Proof. eff_auto. Qed.

Lemma quiet_LastBookmarks : effect keepsTx notPool (LastBookmarks bolt).
Proof. eff_auto. Qed.

(** ** The connections borrowed, returned and held *)

Lemma hoare_ret {A} (P : World -> Prop) (a : A) (Q : A -> World -> Prop) :
  (forall w, P w -> Q a w) -> hoare P (ret a) Q.
Proof. intros H w HP. apply H, HP. Qed.

Lemma hoare_getS_fact {B} (P : World -> Prop) (k : sessionWithContext -> M B)
    (Q : B -> World -> Prop) :
  (forall s, (exists w, P w /\ sess w = s) -> hoare P (k s) Q) -> hoare P (bind getS k) Q.
Proof.
  intros H w HP. rewrite bind_getS. apply (H (sess w)); eauto.
Qed.

Lemma hoare_inv {A} (P : World -> Prop) (m : M A) : inv P m -> hoare P m (fun _ => P).
Proof. intros H w HP. apply H, HP. Qed.

Lemma allOf_notPool (t d : list Event) :
  allOf notPool d -> borrowed (t ++ d) = borrowed t /\ returned (t ++ d) = returned t.
Proof.
  unfold borrowed, returned. induction 1 as [|ev d Hev _ IH].
  - rewrite app_nil_r. split; reflexivity.
  - rewrite !List.filter_app in *. simpl.
    assert (E : isBorrowOk ev = false /\ isReturn ev = false).
    { destruct ev as [[]| ? ? ? []| | | | | | | | | | | | | | | | | | |];
        simpl in Hev; try discriminate; split; reflexivity. }
    destruct E as [-> ->]. exact IH.
Qed.

Lemma balancedAt_fact k x y (s : sessionWithContext) :
  (exists w, balancedAt k x y w /\ sess w = s) -> explicitTx s = x /\ autocommitTx s = y.
Proof. intros (w & (_ & H1 & H2) & <-). split; assumption. Qed.

(** What leaves the pool and the transaction fields alone keeps the
    balance. *)
Lemma quiet_inv {A} (m : M A) k x y :
  effect keepsTx notPool m -> inv (balancedAt k x y) m.
Proof.
  intros Hm w (Hb & Hx & Hy).
  destruct (Hm w) as ((H1 & H2) & d & H3 & H4).
  destruct (allOf_notPool (trace w) d H4) as [H5 H6].
  unfold balancedAt, balanced, held in *.
  rewrite H3, H5, H6, H1, H2. auto.
Qed.

Lemma bal_poolReturn ctx c k x y :
  hoare (balancedAt k x y) (poolReturn ctx c) (fun _ => balancedAt (k - 1) x y).
Proof.
  intros [s e t] (Hb & Hx & Hy). unfold poolReturn. rewrite bind_getS, run_callEv; simpl.
  unfold balancedAt, balanced, borrowed, returned in *; simpl in *.
  rewrite !List.filter_app, !length_app; simpl. split; [ lia | auto ].
Qed.

Lemma bal_borrow (f : Ext (result Connection)) servers wait thr k x y :
  hoare (balancedAt k x y) (callEv f (EvBorrow servers wait thr))
    (fun r => balancedAt (k + got r) x y).
Proof.
  intros [s e t] (Hb & Hx & Hy). rewrite run_callEv; simpl.
  unfold balancedAt, balanced, borrowed, returned in *; simpl in *.
  rewrite !List.filter_app, !length_app; simpl.
  destruct (fst (f e)); simpl; (split; [ lia | auto ]).
Qed.

Lemma bal_setExplicit x' k x y :
  hoare (balancedAt k x y) (setS (fun s => with_explicitTx s x'))
    (fun _ => balancedAt (k + holds x - holds x') x' y).
Proof.
  intros [s e t] (Hb & Hx & Hy).
  unfold balancedAt, balanced, held in *; simpl in *. subst x y.
  split; [ lia | auto ].
Qed.

Lemma bal_setAutocommit y' k x y :
  hoare (balancedAt k x y) (setS (fun s => with_autocommitTx s y'))
    (fun _ => balancedAt (k + holds y - holds y') x y').
Proof.
  intros [s e t] (Hb & Hx & Hy).
  unfold balancedAt, balanced, held in *; simpl in *. subst x y.
  split; [ lia | auto ].
Qed.

Ltac bal_final :=
  let w := fresh "w" in
  let H1 := fresh "H" in let H2 := fresh "H" in let H3 := fresh "H" in
  intros w (H1 & H2 & H3);
  unfold balancedAt, balanced, got, holds in *; simpl in *;
  split; [ lia | split; assumption ].

Ltac bal_quiet :=
  apply quiet_inv;
  solve [ eapply quiet_stateOnFailure; eassumption | eff_auto ].

Ltac bal_step :=
  lazymatch goal with
  | |- hoare _ (bind getS _) _ =>
      let s := fresh "s" in let Hs := fresh "Hs" in
      apply hoare_getS_fact; intros s Hs; apply balancedAt_fact in Hs
  | |- hoare _ (bind (poolReturn _ _) _) _ =>
      eapply hoare_bind; [ apply bal_poolReturn | intros ? ]
  | |- hoare _ (bind (callEv _ (EvBorrow _ _ _)) _) _ =>
      eapply hoare_bind; [ apply bal_borrow | intros [?|?] ]
  | |- hoare _ (bind (setS (fun s => with_explicitTx s _)) _) _ =>
      eapply hoare_bind; [ apply bal_setExplicit | intros ? ]
  | |- hoare _ (bind (setS (fun s => with_autocommitTx s _)) _) _ =>
      eapply hoare_bind; [ apply bal_setAutocommit | intros ? ]
  | |- hoare _ (bind (bind _ _) _) _ => fail "nested"
  | |- hoare _ (bind _ _) _ =>
      apply hoare_bind_inv; [ bal_quiet | intros ? ]
  | |- hoare _ (match ?x with _ => _ end) _ => destruct x
  | |- hoare _ (ret _) _ => apply hoare_ret; bal_final
  end.

Ltac bal_auto := repeat (cbv beta zeta; bal_step).

Lemma bal_getConnection ctx mode thr k x y :
  hoare (balancedAt k x y) (getConnection bolt drv ctx mode thr)
    (fun r => balancedAt (k + got r) x y).
Proof.
  unfold getConnection. bal_auto.
Qed.

Ltac bal_with lem :=
  eapply hoare_bind; [ apply lem | intros ? ].

Lemma bal_explicit_onClosed tx k x0 y :
  hoare (balancedAt k (Some x0) y) (explicit_onClosed bolt tx)
    (fun _ => balancedAt k None y).
Proof. unfold explicit_onClosed. bal_auto. Qed.

Lemma bal_explicitTransaction_Close tx ctx k x0 y :
  hoare (balancedAt k (Some x0) y) (explicitTransaction_Close bolt tx ctx)
    (fun _ => balancedAt k None y).
Proof.
  unfold explicitTransaction_Close. bal_auto.
  bal_with bal_explicit_onClosed. bal_auto.
Qed.

Lemma bal_explicitTransaction_Commit tx ctx k x0 y :
  hoare (balancedAt k (Some x0) y) (explicitTransaction_Commit bolt tx ctx)
    (fun _ => balancedAt k None y).
Proof.
  unfold explicitTransaction_Commit. bal_auto.
  bal_with bal_explicit_onClosed. bal_auto.
Qed.

Lemma bal_autocommit_onClosed tx k x y0 :
  hoare (balancedAt k x (Some y0)) (autocommit_onClosed tx)
    (fun _ => balancedAt k x None).
Proof.
  unfold autocommit_onClosed. bal_auto.
  intros w Hw. apply (bal_setAutocommit None (k - 1) x (Some y0)) in Hw.
  revert Hw. generalize (snd (setS (fun s => with_autocommitTx s None) w)). bal_final.
Qed.

Lemma bal_done tx ctx k x y0 :
  hoare (balancedAt k x (Some y0)) (autocommitTransaction_done bolt drv tx ctx)
    (fun _ => balancedAt k x None).
Proof.
  unfold autocommitTransaction_done. bal_auto. apply bal_autocommit_onClosed.
Qed.

Lemma bal_discard tx ctx k x y0 :
  hoare (balancedAt k x (Some y0)) (autocommitTransaction_discard bolt drv tx ctx)
    (fun _ => balancedAt k x None).
Proof.
  unfold autocommitTransaction_discard. bal_auto. apply bal_autocommit_onClosed.
Qed.

Lemma hoare_post {A} (P : World -> Prop) (Q Q' : A -> World -> Prop) (m : M A) :
  hoare P m Q -> (forall a w, Q a w -> Q' a w) -> hoare P m Q'.
Proof. intros H HQ w HP. apply HQ, H, HP. Qed.

Lemma bal_getServerInfo ctx k x y :
  inv (balancedAt k x y) (getServerInfo bolt drv ctx).
Proof.
  cut (hoare (balancedAt k x y) (getServerInfo bolt drv ctx) (fun _ => balancedAt k x y)).
  { intros H w Hw. apply H, Hw. }
  unfold getServerInfo. bal_auto.
Qed.

Lemma bal_executeTransactionFunction ctx0 mode0 ctx mode config st filters work k x y :
  sessionState ctx0 mode0 st ->
  inv (balancedAt k x y) (executeTransactionFunction bolt drv ctx mode config st filters work).
Proof.
  intros Hst.
  cut (hoare (balancedAt k x y)
         (executeTransactionFunction bolt drv ctx mode config st filters work)
         (fun _ => balancedAt k x y)).
  { intros H w Hw. apply H, Hw. }
  unfold executeTransactionFunction.
  bal_with bal_getConnection. destruct a as [conn|err]; [ | bal_auto ].
  apply (hoare_bind _ (fun _ => balancedAt (k + 1) x y)).
  - bal_auto.
  - intros out. bal_auto.
Qed.

Lemma bal_retryLoop ctx0 mode0 fuel ctx mode config filters work k x y : forall st,
  sessionState ctx0 mode0 st ->
  inv (balancedAt k x y) (retryLoop bolt drv fuel ctx mode config filters work st).
Proof.
  induction fuel as [|fuel IH]; intros st Hst; simpl.
  - apply inv_ret.
  - apply (inv_bind_ret _ (fun cs => sessionState ctx0 mode0 (snd cs))).
    + apply quiet_inv, quiet_Continue.
    + apply returns_Continue, Hst.
    + intros [b st1] Hst1; simpl in *. destruct b; [ | apply inv_ret ].
      apply (inv_bind_ret _ (fun r => sessionState ctx0 mode0 (snd r))).
      * apply (bal_executeTransactionFunction ctx0 mode0), Hst1.
      * apply returns_executeTransactionFunction, Hst1.
      * intros [[b2 x2] st2] Hst2; simpl in *. destruct b2; [ apply IH, Hst2 | apply inv_ret ].
Qed.

(** The pending autocommit transaction, if any, is finalized. *)
Lemma bal_finalize (y : option autocommitTransaction) ctx k x :
  hoare (balancedAt k x y)
    (match y with
     | Some tx => autocommitTransaction_done bolt drv tx ctx
     | None => ret tt
     end)
    (fun _ => balancedAt k x None).
Proof.
  destruct y as [tx|]; [ apply bal_done | apply hoare_ret; auto ].
Qed.

Lemma bal_runRetriable fuel ctx mode work cs k y :
  hoare (balancedAt k None y) (runRetriable bolt drv fuel ctx mode work cs)
    (fun _ => balancedAt k None None).
Proof.
  unfold runRetriable. bal_step. destruct Hs as [-> ->].
  bal_with bal_finalize.
  destruct (notificationFilterRawValuesOf drv _); [ | bal_auto ].
  cbv zeta. destruct (validateTransactionConfig _); [ bal_auto | ].
  apply hoare_bind_inv; [ apply (bal_retryLoop ctx mode); reflexivity | intros out ].
  bal_auto.
Qed.

Lemma bal_BeginTransaction ctx cs k y :
  hoare (balancedAt k None y) (BeginTransaction bolt drv ctx cs)
    (fun r => balancedAt k (match r with Ok tx => Some tx | Err _ => None end) None).
Proof.
  unfold BeginTransaction. bal_step. destruct Hs as [-> ->].
  bal_with bal_finalize.
  destruct (notificationFilterRawValuesOf drv _); [ | bal_auto ].
  cbv zeta. destruct (validateTransactionConfig _); [ bal_auto | ].
  bal_with bal_getConnection. bal_auto.
Qed.

Lemma bal_Run ctx cypher params cs k y :
  hoare (balancedAt k None y) (Run bolt drv ctx cypher params cs)
    (fun r => balancedAt k None
                (match r with
                 | Ok res => Some {| atx_conn := Some (res_conn res); atx_res := res |}
                 | Err _ => None
                 end)).
Proof.
  unfold Run. bal_step. destruct Hs as [-> ->].
  bal_with bal_finalize.
  destruct (notificationFilterRawValuesOf drv _); [ | bal_auto ].
  cbv zeta. destruct (validateTransactionConfig _); [ bal_auto | ].
  bal_with bal_getConnection. bal_auto.
Qed.

Lemma bal_Close poolFirst ctx k x y :
  hoare (balancedAt k x y) (Close bolt drv poolFirst ctx) (fun _ => balancedAt k None None).
Proof.
  unfold Close. bal_step. destruct Hs as [Hx _]. rewrite Hx.
  apply (hoare_bind _ (fun _ => balancedAt k None y)).
  { destruct x as [tx|]; [ apply hoare_post with (1 := bal_explicitTransaction_Close tx ctx k tx y); auto
                         | apply hoare_ret; auto ]. }
  intros txErr. bal_step. destruct Hs as [_ ->].
  apply (hoare_bind _ (fun _ => balancedAt k None None)).
  { destruct y as [tx|]; [ apply bal_discard | apply hoare_ret; auto ]. }
  intros _. bal_step.
  apply (hoare_bind _ (fun _ => balancedAt k None None)).
  { destruct poolFirst; bal_auto. }
  intros errs. bal_auto.
Qed.

Lemma balanced_balancedAt k (w : World) :
  balanced k w <-> balancedAt k (explicitTx (sess w)) (autocommitTx (sess w)) w.
Proof. unfold balancedAt. tauto. Qed.

Lemma balancedAt_balanced k x y (w : World) : balancedAt k x y w -> balanced k w.
Proof. intros H; apply H. Qed.

Lemma balanced_addEvent k (w : World) (ev : Event) :
  notPool (kindOf ev) = true -> balanced k w -> balanced k (addEvent w ev).
Proof.
  intros Hev Hw. unfold balanced, addEvent in *; simpl.
  destruct (allOf_notPool (trace w) [ev]) as [-> ->]; [ | exact Hw ].
  repeat constructor. exact Hev.
Qed.

Lemma bal_runOp op k : inv (balanced k) (runOp bolt drv op).
Proof.
  intros w Hw. pose proof Hw as Hw'. apply balanced_balancedAt in Hw'.
  destruct op; simpl; unfold ExecuteRead, ExecuteWrite; rewrite run_bind; simpl.
  - eapply balancedAt_balanced, quiet_inv; [ apply quiet_LastBookmarks | exact Hw' ].
  - destruct (explicitTx (sess w)) as [tx|] eqn:He.
    + rewrite (BeginTransaction_guard tx _ _ _ He). apply balanced_addEvent; auto.
    + eapply balancedAt_balanced, bal_BeginTransaction, Hw'.
  - destruct (explicitTx (sess w)) as [tx|] eqn:He.
    + rewrite (runRetriable_guard tx _ _ _ _ _ _ He). exact Hw.
    + eapply balancedAt_balanced, bal_runRetriable, Hw'.
  - destruct (explicitTx (sess w)) as [tx|] eqn:He.
    + rewrite (runRetriable_guard tx _ _ _ _ _ _ He). exact Hw.
    + eapply balancedAt_balanced, bal_runRetriable, Hw'.
  - destruct (explicitTx (sess w)) as [tx|] eqn:He.
    + rewrite (Run_guard tx _ _ _ _ _ He). apply balanced_addEvent; auto.
    + eapply balancedAt_balanced, bal_Run, Hw'.
  - eapply balancedAt_balanced, bal_Close, Hw'.
  - eapply balancedAt_balanced, bal_getServerInfo, Hw'.
  - destruct (explicitTx (sess w)) as [tx|] eqn:He; [ | exact Hw ].
    rewrite run_bind; simpl.
    eapply balancedAt_balanced, bal_explicitTransaction_Commit, Hw'.
  - destruct (explicitTx (sess w)) as [tx|] eqn:He; [ | exact Hw ].
    rewrite run_bind; simpl.
    eapply balancedAt_balanced, bal_explicitTransaction_Close, Hw'.
Qed.

Lemma bal_runOps ops k : forall w : World, balanced k w -> balanced k (runOps bolt drv ops w).
Proof.
  induction ops as [|op ops IH]; intros w Hw; simpl; [ exact Hw | ].
  apply IH, bal_runOp, Hw.
Qed.

(** X1: the session accounts for every connection it borrows.  After any
    sequence of operations on a new session, the connections the pool handed
    out are those given back to it and one for each transaction the session
    holds open; once the session is closed it holds no transaction and every
    connection borrowed has been returned. *)
Theorem borrowed_connections_are_returned_or_held :
  forall ops cfg sc r p sl nw (e : Env),
    let w := runOps bolt drv ops (newWorld (newSessionWithContext cfg sc r p sl nw) e) in
    borrowed (trace w) = returned (trace w) + held (sess w) /\
    (forall poolFirst ctx,
        let w' := snd (Close bolt drv poolFirst ctx w) in
        noTx w' /\ borrowed (trace w') = returned (trace w')).
Proof.
  intros ops cfg sc r p sl nw e w.
  assert (Hw : balanced 0 w).
  { apply bal_runOps. unfold balanced; simpl. reflexivity. }
  split.
  - unfold balanced in Hw. lia.
  - intros poolFirst ctx w'. apply balanced_balancedAt in Hw.
    destruct (bal_Close poolFirst ctx _ _ _ _ Hw) as (H1 & H2 & H3).
    fold w' in H1, H2, H3. split; [ split; assumption | ].
    unfold balanced, held in H1. rewrite H2, H3 in H1. simpl in H1. lia.
Qed.

(** The connections in use: borrowed and not returned. *)
Lemma balancedAt_here (w : World) :
  balancedAt (borrowed (trace w) - returned (trace w) - held (sess w))
    (explicitTx (sess w)) (autocommitTx (sess w)) w.
Proof. unfold balancedAt, balanced. repeat split; lia. Qed.

(** X2: what [BeginTransaction] leaves behind when no explicit transaction
    is open.  The session holds the transaction returned, and none when an
    error is returned; the pending autocommit transaction is gone in either
    case, its connection given back; and the call keeps one connection when
    it succeeds, none when it fails. *)
Theorem BeginTransaction_holds_what_it_returns :
  forall ctx cs (w : World),
    explicitTx (sess w) = None ->
    let r := BeginTransaction bolt drv ctx cs w in
    explicitTx (sess (snd r)) = (match fst r with Ok tx => Some tx | Err _ => None end) /\
    autocommitTx (sess (snd r)) = None /\
    borrowed (trace (snd r)) - returned (trace (snd r)) =
      borrowed (trace w) - returned (trace w) - holds (autocommitTx (sess w)) + got (fst r).
Proof.
  intros ctx cs w He r.
  pose proof (balancedAt_here w) as Hw. rewrite He in Hw.
  apply (bal_BeginTransaction ctx cs) in Hw. fold r in Hw.
  destruct Hw as (H1 & H2 & H3). split; [ exact H2 | split; [ exact H3 | ] ].
  unfold balanced, held in H1. rewrite H2, H3, He in H1.
  destruct (fst r); unfold got, holds in *; simpl in *; lia.
Qed.

(** X3: what [Run] leaves behind when no explicit transaction is open.  The
    session holds an autocommit transaction on the cursor returned, and none
    when an error is returned: an autocommit transaction that was pending is
    gone in either case, its connection given back; no explicit transaction
    appears; and the call keeps one connection when it succeeds, none when it
    fails. *)
Theorem Run_holds_what_it_returns :
  forall ctx cypher params cs (w : World),
    explicitTx (sess w) = None ->
    let r := Run bolt drv ctx cypher params cs w in
    explicitTx (sess (snd r)) = None /\
    autocommitTx (sess (snd r)) =
      (match fst r with
       | Ok res => Some {| atx_conn := Some (res_conn res); atx_res := res |}
       | Err _ => None
       end) /\
    borrowed (trace (snd r)) - returned (trace (snd r)) =
      borrowed (trace w) - returned (trace w) - holds (autocommitTx (sess w)) + got (fst r).
Proof.
  intros ctx cypher params cs w He r.
  pose proof (balancedAt_here w) as Hw. rewrite He in Hw.
  apply (bal_Run ctx cypher params cs) in Hw. fold r in Hw.
  destruct Hw as (H1 & H2 & H3). split; [ exact H2 | split; [ exact H3 | ] ].
  unfold balanced, held in H1. rewrite H2, H3, He in H1.
  destruct (fst r); unfold got, holds in *; simpl in *; lia.
Qed.

(** X4: a managed transaction leaves nothing behind.  When no explicit
    transaction is open, [runRetriable] (that is [ExecuteRead] and
    [ExecuteWrite]) leaves the session without any transaction, however it
    ends and however many attempts it made, and it has given back every
    connection it borrowed, and that of the autocommit transaction that was
    pending. *)
Theorem runRetriable_leaves_no_transaction :
  forall fuel ctx mode work cs (w : World),
    explicitTx (sess w) = None ->
    let r := runRetriable bolt drv fuel ctx mode work cs w in
    noTx (snd r) /\
    borrowed (trace (snd r)) - returned (trace (snd r)) =
      borrowed (trace w) - returned (trace w) - holds (autocommitTx (sess w)).
Proof.
  intros fuel ctx mode work cs w He r.
  pose proof (balancedAt_here w) as Hw. rewrite He in Hw.
  apply (bal_runRetriable fuel ctx mode work cs) in Hw. fold r in Hw.
  destruct Hw as (H1 & H2 & H3). split; [ split; assumption | ].
  unfold balanced, held in H1. rewrite H2, H3, He in H1.
  unfold holds in *; simpl in *; lia.
Qed.

(** ** The calls of each operation *)

Lemma borrowed_app (t d : list Event) : borrowed (t ++ d) = borrowed t + borrowed d.
Proof. unfold borrowed. rewrite List.filter_app, length_app. lia. Qed.

Lemma returned_app (t d : list Event) : returned (t ++ d) = returned t + returned d.
Proof. unfold returned. rewrite List.filter_app, length_app. lia. Qed.

Lemma effect_getServerInfo ctx :
  effect onlyResolves serverInfoKinds (getServerInfo bolt drv ctx).
Proof. eff_auto. Qed.

(** X5: [getServerInfo] is transparent to the session.  It leaves the
    transactions and the bookmarks of the session as they are, whatever the
    default access mode it asks the router for readers only, it begins and
    runs nothing, and it gives back the connection it borrows. *)
Theorem getServerInfo_is_transparent :
  forall ctx (w : World),
    let w' := snd (getServerInfo bolt drv ctx w) in
    explicitTx (sess w') = explicitTx (sess w) /\
    autocommitTx (sess w') = autocommitTx (sess w) /\
    bookmarks (sess w') = bookmarks (sess w) /\
    exists d, trace w' = trace w ++ d /\ allOf serverInfoKinds d /\
              borrowed d = returned d.
Proof.
  intros ctx w w'.
  destruct (effect_getServerInfo ctx w) as ((H1 & H2 & H3 & _) & d & H4 & H5).
  fold w' in H1, H2, H3, H4.
  repeat (split; [ assumption | ]).
  exists d. repeat (split; [ assumption | ]).
  destruct (bal_getServerInfo ctx _ _ _ w (balancedAt_here w)) as (H6 & _).
  fold w' in H6. unfold balanced, held in H6.
  rewrite H1, H2, H4, borrowed_app, returned_app in H6. lia.
Qed.

Lemma effect_bind_ret {A B} R `{!PreOrder R} ok (Q : A -> Prop) (m : M A) (k : A -> M B) :
  effect R ok m -> returns Q m -> (forall a, Q a -> effect R ok (k a)) ->
  effect R ok (bind m k).
Proof.
  intros Hm HQ Hk w. rewrite run_bind.
  destruct (Hm w) as (H1 & d1 & H2 & H3).
  destruct (Hk (fst (m w)) (HQ w) (snd (m w))) as (H4 & d2 & H5 & H6).
  split; [ etransitivity; eassumption | ].
  exists (d1 ++ d2). split.
  - rewrite H5, H2. symmetry; apply app_assoc.
  - apply Forall_app; split; assumption.
Qed.

Lemma effect_executeTransactionFunction ctx mode config st filters work :
  sessionState ctx mode st ->
  effect anySession (retriableKinds mode)
    (executeTransactionFunction bolt drv ctx mode config st filters work).
Proof.
  intros Hst. unfold executeTransactionFunction, stateOnFailure, OnFailure.
  rewrite Hst. destruct mode; eff_auto.
Qed.

Lemma effect_retryLoop fuel ctx mode config filters work : forall st,
  sessionState ctx mode st ->
  effect anySession (retriableKinds mode)
    (retryLoop bolt drv fuel ctx mode config filters work st).
Proof.
  induction fuel as [|fuel IH]; intros st Hst; simpl.
  - apply effect_ret; exact _.
  - apply (effect_bind_ret _ _ (fun cs => sessionState ctx mode (snd cs))).
    + destruct mode; eff_auto.
    + apply returns_Continue, Hst.
    + intros [b st1] Hst1; simpl in *. destruct b; [ | apply effect_ret; exact _ ].
      apply (effect_bind_ret _ _ (fun r => sessionState ctx mode (snd r))).
      * apply effect_executeTransactionFunction, Hst1.
      * apply returns_executeTransactionFunction, Hst1.
      * intros [[b2 x2] st2] Hst2; simpl in *.
        destruct b2; [ apply IH, Hst2 | apply effect_ret; exact _ ].
Qed.

Lemma effect_runRetriable fuel ctx mode work cs :
  effect anySession (retriableKinds mode) (runRetriable bolt drv fuel ctx mode work cs).
Proof.
  unfold runRetriable.
  apply effect_bind; [ exact _ | apply effect_getS; exact _ | intros s ].
  destruct (explicitTx s); [ apply effect_ret; exact _ | ].
  apply effect_bind; [ exact _ | destruct mode; eff_auto | intros _ ].
  destruct (notificationFilterRawValuesOf drv _); [ | apply effect_ret; exact _ ].
  cbv zeta. destruct (validateTransactionConfig _); [ apply effect_ret; exact _ | ].
  apply effect_bind; [ exact _ | apply effect_retryLoop; reflexivity | intros out ].
  destruct mode; eff_auto.
Qed.

(** X6: a managed transaction talks to the servers of its own mode.
    Whatever the default access mode of the session, [ExecuteRead] asks the
    router for readers and invalidates readers only, [ExecuteWrite] for
    writers and writers only; neither rolls a transaction back, runs an
    autocommit query, or cleans the pool or the router up. *)
Theorem managed_transactions_use_their_own_mode :
  forall fuel ctx work cs (w : World),
    (exists d, trace (snd (ExecuteRead bolt drv fuel ctx work cs w)) = trace w ++ d /\
               allOf (retriableKinds ReadMode) d) /\
    (exists d, trace (snd (ExecuteWrite bolt drv fuel ctx work cs w)) = trace w ++ d /\
               allOf (retriableKinds WriteMode) d).
Proof.
  intros fuel ctx work cs w. unfold ExecuteRead, ExecuteWrite. split.
  - apply (effect_runRetriable fuel ctx ReadMode work cs w).
  - apply (effect_runRetriable fuel ctx WriteMode work cs w).
Qed.

Lemma effect_run {A} ok (m : M A) (w : World) :
  effect anySession ok m -> exists d, trace (snd (m w)) = trace w ++ d /\ allOf ok d.
Proof. intros H. apply (H w). Qed.

(** X7: an explicit or an autocommit transaction talks to the servers of
    the session's default access mode.  [BeginTransaction] and [Run] ask the
    router for readers when the session's default mode is read and for
    writers otherwise, and for nothing else; [BeginTransaction] runs no
    query and [Run] begins no transaction; neither commits, rolls back,
    invalidates a server, sleeps or cleans up. *)
Theorem session_transactions_use_the_default_mode :
  forall ctx cs cypher params (w : World),
    (exists d, trace (snd (BeginTransaction bolt drv ctx cs w)) = trace w ++ d /\
               allOf (sessionTxKinds KTxBegin (defaultMode (sess w))) d) /\
    (exists d, trace (snd (Run bolt drv ctx cypher params cs w)) = trace w ++ d /\
               allOf (sessionTxKinds KRun (defaultMode (sess w))) d).
Proof.
  intros ctx cs cypher params w. split.
  - unfold BeginTransaction. rewrite bind_getS. generalize (sess w); intros s.
    apply effect_run. destruct (defaultMode s); eff_auto.
  - unfold Run. rewrite bind_getS. generalize (sess w); intros s.
    apply effect_run. destruct (defaultMode s); eff_auto.
Qed.

(** X8: no operation changes the configuration of the session: the
    driver configuration, the default access mode, the impersonated user,
    the pool, the router, the clock, the throttle time, the fetch size and
    the notification filters are after any sequence of operations what they
    were. *)
Theorem operations_keep_the_configuration :
  forall ops (w : World),
    configuration (sess (runOps bolt drv ops w)) = configuration (sess w).
Proof.
  intros ops w.
  set (P := fun w' : World => configuration (sess w') = configuration (sess w)).
  assert (HT : Tolerant P) by (constructor; unfold P; simpl; intros; assumption).
  assert (HE : forall sel, EventOK sel P) by (intros sel s e t ev _ H; exact H).
  apply (inv_runOps P HT); auto.
  - apply ResolveOK_of; auto. intros s e t H; split; intros; exact H.
  - intros s e t tx H; exact H.
  - intros s e t tx H; exact H.
  - reflexivity.
Qed.

Lemma hoare_any_bind {A B} (m : M A) (k : A -> M B) (Q : B -> World -> Prop) :
  (forall a, hoare (fun _ => True) (k a) Q) -> hoare (fun _ => True) (bind m k) Q.
Proof. intros Hk w _. rewrite run_bind. apply Hk. exact I. Qed.

(** X9: the connection [getConnection] hands out is the one the pool has
    just lent, and it points to the session's database: when the database
    name is not the default one, the connection is a database selector and
    the selection of that database on it is the last call made. *)
Theorem getConnection_selects_the_database :
  forall ctx mode thr (w w' : World) conn,
    getConnection bolt drv ctx mode thr w = (Ok conn, w') ->
    exists t servers wait,
      (databaseName (sess w') = DefaultDatabase drv /\
       trace w' = t ++ [EvBorrow servers wait thr (Ok conn)]) \/
      (databaseName (sess w') <> DefaultDatabase drv /\
       isDatabaseSelector conn = true /\
       trace w' = t ++ [EvBorrow servers wait thr (Ok conn);
                        EvSelectDatabase conn (databaseName (sess w'))]).
Proof.
  intros ctx mode thr w w' conn H.
  cut (hoare (fun _ => True) (getConnection bolt drv ctx mode thr)
         (fun r w' => match r with
                      | Err _ => True
                      | Ok conn =>
                          exists t servers wait,
                            (databaseName (sess w') = DefaultDatabase drv /\
                             trace w' = t ++ [EvBorrow servers wait thr (Ok conn)]) \/
                            (databaseName (sess w') <> DefaultDatabase drv /\
                             isDatabaseSelector conn = true /\
                             trace w' = t ++ [EvBorrow servers wait thr (Ok conn);
                                              EvSelectDatabase conn (databaseName (sess w'))])
                      end)).
  { intros Hh. specialize (Hh w I). rewrite H in Hh. exact Hh. }
  clear. unfold getConnection.
  apply hoare_any_bind; intros s. cbv zeta.
  apply hoare_any_bind; intros ctx'.
  apply hoare_any_bind; intros [err|]; [ intros w _; exact I | ].
  apply hoare_any_bind; intros [servers|err]; [ | intros w _; exact I ].
  set (wait := negb (ConnectionAcquisitionTimeout (config s) =? 0)).
  apply (hoare_bind _ (fun r (w1 : World) =>
           match r with
           | Ok conn => exists t, trace w1 = t ++ [EvBorrow servers wait thr (Ok conn)]
           | Err _ => True
           end)).
  { intros w _. rewrite run_callEv. simpl.
    destruct (fst (Borrow _ _ _ _ _ _)); [ eexists; reflexivity | exact I ]. }
  intros [conn|err]; [ | intros w _; exact I ].
  intros w [t Ht]. rewrite bind_getS. cbv beta.
  destruct (String.eqb_spec (databaseName (sess w)) (DefaultDatabase drv)) as [Heq|Hne];
    cbv beta iota delta [negb].
  - exists t, servers, wait. left. split; [ exact Heq | exact Ht ].
  - destruct (isDatabaseSelector conn) eqn:Hsel.
    + cbv iota. rewrite !run_bind; simpl.
      exists t, servers, wait.
      right. split; [ exact Hne | split; [ exact Hsel | ] ].
      rewrite Ht, <- app_assoc. reflexivity.
    + cbv iota. rewrite run_bind; simpl. exact I.
Qed.

(** ** A result means a commit *)

Lemma committed_effect {A} (m : M A) x :
  effect anySession afterCommitKinds m -> inv (committed x) m.
Proof.
  intros Hm w (t & c & h & d & Ht & Hd).
  destruct (Hm w) as (_ & d' & Ht' & Hd').
  exists t, c, h, (d ++ d'). split.
  - rewrite Ht', Ht, <- !app_assoc. reflexivity.
  - apply Forall_app; split; assumption.
Qed.

(** An attempt that does not ask for another one has committed. *)
Lemma executeTransactionFunction_committed ctx mode config st filters work :
  hoare (fun _ => True) (executeTransactionFunction bolt drv ctx mode config st filters work)
    (fun r w' => fst (fst r) = false -> committed (snd (fst r)) w').
Proof.
  set (Q := fun (r : bool * option Value * State) (w' : World) =>
              fst (fst r) = false -> committed (snd (fst r)) w').
  assert (Hfail : forall (P : World -> Prop) c conn err flag,
             hoare P (bind (stateOnFailure drv st c conn err flag)
                           (fun st' => ret (true, None, st'))) Q).
  { intros P c conn err flag w _. rewrite run_bind. simpl. intros Hf; discriminate Hf. }
  unfold executeTransactionFunction.
  apply hoare_any_bind; intros [conn|err]; [ | apply Hfail ].
  apply (hoare_bind _ Q).
  2:{ intros out. intros w Hw. rewrite run_bind. simpl. intros Hout.
      apply (committed_effect (poolReturn ctx conn)); [ eff_auto | apply Hw, Hout ]. }
  apply hoare_any_bind; intros [beginBookmarks|err]; [ | apply Hfail ].
  apply hoare_any_bind; intros s. cbv zeta.
  apply hoare_any_bind; intros [txHandle|err]; [ | apply Hfail ].
  apply (hoare_bind _ (fun rw (w1 : World) =>
           exists t, trace w1 = t ++ [EvWork conn txHandle rw])).
  { intros w _. rewrite run_callEv. simpl. eexists; reflexivity. }
  intros [x|err]; [ | apply Hfail ].
  apply (hoare_bind _ (fun rcm (w2 : World) =>
           exists t, trace w2 = t ++ [EvWork conn txHandle (Ok x); EvTxCommit conn txHandle rcm])).
  { intros w [t Ht]. rewrite run_callEv. simpl. exists t.
    rewrite Ht, <- app_assoc. reflexivity. }
  intros [err|]; [ apply Hfail | ].
  intros w [t Ht].
  set (m := bind (retrieveBookmarks bolt ctx (Some conn) beginBookmarks) _).
  assert (Hv : fst (fst (fst (m w))) = false /\ snd (fst (fst (m w))) = x).
  { unfold m. rewrite !run_bind. simpl. split; reflexivity. }
  destruct Hv as [Hv1 Hv2].
  assert (Hc : committed x (snd (m w))).
  { apply (committed_effect m).
    - unfold m. eff_auto.
    - exists t, conn, txHandle, []. rewrite app_nil_r. split; [ exact Ht | constructor ]. }
  rewrite <- Hv2 in Hc. intros _. exact Hc.
Qed.

Lemma Continue_stops_on_failure (st : State) (w : World) :
  fst (fst (Continue st w)) = false -> LastErr (snd (fst (Continue st w))) <> None.
Proof.
  unfold Continue. destruct (LastErr st) as [e|] eqn:He.
  - destruct (negb (LastErrWasRetryable st)); simpl.
    + intros _. rewrite He. discriminate.
    + rewrite run_bind. simpl.
      destruct (_ <? _); [ rewrite !run_bind; simpl; discriminate | simpl ].
      intros _. rewrite He. discriminate.
  - rewrite run_bind. simpl. discriminate.
Qed.

Lemma retryLoop_committed fuel ctx mode config filters work : forall st,
  hoare (fun _ => True) (retryLoop bolt drv fuel ctx mode config filters work st)
    (fun out w' => match out with
                   | Some (LoopResult x) => committed x w'
                   | Some (LoopStopped st') => LastErr st' <> None
                   | None => True
                   end).
Proof.
  induction fuel as [|fuel IH]; intros st w _; simpl; [ exact I | ].
  rewrite run_bind.
  pose proof (Continue_stops_on_failure st w) as Hc.
  destruct (fst (Continue st w)) as [b st1]; simpl in *.
  destruct b; [ | apply Hc; reflexivity ].
  rewrite run_bind.
  pose proof (executeTransactionFunction_committed ctx mode config st1 filters work
                (snd (Continue st w)) I) as He.
  destruct (fst (executeTransactionFunction _ _ _ _ _ _ _ _ _)) as [[b2 x2] st2]; simpl in *.
  destruct b2; [ apply IH; exact I | apply He; reflexivity ].
Qed.

(** X10: a result means a commit.  When [runRetriable] (that is
    [ExecuteRead] or [ExecuteWrite]) returns a result and no error, the
    result is what the last call of the work returned, the commit that
    followed it on the same transaction succeeded, and nothing came after it
    but the merge of the bookmark and the return of the connection. *)
Theorem a_result_means_a_commit :
  forall fuel ctx mode work cs (w : World) x,
    fst (runRetriable bolt drv fuel ctx mode work cs w) = Some (Ok x) ->
    committed x (snd (runRetriable bolt drv fuel ctx mode work cs w)).
Proof.
  intros fuel ctx mode work cs w x.
  cut (hoare (fun _ => True) (runRetriable bolt drv fuel ctx mode work cs)
         (fun r w' => forall x, r = Some (Ok x) -> committed x w')).
  { intros H Hr. apply (H w I), Hr. }
  clear. unfold runRetriable.
  assert (Hno : forall (P : World -> Prop) {A} (m : M A) (r : option (result (option Value))),
             (forall x, r <> Some (Ok x)) ->
             hoare P (bind m (fun _ => ret r)) (fun r w' => forall x, r = Some (Ok x) -> committed x w')).
  { intros P A m r Hr w _. rewrite run_bind. simpl. intros x Hx. destruct (Hr x Hx). }
  assert (Hno' : forall (P : World -> Prop) (r : option (result (option Value))),
             (forall x, r <> Some (Ok x)) ->
             hoare P (ret r) (fun r w' => forall x, r = Some (Ok x) -> committed x w')).
  { intros P r Hr w _. simpl. intros x Hx. destruct (Hr x Hx). }
  apply hoare_any_bind; intros s.
  destruct (explicitTx s); [ apply Hno'; discriminate | ].
  apply hoare_any_bind; intros _.
  destruct (notificationFilterRawValuesOf drv _); [ | apply Hno'; discriminate ].
  cbv zeta. destruct (validateTransactionConfig _); [ apply Hno'; discriminate | ].
  eapply hoare_bind; [ apply retryLoop_committed | ].
  intros [[x|st]|]; simpl.
  - intros w Hw y Hy. simpl in Hy. injection Hy; intros <-. exact Hw.
  - destruct (LastErrWasRetryable st); [ apply Hno; discriminate | ].
    destruct (LastErr st) as [lastErr|]; [ apply Hno; discriminate | ].
    intros w Hw. destruct Hw. reflexivity.
  - apply Hno'; discriminate.
Qed.

(** ** What a transaction is started with *)

(** X11: a transaction starts as configured.  When [BeginTransaction]
    succeeds, the last call made is the begin of the transaction returned, on
    its connection, with the session's default access mode and impersonated
    user, the session's notification filters, the timeout and the metadata
    the configurers left in a configuration that passed the validation, and
    the bookmarks the transaction keeps for its closing; the transaction has
    the fetch size of the session and no error.  When [Run] succeeds, the last
    call made is the run of the query on the cursor's connection, with the
    same configuration and the session's fetch size. *)
Theorem transactions_start_as_configured :
  (forall ctx cs (w : World) tx,
      fst (BeginTransaction bolt drv ctx cs w) = Ok tx ->
      let txConfig := applyConfigurers cs defaultTransactionConfig in
      exists t filters,
        trace (snd (BeginTransaction bolt drv ctx cs w)) =
          t ++ [EvTxBegin (etx_conn tx)
                  {| txMode := defaultMode (sess w);
                     txBookmarks := etx_beginBookmarks tx;
                     txTimeout := Timeout txConfig;
                     txMeta := Metadata txConfig;
                     txImpersonatedUser := impersonatedUser (sess w);
                     txNotificationFilters := filters |}
                  (Ok (etx_txHandle tx))] /\
        notificationFilterRawValuesOf drv (notificationFilters (sess w)) = Ok filters /\
        validateTransactionConfig txConfig = None /\
        etx_fetchSize tx = fetchSize (sess w) /\ etx_err tx = None /\ etx_ctx tx = ctx) /\
  (forall ctx cypher params cs (w : World) res,
      fst (Run bolt drv ctx cypher params cs w) = Ok res ->
      let txConfig := applyConfigurers cs defaultTransactionConfig in
      exists t filters,
        trace (snd (Run bolt drv ctx cypher params cs w)) =
          t ++ [EvRun (res_conn res)
                  {| Cypher := cypher; Params := params; cmdFetchSize := fetchSize (sess w) |}
                  {| txMode := defaultMode (sess w);
                     txBookmarks := res_runBookmarks res;
                     txTimeout := Timeout txConfig;
                     txMeta := Metadata txConfig;
                     txImpersonatedUser := impersonatedUser (sess w);
                     txNotificationFilters := filters |}
                  (Ok (res_stream res))] /\
        notificationFilterRawValuesOf drv (notificationFilters (sess w)) = Ok filters /\
        validateTransactionConfig txConfig = None /\
        res_cypher res = cypher /\ res_params res = params /\ res_ctx res = ctx).
Proof.
  split.
  - intros ctx cs w tx. unfold BeginTransaction. rewrite bind_getS. cbv beta zeta.
    generalize (sess w). intros s. revert tx.
    match goal with
    | |- forall tx, fst (?m w) = Ok tx -> @?Q tx =>
        cut (hoare (fun _ => True) m
               (fun r w' => forall tx, r = Ok tx ->
                  exists t filters,
                    trace w' =
                      t ++ [EvTxBegin (etx_conn tx)
                              {| txMode := defaultMode s;
                                 txBookmarks := etx_beginBookmarks tx;
                                 txTimeout := Timeout (applyConfigurers cs defaultTransactionConfig);
                                 txMeta := Metadata (applyConfigurers cs defaultTransactionConfig);
                                 txImpersonatedUser := impersonatedUser s;
                                 txNotificationFilters := filters |}
                              (Ok (etx_txHandle tx))] /\
                    notificationFilterRawValuesOf drv (notificationFilters s) = Ok filters /\
                    validateTransactionConfig (applyConfigurers cs defaultTransactionConfig) = None /\
                    etx_fetchSize tx = fetchSize s /\ etx_err tx = None /\ etx_ctx tx = ctx));
          [ intros H; exact (H w I) | ]
    end.
    assert (Hno : forall {A} (m : M A) e Q,
               hoare (fun _ => True) (bind m (fun _ => ret (Err e)))
                 (fun (r : result explicitTransaction) w' => forall tx, r = Ok tx -> Q tx w')).
    { intros A m e Q w0 _. rewrite run_bind. simpl. discriminate. }
    assert (Hno' : forall e Q,
               hoare (fun _ => True) (ret (Err e) : M (result explicitTransaction))
                 (fun r w' => forall tx, r = Ok tx -> Q tx w')).
    { intros e Q w0 _. simpl. discriminate. }
    destruct (explicitTx s); [ apply Hno | ].
    apply hoare_any_bind; intros _.
    destruct (notificationFilterRawValuesOf drv _) as [filters|] eqn:Hf; [ | apply Hno' ].
    destruct (validateTransactionConfig _) eqn:Hv; [ apply Hno' | ].
    apply hoare_any_bind; intros [conn|err]; [ | apply Hno' ].
    apply hoare_any_bind; intros [beginBookmarks|err]; [ | apply Hno ].
    intros w0 _. rewrite run_bind, run_callEv. cbv beta.
    destruct (fst (TxBegin _ _ _ _ _)) as [h|err]; cbn [fst snd]; cbv beta iota;
      [ | rewrite run_bind; simpl; discriminate ].
    rewrite run_bind. simpl. intros tx Htx. injection Htx; intros <-. simpl.
    exists (trace w0), filters. repeat split.
  - intros ctx cypher params cs w res. unfold Run. rewrite bind_getS. cbv beta zeta.
    generalize (sess w). intros s. revert res.
    match goal with
    | |- forall res, fst (?m w) = Ok res -> @?Q res =>
        cut (hoare (fun _ => True) m
               (fun r w' => forall res, r = Ok res ->
                  exists t filters,
                    trace w' =
                      t ++ [EvRun (res_conn res)
                              {| Cypher := cypher; Params := params; cmdFetchSize := fetchSize s |}
                              {| txMode := defaultMode s;
                                 txBookmarks := res_runBookmarks res;
                                 txTimeout := Timeout (applyConfigurers cs defaultTransactionConfig);
                                 txMeta := Metadata (applyConfigurers cs defaultTransactionConfig);
                                 txImpersonatedUser := impersonatedUser s;
                                 txNotificationFilters := filters |}
                              (Ok (res_stream res))] /\
                    notificationFilterRawValuesOf drv (notificationFilters s) = Ok filters /\
                    validateTransactionConfig (applyConfigurers cs defaultTransactionConfig) = None /\
                    res_cypher res = cypher /\ res_params res = params /\ res_ctx res = ctx));
          [ intros H; exact (H w I) | ]
    end.
    assert (Hno : forall {A} (m : M A) e Q,
               hoare (fun _ => True) (bind m (fun _ => ret (Err e)))
                 (fun (r : result (@resultWithContext Ctx Value)) w' => forall res, r = Ok res -> Q res w')).
    { intros A m e Q w0 _. rewrite run_bind. simpl. discriminate. }
    assert (Hno' : forall e Q,
               hoare (fun _ => True) (ret (Err e) : M (result (@resultWithContext Ctx Value)))
                 (fun r w' => forall res, r = Ok res -> Q res w')).
    { intros e Q w0 _. simpl. discriminate. }
    destruct (explicitTx s); [ apply Hno | ].
    apply hoare_any_bind; intros _.
    destruct (notificationFilterRawValuesOf drv _) as [filters|] eqn:Hf; [ | apply Hno' ].
    destruct (validateTransactionConfig _) eqn:Hv; [ apply Hno' | ].
    apply hoare_any_bind; intros [conn|err]; [ | apply Hno' ].
    apply hoare_any_bind; intros [runBookmarks|err]; [ | apply Hno ].
    intros w0 _. rewrite run_bind, run_callEv. cbv beta.
    destruct (fst (connRun _ _ _ _ _ _)) as [stream|err]; cbn [fst snd]; cbv beta iota;
      [ | rewrite run_bind; simpl; discriminate ].
    rewrite run_bind. simpl. intros res Hres. injection Hres; intros <-. simpl.
    exists (trace w0), filters. repeat split.
Qed.

End Properties.

(** * Properties of the testkit backend *)

Lemma append_cons (c : Ascii.ascii) (s t : string) : String c s +:+ t = String c (s +:+ t).
Proof. reflexivity. Qed.

Lemma append_nil_r (s : string) : s +:+ "" = s.
Proof.
  induction s as [|c s IH]; [ reflexivity | rewrite append_cons, IH; reflexivity ].
Qed.

Lemma append_assoc (a b c : string) : (a +:+ b) +:+ c = a +:+ (b +:+ c).
Proof.
  induction a as [|x a IH]; [ reflexivity | rewrite !append_cons, IH; reflexivity ].
Qed.

Lemma isBodyLine_spec (line : string) :
  Backend.isBodyLine line = true ->
  String.eqb line Backend.requestBegin = false /\ String.eqb line Backend.requestEnd = false.
Proof.
  unfold Backend.isBodyLine. intros H. apply andb_prop in H. destruct H as [H1 H2].
  split; apply negb_true_iff; assumption.
Qed.

(** Inside a request the lines of the body are put together, up to the
    next marker. *)
Lemma processLoop_body (body rest : Backend.Reader) : forall request,
  Forall (fun line => Backend.isBodyLine line = true) body ->
  Backend.processLoop (body ++ rest) request true = Backend.processLoop rest (request +:+ Backend.joined body) true.
Proof.
  induction body as [|line body IH]; intros request Hb; simpl.
  - rewrite append_nil_r. reflexivity.
  - inversion Hb as [|? ? Hl Hb']; subst.
    destruct (isBodyLine_spec line Hl) as [-> ->]. simpl.
    rewrite IH by assumption. rewrite append_assoc. reflexivity.
Qed.

Lemma processLoop_request (rd : Backend.Reader) : forall request r rest,
  Backend.processLoop rd request true = Backend.Request r rest ->
  exists body, rd = body ++ Backend.requestEnd :: rest /\
               Forall (fun line => Backend.isBodyLine line = true) body /\
               r = request +:+ Backend.joined body.
Proof.
  induction rd as [|line rd IH]; intros request r rest H; simpl in H; [ discriminate | ].
  destruct (String.eqb_spec line Backend.requestBegin) as [|Hb]; [ discriminate | ].
  destruct (String.eqb_spec line Backend.requestEnd) as [->|He]; simpl in H.
  - injection H; intros <- <-. exists []. simpl. rewrite append_nil_r. auto.
  - destruct (IH _ _ _ H) as (body & -> & Hbody & ->).
    exists (line :: body). simpl. rewrite append_assoc. repeat split.
    constructor; [ | exact Hbody ].
    unfold Backend.isBodyLine.
    destruct (String.eqb_spec line Backend.requestBegin); [ contradiction | ].
    destruct (String.eqb_spec line Backend.requestEnd); [ contradiction | reflexivity ].
Qed.

Lemma processLoop_readError (rd : Backend.Reader) : forall request,
  Backend.processLoop rd request true = Backend.ReadError <->
  Forall (fun line => Backend.isBodyLine line = true) rd.
Proof.
  induction rd as [|line rd IH]; intros request; simpl.
  - split; [ constructor | reflexivity ].
  - unfold Backend.isBodyLine at 1.
    destruct (String.eqb_spec line Backend.requestBegin) as [|Hb]; simpl.
    { split; [ discriminate | ]. intros H; inversion H; subst.
      unfold Backend.isBodyLine in *. rewrite String.eqb_refl in *. discriminate. }
    destruct (String.eqb_spec line Backend.requestEnd) as [->|He]; simpl.
    { split; [ discriminate | ]. intros H; inversion H as [|? ? H1 H2]; subst.
      unfold Backend.isBodyLine in H1. rewrite String.eqb_refl, andb_false_r in H1. discriminate. }
    rewrite IH. split.
    + intros H. constructor; [ | exact H ].
      unfold Backend.isBodyLine.
      destruct (String.eqb_spec line Backend.requestBegin); [ contradiction | ].
      destruct (String.eqb_spec line Backend.requestEnd); [ contradiction | reflexivity ].
    + intros H; inversion H; assumption.
Qed.

(** X12: [process] reads exactly one frame.  It hands a request over
    exactly when the input starts with the begin marker, followed by lines
    that are no markers and by the end marker: the request is those lines put
    together and the reader is left right after the end marker.  It stops on
    a read error exactly when the input ends before a request has begun or
    in the middle of one, the lines read being dropped; a line before the
    begin marker and a begin marker inside a request make it panic. *)
Theorem process_reads_one_frame :
  (forall rd request rest,
      Backend.process rd = Backend.Request request rest <->
      exists body,
        rd = Backend.requestBegin :: body ++ Backend.requestEnd :: rest /\
        Forall (fun line => Backend.isBodyLine line = true) body /\
        request = Backend.joined body) /\
  (forall rd,
      Backend.process rd = Backend.ReadError <->
      rd = [] \/
      exists body, rd = Backend.requestBegin :: body /\
                   Forall (fun line => Backend.isBodyLine line = true) body) /\
  (forall line rd,
      line <> Backend.requestBegin ->
      Backend.process (line :: rd) =
        Backend.Panic (if String.eqb line Backend.requestEnd then "End while not in request"
               else "Line while not in request")) /\
  (forall body rd,
      Forall (fun line => Backend.isBodyLine line = true) body ->
      Backend.process (Backend.requestBegin :: body ++ Backend.requestBegin :: rd) = Backend.Panic "Already in request").
Proof.
  split; [ | split; [ | split ] ].
  - intros rd request rest. split.
    + destruct rd as [|line rd]; [ discriminate | ].
      unfold Backend.process; simpl.
      destruct (String.eqb_spec line Backend.requestBegin) as [->|Hb].
      * intros H. destruct (processLoop_request _ _ _ _ H) as (body & -> & Hbody & ->).
        exists body. auto.
      * destruct (String.eqb line Backend.requestEnd); discriminate.
    + intros (body & -> & Hbody & ->). unfold Backend.process; simpl.
      rewrite processLoop_body by assumption. reflexivity.
  - intros rd. split.
    + destruct rd as [|line rd]; [ auto | ].
      unfold Backend.process; simpl.
      destruct (String.eqb_spec line Backend.requestBegin) as [->|Hb].
      * intros H. right. exists rd. split; [ reflexivity | ].
        apply (processLoop_readError rd ""), H.
      * destruct (String.eqb line Backend.requestEnd); discriminate.
    + intros [->|(body & -> & Hbody)]; [ reflexivity | ].
      unfold Backend.process; simpl. apply processLoop_readError, Hbody.
  - intros line rd Hb. unfold Backend.process; simpl.
    destruct (String.eqb_spec line Backend.requestBegin); [ contradiction | ].
    destruct (String.eqb line Backend.requestEnd); reflexivity.
  - intros body rd Hbody. unfold Backend.process; simpl.
    rewrite processLoop_body by assumption. reflexivity.
Qed.

(** ** The ids *)

Lemma wrap64_add (a b : Z) : Backend.wrap64 (Backend.wrap64 a + b) = Backend.wrap64 (a + b).
Proof.
  unfold Backend.wrap64. f_equal.
  replace ((a + 2 ^ 63) mod 2 ^ 64 - 2 ^ 63 + b + 2 ^ 63)
    with ((a + 2 ^ 63) mod 2 ^ 64 + b) by lia.
  rewrite Zplus_mod_idemp_l. f_equal. lia.
Qed.

Lemma wrap64_apart (a d : Z) :
  0 < d < 2 ^ 64 -> Backend.wrap64 (a + d) <> Backend.wrap64 a.
Proof.
  intros Hd H. unfold Backend.wrap64 in H.
  assert (E : (a + d + 2 ^ 63) mod 2 ^ 64 = (a + 2 ^ 63) mod 2 ^ 64) by lia.
  assert (E' : d mod 2 ^ 64 = 0).
  { replace d with ((a + d + 2 ^ 63) - (a + 2 ^ 63)) by lia.
    rewrite Zminus_mod, E, Z.sub_diag. reflexivity. }
  rewrite Z.mod_small in E' by lia. lia.
Qed.

Lemma runIdCalls_nextId (calls : list Backend.IdCall) (b : Backend.backend) :
  Backend.runIdCalls (Backend.CallNextId :: calls) b =
  ((fst (Backend.nextId b), None) :: fst (Backend.runIdCalls calls (snd (Backend.nextId b))),
   snd (Backend.runIdCalls calls (snd (Backend.nextId b)))).
Proof. simpl. destruct (Backend.runIdCalls calls _); reflexivity. Qed.

Lemma runIdCalls_setError (calls : list Backend.IdCall) (err : error) (b : Backend.backend) :
  Backend.runIdCalls (Backend.CallSetError err :: calls) b =
  ((fst (Backend.setError err b), Some err)
     :: fst (Backend.runIdCalls calls (snd (Backend.setError err b))),
   snd (Backend.runIdCalls calls (snd (Backend.setError err b)))).
Proof. simpl. destruct (Backend.runIdCalls calls _); reflexivity. Qed.

(** The ids a sequence of calls hands out, from the counter it starts
    with. *)
Lemma runIdCalls_ids (calls : list Backend.IdCall) : forall b,
  map fst (fst (Backend.runIdCalls calls b)) =
  map (fun k => pretty (Backend.wrap64 (Backend.id b + Z.of_nat k + 1)))
      (seq 0 (length calls)).
Proof.
  induction calls as [|call calls IH]; intros b; [ reflexivity | ].
  assert (Hnext : forall b1,
            Backend.id b1 = Backend.wrap64 (Backend.id b + 1) ->
            map fst (fst (Backend.runIdCalls calls b1)) =
            map (fun k => pretty (Backend.wrap64 (Backend.id b + Z.of_nat k + 1)))
                (seq 1 (length calls))).
  { intros b1 Hb1. rewrite IH, <- seq_shift, map_map.
    apply map_ext. intros k. rewrite Hb1.
    replace (Backend.wrap64 (Backend.id b + 1) + Z.of_nat k + 1)
      with (Backend.wrap64 (Backend.id b + 1) + (Z.of_nat k + 1)) by lia.
    rewrite wrap64_add. do 2 f_equal. lia. }
  destruct call as [|err];
    [ rewrite runIdCalls_nextId | rewrite runIdCalls_setError ];
    cbn [fst snd map seq length]; rewrite Hnext by reflexivity;
    (f_equal; simpl; do 2 f_equal; lia).
Qed.

Lemma runIdCalls_frame (calls : list Backend.IdCall) : forall b (key : string),
  key ∉ map fst (fst (Backend.runIdCalls calls b)) ->
  Backend.recordedErrors (snd (Backend.runIdCalls calls b)) !! key =
  Backend.recordedErrors b !! key.
Proof.
  induction calls as [|call calls IH]; intros b key Hkey; [ reflexivity | ].
  destruct call as [|err];
    [ rewrite runIdCalls_nextId in * | rewrite runIdCalls_setError in * ];
    cbn [fst snd map] in *;
    apply not_elem_of_cons in Hkey; destruct Hkey as [Hne Hkey];
    rewrite (IH _ _ Hkey).
  - reflexivity.
  - simpl. apply lookup_insert_ne. simpl in Hne. congruence.
Qed.

Lemma runIdCalls_recorded (calls : list Backend.IdCall) : forall b i e,
  NoDup (map fst (fst (Backend.runIdCalls calls b))) ->
  (i, Some e) ∈ fst (Backend.runIdCalls calls b) ->
  Backend.recordedErrors (snd (Backend.runIdCalls calls b)) !! i = Some e.
Proof.
  induction calls as [|call calls IH]; intros b i e Hnd Hin.
  - apply elem_of_nil in Hin. destruct Hin.
  - destruct call as [|err];
      [ rewrite runIdCalls_nextId in * | rewrite runIdCalls_setError in * ];
      cbn [fst snd map] in *;
      apply NoDup_cons in Hnd; destruct Hnd as [Hfresh Hnd];
      apply elem_of_cons in Hin; destruct Hin as [Hin|Hin].
    + discriminate.
    + apply IH; assumption.
    + injection Hin; intros <- ->.
      transitivity (Backend.recordedErrors (snd (Backend.setError e b))
                      !! fst (Backend.setError e b));
        [ apply runIdCalls_frame, Hfresh | simpl; apply lookup_insert_eq ].
    + apply IH; assumption.
Qed.

(** X13: the ids of the backend identify what they were given to.  Over
    any sequence of fewer than 2^64 calls of [nextId] and [setError], no id
    is handed out twice, and every error recorded is at the end still the one
    recorded under the id that [setError] returned for it. *)
Theorem ids_are_never_handed_out_twice :
  forall calls b,
    Z.of_nat (length calls) < 2 ^ 64 ->
    let r := Backend.runIdCalls calls b in
    NoDup (map fst (fst r)) /\
    (forall i e, (i, Some e) ∈ fst r -> Backend.recordedErrors (snd r) !! i = Some e).
Proof.
  intros calls b Hlen r.
  assert (Hnd : NoDup (map fst (fst r))).
  { unfold r. rewrite runIdCalls_ids.
    apply NoDup_fmap_2_strong; [ | apply NoDup_seq ].
    intros j k Hj Hk Heq.
    apply elem_of_seq in Hj, Hk. apply (inj pretty) in Heq.
    destruct (decide (j = k)) as [|Hne]; [ assumption | exfalso ].
    destruct (decide (j < k)%nat).
    - apply (wrap64_apart (Backend.id b + Z.of_nat j + 1) (Z.of_nat k - Z.of_nat j));
        [ lia | ].
      rewrite Heq. f_equal. lia.
    - apply (wrap64_apart (Backend.id b + Z.of_nat k + 1) (Z.of_nat j - Z.of_nat k));
        [ lia | ].
      rewrite <- Heq. f_equal. lia. }
  split; [ exact Hnd | ].
  intros i e. apply runIdCalls_recorded, Hnd.
Qed.

(** ** The skipped tests *)

Lemma mustSkip_true regexMatch (l : list (string * string)) (t : string) :
  snd (Backend.mustSkip regexMatch l t) = true <->
  exists p r, (p, r) ∈ l /\ Backend.matches regexMatch p t = true.
Proof.
  induction l as [|[p r] l IH]; simpl.
  - split; [ discriminate | ]. intros (p & r & Hin & _). apply elem_of_nil in Hin. destruct Hin.
  - destruct (Backend.matches regexMatch p t) eqn:Hm; simpl.
    + split; [ | reflexivity ]. intros _. exists p, r. split; [ left | exact Hm ].
    + rewrite IH. split.
      * intros (p' & r' & Hin & Hm'). exists p', r'. split; [ right; exact Hin | exact Hm' ].
      * intros (p' & r' & Hin & Hm'). apply elem_of_cons in Hin.
        destruct Hin as [Heq|Hin]; [ | eauto ].
        injection Heq; intros -> ->. congruence.
Qed.

Lemma mustSkip_reason regexMatch (l : list (string * string)) (t : string) :
  let r := Backend.mustSkip regexMatch l t in
  (snd r = true -> exists p, (p, fst r) ∈ l /\ Backend.matches regexMatch p t = true) /\
  (snd r = false -> fst r = "").
Proof.
  induction l as [|[p r] l IH]; simpl.
  - split; [ discriminate | reflexivity ].
  - destruct (Backend.matches regexMatch p t) eqn:Hm; simpl.
    + split; [ | discriminate ]. intros _. exists p. split; [ left | exact Hm ].
    + destruct IH as [IH1 IH2]. split; [ | exact IH2 ].
      intros H. destruct (IH1 H) as (p' & Hin & Hm'). exists p'. split; [ right; exact Hin | exact Hm' ].
Qed.

(** X14: whether a test is skipped does not depend on the order in which
    the table of skipped tests is visited.  [mustSkip] answers that the test
    is skipped exactly when some pattern of the table matches its name, in
    particular when the name is itself in the table; the reason it gives is
    then that of a matching pattern (which one, when several match, does
    depend on the order), and is empty when the test is not skipped. *)
Theorem mustSkip_does_not_depend_on_the_order :
  forall regexMatch (l l' : list (string * string)) (t : string),
    l ≡ₚ l' ->
    snd (Backend.mustSkip regexMatch l t) = snd (Backend.mustSkip regexMatch l' t) /\
    (snd (Backend.mustSkip regexMatch l t) = true <->
     exists p r, (p, r) ∈ l /\ Backend.matches regexMatch p t = true) /\
    (forall r, (t, r) ∈ l -> snd (Backend.mustSkip regexMatch l t) = true) /\
    (snd (Backend.mustSkip regexMatch l t) = true ->
     exists p, (p, fst (Backend.mustSkip regexMatch l t)) ∈ l /\
               Backend.matches regexMatch p t = true) /\
    (snd (Backend.mustSkip regexMatch l t) = false ->
     fst (Backend.mustSkip regexMatch l t) = "").
Proof.
  intros regexMatch l l' t Hp.
  split; [ | split; [ apply mustSkip_true | split; [ | apply mustSkip_reason ] ] ].
  - destruct (snd (Backend.mustSkip regexMatch l t)) eqn:E; symmetry.
    + apply mustSkip_true. apply mustSkip_true in E.
      destruct E as (p & r & Hin & Hm). exists p, r. split; [ | exact Hm ].
      rewrite <- Hp. exact Hin.
    + destruct (snd (Backend.mustSkip regexMatch l' t)) eqn:E'; [ | reflexivity ].
      apply mustSkip_true in E'. destruct E' as (p & r & Hin & Hm).
      rewrite <- Hp in Hin.
      assert (H : snd (Backend.mustSkip regexMatch l t) = true)
        by (apply mustSkip_true; eauto).
      congruence.
  - intros r Hin. apply mustSkip_true. exists t, r. split; [ exact Hin | ].
    unfold Backend.matches. rewrite String.eqb_refl. reflexivity.
Qed.

(** ** The transaction configuration of a request *)

(** X15: the timeout of a request reaches the validation of the session.
    The configurer [toTransactionConfigApply] builds from a request leaves
    the timeout of the configuration alone when the request has none, so that
    the default configuration still passes [validateTransactionConfig]; a
    timeout of [n] milliseconds that does not overflow becomes [n] million
    nanoseconds, which passes the validation exactly when [n] is not
    negative and is otherwise rejected with the usage error that names it;
    the metadata is replaced exactly when the request carries some.  The
    function panics exactly when a conversion does. *)
Theorem request_timeout_reaches_validation :
  forall (Value Json : Type) (asInt64 : Json -> option Z)
         (toParams : Json -> option (gmap string (@any Value)))
         (data : gmap string Json),
    let apply := Backend.toTransactionConfigApply Json asInt64 toParams data in
    (apply = None <->
     (exists j, data !! "txMeta" = Some j /\ toParams j = None) \/
     (exists j, data !! "timeout" = Some j /\ asInt64 j = None)) /\
    (forall f, apply = Some f ->
       let conf := applyConfigurers [f] defaultTransactionConfig in
       (data !! "timeout" = None ->
        Timeout conf = MinInt /\ validateTransactionConfig conf = None) /\
       (forall j n,
           data !! "timeout" = Some j -> asInt64 j = Some n ->
           - 9223372036854 <= n <= 9223372036854 ->
           Timeout conf = 1000000 * n /\
           (validateTransactionConfig conf = None <-> 0 <= n) /\
           (n < 0 ->
            validateTransactionConfig conf =
              Some (UsageError ("Negative transaction timeouts are not allowed. Given: "
                                  +:+ pretty (1000000 * n))))) /\
       (forall c, data !! "txMeta" = None -> Metadata (f c) = Metadata c) /\
       (forall c j m, data !! "txMeta" = Some j -> toParams j = Some m -> Metadata (f c) = m)).
Proof.
  intros Value Json asInt64 toParams data apply.
  unfold apply, Backend.toTransactionConfigApply.
  assert (Hw : forall n, - 9223372036854 <= n <= 9223372036854 ->
             Backend.wrap64 (Backend.Millisecond * n) = 1000000 * n).
  { intros n Hn. unfold Backend.wrap64, Backend.Millisecond.
    rewrite Z.mod_small by lia. lia. }
  assert (Hv : forall n (md : gmap string (@any Value)),
             - 9223372036854 <= n <= 9223372036854 ->
             let conf := {| Timeout := if negb (1000000 * n =? MinInt) then 1000000 * n
                                       else MinInt;
                            Metadata := md |} in
             Timeout conf = 1000000 * n /\
             (validateTransactionConfig conf = None <-> 0 <= n) /\
             (n < 0 ->
              validateTransactionConfig conf =
                Some (UsageError ("Negative transaction timeouts are not allowed. Given: "
                                    +:+ pretty (1000000 * n))))).
  { intros n md Hn.
    assert (Hne : (1000000 * n =? MinInt) = false)
      by (apply Z.eqb_neq; unfold MinInt; lia).
    simpl. rewrite Hne. simpl. unfold validateTransactionConfig. simpl. rewrite Hne. simpl.
    destruct (Z.ltb_spec (1000000 * n) 0).
    - split; [ reflexivity | split; [ split; [ discriminate | lia ] | reflexivity ] ].
    - split; [ reflexivity | split; [ split; [ lia | reflexivity ] | lia ] ]. }
  destruct (data !! "txMeta") as [jm|] eqn:Em; [ destruct (toParams jm) as [m|] eqn:Ep | ];
    (destruct (data !! "timeout") as [jt|] eqn:Et; [ destruct (asInt64 jt) as [n|] eqn:Ea | ]).
  all: split;
    [ split;
      [ intros H; try discriminate H; eauto
      | intros [(j & H1 & H2)|(j & H1 & H2)]; congruence ]
    | intros f Hf; try discriminate Hf; injection Hf; intros <-; cbv zeta ].
  all: split; [ intros H; try discriminate H; split; reflexivity | ].
  all: split;
    [ intros j n' H1 H2 Hn; try discriminate H1;
      injection H1; intros <-; rewrite Ea in H2; injection H2; intros <-;
      unfold applyConfigurers; simpl; rewrite (Hw _ Hn); apply Hv, Hn
    | split; [ intros c H; try discriminate H; reflexivity
             | intros c j m' H1 H2; try discriminate H1;
               injection H1; intros <-; rewrite Ep in H2; injection H2; intros <-;
               reflexivity ] ].
Qed.

(** * The theorems at work on the concrete environment *)

Lemma session_holds_at_most_one_transaction_witness :
  (exists m,
      fst (BeginTransaction Toy.bolt Toy.drv tt [] (Toy.explicitWorld Toy.calm))
      = Err (UsageError m)) /\
  noTx (snd (autocommitTransaction_done Toy.bolt Toy.drv
               {| atx_conn := Some (Toy.conn true);
                  atx_res := {| res_conn := Toy.conn true; res_stream := 3%nat;
                                res_cypher := "RETURN 1"; res_params := ∅;
                                res_ctx := tt; res_runBookmarks := ["b0"] |} |}
               tt (Toy.autocommitWorld Toy.calm))) /\
  atMostOneTx
    (runOps Toy.bolt Toy.drv
       [OpRun tt "RETURN 1" ∅ []; OpBeginTransaction tt []; OpRun tt "RETURN 2" ∅ []]
       (Toy.world "" None Toy.calm)).
Proof.
  destruct (session_holds_at_most_one_transaction Toy.bolt Toy.drv) as (Hg & Hd & Hi & Hn).
  split; [ | split ].
  - eapply Hg. reflexivity.
  - eapply (Hd (Toy.autocommitWorld Toy.calm)); reflexivity.
  - apply Hi. left. reflexivity.
Defined.

Lemma BeginTransaction_with_open_transaction_changes_nothing_witness :
  fst (BeginTransaction Toy.bolt Toy.drv tt [] (Toy.explicitWorld Toy.calm)) =
    Err (UsageError "Session already has a pending transaction") /\
  sess (snd (BeginTransaction Toy.bolt Toy.drv tt [] (Toy.explicitWorld Toy.calm))) =
    sess (Toy.explicitWorld Toy.calm).
Proof.
  edestruct (BeginTransaction_with_open_transaction_changes_nothing Toy.bolt Toy.drv
               (Toy.explicitWorld Toy.calm)) as (H1 & H2 & _).
  - reflexivity.
  - split; [ exact H1 | exact H2 ].
Defined.



Lemma negative_timeout_is_rejected_witness :
  validateTransactionConfig (Toy.setTimeout (-5) (@defaultTransactionConfig Toy.Value)) =
    Some (UsageError "Negative transaction timeouts are not allowed. Given: -5") /\
  validateTransactionConfig (Toy.setTimeout 0 (@defaultTransactionConfig Toy.Value)) = None /\
  fst (Run Toy.bolt Toy.drv tt "RETURN 1" ∅ [Toy.setTimeout (-5)]
         (Toy.autocommitWorld Toy.calm)) =
    Err (UsageError "Negative transaction timeouts are not allowed. Given: -5").
Proof.
  destruct (negative_timeout_is_rejected Toy.bolt Toy.drv) as (H1 & H2 & H3).
  split; [ | split ].
  - apply (H1 (Toy.setTimeout (-5) defaultTransactionConfig)); [ reflexivity | discriminate ].
  - apply H2. right. simpl. lia.
  - edestruct (H3 (Toy.autocommitWorld Toy.calm) [Toy.setTimeout (-5)])
      as (_ & _ & H).
    + reflexivity.
    + reflexivity.
    + reflexivity.
    + discriminate.
    + apply (H tt "RETURN 1" ∅).
Defined.

(** C10 as stated fails: with an explicit transaction open the error
    [BeginTransaction] returns for the timeout -1 is the guard's, which does
    not name the timeout. *)
Lemma negative_timeout_behind_the_guard :
  let c := applyConfigurers [Toy.setTimeout (-1)] (@defaultTransactionConfig Toy.Value) in
  Timeout c < 0 /\ Timeout c <> MinInt /\
  fst (BeginTransaction Toy.bolt Toy.drv tt [Toy.setTimeout (-1)]
         (Toy.explicitWorld Toy.calm)) =
    Err (UsageError "Session already has a pending transaction") /\
  fst (BeginTransaction Toy.bolt Toy.drv tt [Toy.setTimeout (-1)]
         (Toy.explicitWorld Toy.calm)) <>
    Err (UsageError "Negative transaction timeouts are not allowed. Given: -1").
Proof.
  split; [ reflexivity | ]. split; [ discriminate | ].
  split; [ reflexivity | ]. vm_compute. discriminate.
Qed.

Lemma getConnection_without_database_selector_witness :
  fst (getConnection Toy.bolt Toy.drv tt WriteMode DefaultLivenessCheckThreshold
         (Toy.world "neo4j" None Toy.plain)) =
    Err (UsageError "Database does not support multi-database") /\
  List.last (trace (snd (getConnection Toy.bolt Toy.drv tt WriteMode
                           DefaultLivenessCheckThreshold
                           (Toy.world "neo4j" None Toy.plain))))
    (EvSleep 0) = EvReturn (Toy.conn false) None.
Proof.
  rewrite (getConnection_without_database_selector Toy.bolt Toy.drv tt WriteMode
             DefaultLivenessCheckThreshold
             (Toy.world "neo4j" None Toy.plain)
             (Toy.world "neo4j" None Toy.plain)
             (Toy.world "neo4j" None Toy.plain)
             (snd (getServers tt WriteMode (Toy.world "neo4j" None Toy.plain)))
             tt ["server1:7687"] (Toy.conn false) Toy.plain).
  - split; reflexivity.
  - reflexivity.
  - reflexivity.
  - reflexivity.
  - reflexivity.
  - discriminate.
  - reflexivity.
Defined.


Lemma bookmark_failure_after_commit_is_only_logged_witness :
  let ws := Toy.world "neo4j" (Some Toy.manager) Toy.deaf in
  let r := runRetriable Toy.bolt Toy.drv 1 tt WriteMode Toy.work [] ws in
  fst r = Some (Ok (Some 42)) /\
  List.filter isOnFailure (trace (snd r)) = [] /\
  length (List.filter (fun ev => match ev with EvLog LWarn _ => true | _ => false end)
            (trace (snd r))) = 1%nat.
Proof.
  intros ws r.
  set (st0 := retryState (sess ws) tt WriteMode).
  edestruct (bookmark_failure_after_commit_is_only_logged Toy.bolt Toy.drv tt WriteMode
               defaultTransactionConfig (with_start st0 0) [] Toy.work ws)
    as (Ha & Hb & Hc);
    [ vm_compute; reflexivity | vm_compute; reflexivity | vm_compute; reflexivity
    | vm_compute; reflexivity | vm_compute; reflexivity | vm_compute; reflexivity | ].
  subst r.
  rewrite (Hc 1%nat [] ws eq_refl eq_refl eq_refl eq_refl eq_refl (Hb 0%nat st0 ws eq_refl)).
  split; [ reflexivity | split; reflexivity ].
Defined.


Lemma Close_cleans_up_and_aggregates_witness :
  let r := Close Toy.bolt Toy.drv true tt (Toy.explicitWorld Toy.failing) in
  (exists es, fst r = Some (CombinedError es) /\
              In (CombinedError [ForeignError "rollback failed"]) es /\
              In (ForeignError "pool cleanup failed") es) /\
  List.filter (fun ev => match ev with EvRouterCleanUp _ => true | _ => false end)
    (trace (snd r)) = [EvRouterCleanUp None].
Proof.
  intros r.
  destruct (Close_cleans_up_and_aggregates Toy.bolt Toy.drv true tt
              (Toy.explicitWorld Toy.failing))
    as (poolErr & routerErr & H1 & H2 & (Hp & Hq & _) & _ & _ & Hin & _).
  fold r in H1, H2, Hin.
  split.
  - destruct (Hin (CombinedError [ForeignError "rollback failed"])) as (es & He & Hi1);
      [ left; reflexivity | ].
    destruct (Hin (ForeignError "pool cleanup failed")) as (es' & He' & Hi2);
      [ right; left; exact Hp | ].
    exists es. split; [ exact He | split; [ exact Hi1 | ] ].
    rewrite He in He'. injection He' as <-. exact Hi2.
  - rewrite H2, Hp, Hq. reflexivity.
Defined.

Lemma retry_loop_stops_with_error_witness :
  let w := Toy.world "neo4j" None Toy.stuck in
  let w' := Toy.world "neo4j" None Toy.calm in
  fst (runRetriable Toy.bolt Toy.drv 10 tt WriteMode Toy.work [] w) =
    Some (Err (TransactionExecutionLimit
                 [ForeignError "commit failed"; ForeignError "commit failed";
                  ForeignError "commit failed"; ForeignError "commit failed"] [])) /\
  fst (runRetriable Toy.bolt Toy.drv 10 tt WriteMode Toy.fickleWork [] w') =
    Some (Err (UsageError "bad query")).
Proof.
  intros w w'. split.
  - edestruct (retry_loop_stops_with_error Toy.bolt Toy.drv 10 tt WriteMode Toy.work [] w [])
      as (d & lastErr & H1 & H2 & H3 & H4 & H5 & H6 & H7 & H8);
      [ reflexivity | reflexivity | reflexivity | vm_compute; reflexivity | ].
    rewrite H7. simpl. rewrite <- H2. reflexivity.
  - edestruct (retry_loop_stops_with_error Toy.bolt Toy.drv 10 tt WriteMode Toy.fickleWork []
                 w' [])
      as (d & lastErr & H1 & H2 & H3 & H4 & H5 & H6 & H7 & H8);
      [ reflexivity | reflexivity | reflexivity | vm_compute; reflexivity | ].
    rewrite H7. simpl in H4 |- *. injection H4; intros <-. reflexivity.
Defined.

(** C2 as stated fails: the first attempt fails with a connectivity error,
    which is retryable, the second with a usage error, and by then the retry
    budget is spent; what [runRetriable] returns is the usage error alone,
    not a retry limit error with the history of the two failures. *)
Lemma retryable_failure_seen_but_last_error_returned :
  let w := Toy.world "neo4j" None Toy.calm in
  let r := runRetriable Toy.bolt Toy.drv 5 tt WriteMode Toy.fickleWork [] w in
  failuresOf (trace (snd r)) =
    [ConnectivityError (ForeignError "connection reset"); UsageError "bad query"] /\
  isRetryable Toy.drv (ConnectivityError (ForeignError "connection reset")) = true /\
  MaxTransactionRetryTime Toy.cfg <= Toy.clock (env (snd r)) - Toy.clock (env w) /\
  fst r = Some (Err (UsageError "bad query")) /\
  ~ (exists errs causes, fst r = Some (Err (TransactionExecutionLimit errs causes))).
Proof.
  split; [ vm_compute; reflexivity | ]. split; [ reflexivity | ].
  split; [ vm_compute; discriminate | ]. split; [ vm_compute; reflexivity | ].
  intros (errs & causes & H). vm_compute in H. discriminate H.
Qed.

Lemma BeginTransaction_holds_what_it_returns_witness :
  let r := BeginTransaction Toy.bolt Toy.drv tt [] (Toy.autocommitWorld Toy.calm) in
  explicitTx (sess (snd r)) = (match fst r with Ok tx => Some tx | Err _ => None end) /\
  autocommitTx (sess (snd r)) = None /\
  borrowed (trace (snd r)) - returned (trace (snd r)) = 1.
Proof.
  destruct (BeginTransaction_holds_what_it_returns Toy.bolt Toy.drv tt []
              (Toy.autocommitWorld Toy.calm) eq_refl) as (H1 & H2 & H3).
  split; [ exact H1 | split; [ exact H2 | ] ].
  rewrite H3. vm_compute. reflexivity.
Defined.

Lemma Run_holds_what_it_returns_witness :
  let r := Run Toy.bolt Toy.drv tt "RETURN 2" ∅ [] (Toy.autocommitWorld Toy.calm) in
  explicitTx (sess (snd r)) = None /\
  autocommitTx (sess (snd r)) =
    (match fst r with
     | Ok res => Some {| atx_conn := Some (res_conn res); atx_res := res |}
     | Err _ => None
     end) /\
  borrowed (trace (snd r)) - returned (trace (snd r)) = 1.
Proof.
  destruct (Run_holds_what_it_returns Toy.bolt Toy.drv tt "RETURN 2" ∅ []
              (Toy.autocommitWorld Toy.calm) eq_refl) as (H1 & H2 & H3).
  split; [ exact H1 | split; [ exact H2 | ] ].
  rewrite H3. vm_compute. reflexivity.
Defined.

Lemma runRetriable_leaves_no_transaction_witness :
  let r := runRetriable Toy.bolt Toy.drv 5 tt WriteMode Toy.work []
             (Toy.autocommitWorld Toy.stuck) in
  noTx (snd r) /\
  borrowed (trace (snd r)) - returned (trace (snd r)) = 0.
Proof.
  destruct (runRetriable_leaves_no_transaction Toy.bolt Toy.drv 5 tt WriteMode Toy.work []
              (Toy.autocommitWorld Toy.stuck) eq_refl) as (H1 & H2).
  split; [ exact H1 | ].
  rewrite H2. vm_compute. reflexivity.
Defined.

Lemma getConnection_selects_the_database_witness :
  let w' := snd (getConnection Toy.bolt Toy.drv tt WriteMode 0
                   (Toy.world "neo4j" None Toy.calm)) in
  exists t servers wait,
    (databaseName (sess w') = DefaultDatabase Toy.drv /\
     trace w' = t ++ [EvBorrow servers wait 0 (Ok (Toy.conn true))]) \/
    (databaseName (sess w') <> DefaultDatabase Toy.drv /\
     isDatabaseSelector (Toy.conn true) = true /\
     trace w' = t ++ [EvBorrow servers wait 0 (Ok (Toy.conn true));
                      EvSelectDatabase (Toy.conn true) (databaseName (sess w'))]).
Proof.
  apply (getConnection_selects_the_database Toy.bolt Toy.drv tt WriteMode 0
           (Toy.world "neo4j" None Toy.calm)).
  vm_compute. reflexivity.
Defined.

Lemma a_result_means_a_commit_witness :
  committed (Some 42)
    (snd (runRetriable Toy.bolt Toy.drv 5 tt WriteMode Toy.work []
            (Toy.world "neo4j" None Toy.calm))).
Proof.
  apply (a_result_means_a_commit Toy.bolt Toy.drv 5 tt WriteMode Toy.work []
           (Toy.world "neo4j" None Toy.calm)).
  vm_compute. reflexivity.
Defined.

Lemma transactions_start_as_configured_witness :
  exists t (tx : @explicitTransaction Toy.Ctx) filters,
    trace (snd (BeginTransaction Toy.bolt Toy.drv tt [Toy.setTimeout 30]
                  (Toy.world "neo4j" None Toy.calm))) =
      t ++ [EvTxBegin (Toy.conn true)
              {| txMode := WriteMode; txBookmarks := etx_beginBookmarks tx;
                 txTimeout := 30; txMeta := ∅; txImpersonatedUser := "";
                 txNotificationFilters := filters |}
              (Ok (etx_txHandle tx))].
Proof.
  destruct (transactions_start_as_configured Toy.bolt Toy.drv) as [H _].
  edestruct (H tt [Toy.setTimeout 30] (Toy.world "neo4j" None Toy.calm))
    as (t & filters & H1 & _); [ vm_compute; reflexivity | ].
  eexists t, _, filters. exact H1.
Defined.

Lemma process_reads_one_frame_witness :
  Backend.process
    [Backend.requestBegin; "{name: StartTest," +:+ Backend.newline;
     " data: {}}" +:+ Backend.newline; Backend.requestEnd; Backend.requestBegin] =
    Backend.Request
      (Backend.joined ["{name: StartTest," +:+ Backend.newline; " data: {}}" +:+ Backend.newline])
      [Backend.requestBegin] /\
  Backend.process [Backend.requestBegin; "{name:" +:+ Backend.newline] = Backend.ReadError /\
  Backend.process ["{name: StartTest}" +:+ Backend.newline; Backend.requestEnd] =
    Backend.Panic "Line while not in request" /\
  Backend.process [Backend.requestBegin; Backend.requestBegin] =
    Backend.Panic "Already in request".
Proof.
  destruct process_reads_one_frame as (H1 & H2 & H3 & H4).
  split; [ | split; [ | split ] ].
  - apply H1.
    exists ["{name: StartTest," +:+ Backend.newline; " data: {}}" +:+ Backend.newline].
    split; [ reflexivity | ]. split; [ | reflexivity ].
    repeat constructor.
  - apply H2. right. exists ["{name:" +:+ Backend.newline].
    split; [ reflexivity | ]. repeat constructor.
  - apply (H3 ("{name: StartTest}" +:+ Backend.newline)). vm_compute. discriminate.
  - apply (H4 [] []). constructor.
Defined.

Lemma ids_are_never_handed_out_twice_witness :
  let r := Backend.runIdCalls
             [Backend.CallNextId; Backend.CallSetError (UsageError "boom"); Backend.CallNextId]
             {| Backend.id := 0; Backend.recordedErrors := ∅ |} in
  NoDup (map fst (fst r)) /\
  Backend.recordedErrors (snd r) !! "2" = Some (UsageError "boom").
Proof.
  destruct (ids_are_never_handed_out_twice
              [Backend.CallNextId; Backend.CallSetError (UsageError "boom"); Backend.CallNextId]
              {| Backend.id := 0; Backend.recordedErrors := ∅ |}) as [H1 H2].
  - vm_compute. reflexivity.
  - split; [ exact H1 | ]. apply H2.
    apply list_elem_of_further, list_elem_of_here.
Defined.

Lemma mustSkip_does_not_depend_on_the_order_witness :
  let skips := [("stub.*.test_0_timeout", "Driver omits 0 as tx timeout value");
                ("stub.summary.test_summary.TestSummary.test_server_info",
                 "Needs some kind of server address DNS resolution")] in
  let test := "stub.summary.test_summary.TestSummary.test_server_info" in
  snd (Backend.mustSkip (fun _ _ => false) skips test) =
    snd (Backend.mustSkip (fun _ _ => false) (reverse skips) test) /\
  snd (Backend.mustSkip (fun _ _ => false) skips test) = true.
Proof.
  intros skips test.
  destruct (mustSkip_does_not_depend_on_the_order (fun _ _ => false) skips (reverse skips) test)
    as (H1 & _ & H3 & _).
  - apply Permutation_swap.
  - split; [ exact H1 | ]. apply (H3 "Needs some kind of server address DNS resolution").
    apply list_elem_of_further, list_elem_of_here.
Defined.

Lemma request_timeout_reaches_validation_witness :
  match Backend.toTransactionConfigApply (Value := Z) Z Some (fun _ => None)
          {[ "timeout" := -5 ]} with
  | Some f =>
      validateTransactionConfig (applyConfigurers [f] defaultTransactionConfig) =
        Some (UsageError "Negative transaction timeouts are not allowed. Given: -5000000")
  | None => False
  end.
Proof.
  destruct (request_timeout_reaches_validation Z Z Some (fun _ => None)
              {[ "timeout" := -5 ]}) as [_ H].
  cbv zeta in H.
  destruct (Backend.toTransactionConfigApply Z Some (fun _ => None) {[ "timeout" := -5 ]})
    as [f|] eqn:E; [ | vm_compute in E; discriminate E ].
  destruct (H f eq_refl) as (_ & H2 & _).
  destruct (H2 (-5) (-5)) as (_ & _ & H3); [ reflexivity | reflexivity | lia | ].
  apply H3. lia.
Defined.
